(** * Windsurf hooks logger dashboard: workflow correlation and metrics

    A shallow embedding of the two front-end variants of the dashboard
    ([App.jsx], called [AppV1] and [AppV2] below):

    - [workflowGroups], the prompt -> actions correlator (both variants);
    - the [metrics] memo of [MetricsDashboard]: computed from the logs on
      the client in [AppV1], converted from the server's payload in [AppV2].

    Conventions of the embedding.
    - A JavaScript number that holds a count is a [Z]; array lengths and
      indices are [nat].
    - In the correlator [new Date(s).getTime()] on a timestamp string is
      a parameter [Date_getTime : string -> Js.time]: a time value in
      milliseconds or [NaN], the result on a string that is not a date.
      Every comparison with [NaN] is false and every difference with it is
      [NaN] ([Js.ltb], [Js.sub]). [Date.getTime] is a concrete instance
      for the examples.
    - In the metrics the hour and the day of a timestamp are read through
      a parameter [Date_getTime : string -> Z]: the statements about the
      histograms cover the timestamps that are dates. [Date.utcTime] is a
      concrete instance for the strings [YYYY-MM-DDTHH:mm:ss.sssZ].
    - [Array.prototype.sort] is stable; with a comparator that is a
      difference of keys its result is the one of any stable sort, here
      an insertion sort ([Js.sort]). A comparator that returns [NaN] is
      read as returning [+0] ([Js.sortCompare]); the order in which the
      array is then left is the one of the insertion sort.
    - An object handed around by reference and compared by identity
      ([indexOf]) carries its allocation number ([Obj], field [addr]).
    - An object used as a counter ([fileChanges[name] = ... + 1]) is a
      [Js.Counter]: its keys in creation order, enumerated the way
      [Object.entries] does (array indices first, ascending). A counter
      counts the keys that are not inherited from [Object.prototype]
      ([Js.inherited]); the statements about rankings assume such keys. *)

From Stdlib Require Import String Ascii ZArith List Bool Arith Lia.
From Stdlib Require Import Permutation Sorted DecimalString.
Import ListNotations.

Local Open Scope string_scope.
Local Open Scope list_scope.
Local Open Scope Z_scope.

(* ================================================================== *)
(** * JavaScript primitives *)
(* ================================================================== *)

Module Js.

(** [x || y] on values that are a string or [undefined]: the empty string
    and [undefined] are falsy. *)
Definition truthy (x : option string) : bool :=
  match x with
  | Some s => negb (s =? "")%string
  | None => false
  end.

Definition or (x y : option string) : option string :=
  if truthy x then x else y.

(** [x || d] with a string literal [d] as the last alternative. *)
Definition orDefault (x : option string) (d : string) : string :=
  match x with
  | Some s => if (s =? "")%string then d else s
  | None => d
  end.

(** [x || 0] on a number or [undefined]. *)
Definition orZero (x : option Z) : Z :=
  match x with
  | Some n => n
  | None => 0
  end.

(** [x === 'lit']. *)
Definition strictEq (x : option string) (lit : string) : bool :=
  match x with
  | Some s => (s =? lit)%string
  | None => false
  end.

(** Template literal [`${n}`] of a length or index. *)
Definition showNat (n : nat) : string :=
  NilEmpty.string_of_uint (Nat.to_uint n).

(** The result of [getTime()]: a time value in milliseconds, or [NaN]
    for a string that is not a date. *)
Inductive time : Type :=
| Time (t : Z)
| NaN.

(** [a < b], and [b > a]: false when an operand is [NaN]. *)
Definition ltb (a b : time) : bool :=
  match a, b with
  | Time x, Time y => x <? y
  | _, _ => false
  end.

(** [a - b]: [NaN] when an operand is [NaN]. *)
Definition sub (a b : time) : time :=
  match a, b with
  | Time x, Time y => Time (x - y)
  | _, _ => NaN
  end.

(** The order of two results of [getTime()] as the comparisons see it:
    [lt a b] when [a < b] holds, [le a b] when both are time values and
    [a] is not after [b]. *)
Definition lt (a b : time) : Prop := ltb a b = true.

Definition le (a b : time) : Prop :=
  match a, b with
  | Time x, Time y => x <= y
  | _, _ => False
  end.

(** What [sort] makes of the number its comparator returns: [NaN] counts
    as [+0]. *)
Definition sortCompare (v : time) : Z :=
  match v with
  | Time z => z
  | NaN => 0
  end.

(** The upper end of a time window: the result of [getTime()] or
    [Infinity]. *)
Inductive bound : Type :=
| Finite (t : time)
| Infinity.

(** [t < b]; [NaN < Infinity] is false. *)
Definition ltb_bound (t : time) (b : bound) : bool :=
  match b with
  | Finite u => ltb t u
  | Infinity => match t with Time _ => true | NaN => false end
  end.

Section Sort.
Context {A : Type}.
Variable cmp : A -> A -> Z.

(** [insert x l] puts [x] before the first element it does not come
    after: among elements that compare equal the earlier one stays
    first. *)
Fixpoint insert (x : A) (l : list A) : list A :=
  match l with
  | [] => [x]
  | y :: ys => if cmp x y <=? 0 then x :: y :: ys else y :: insert x ys
  end.

(** [l.sort(cmp)], stable. *)
Fixpoint sort (l : list A) : list A :=
  match l with
  | [] => []
  | x :: xs => insert x (sort xs)
  end.
End Sort.

(** [s.split(c)]: the pieces of [s] between the occurrences of [c]
    (never empty: [''.split(c)] is [['']]). *)
Fixpoint split (c : ascii) (s : string) : list string :=
  match s with
  | EmptyString => [EmptyString]
  | String a r =>
      if Ascii.eqb a c then EmptyString :: split c r
      else match split c r with
           | [] => [String a EmptyString]
           | p :: ps => String a p :: ps
           end
  end.

(** [s.split(c).pop()]: the last piece. *)
Definition splitPop (c : ascii) (s : string) : string :=
  last (split c s) EmptyString.

(** [s.split(c)[0]]: the first piece. *)
Definition splitHead (c : ascii) (s : string) : string :=
  hd EmptyString (split c s).

(** [Math.max(...l, 1)]. *)
Definition maxWith1 (l : list Z) : Z := fold_right Z.max 1 l.

(** [Math.round(a / b)] for [0 <= a] and [0 < b]: the quotient rounded
    to the nearest integer, halves up. *)
Definition roundDiv (a b : Z) : Z := (2 * a + b) / (2 * b).

(** ** Objects used as counters *)

Definition isDigit (a : ascii) : bool :=
  let n := nat_of_ascii a in (48 <=? n)%nat && (n <=? 57)%nat.

Fixpoint digitsValue (acc : Z) (s : string) : option Z :=
  match s with
  | EmptyString => Some acc
  | String a r =>
      if isDigit a
      then digitsValue (10 * acc + Z.of_nat (nat_of_ascii a - 48)) r
      else None
  end.

(** A property key is an array index when it is the canonical decimal
    form of an integer from 0 to 2^32 - 2. *)
Definition arrayIndex (k : string) : option Z :=
  match k with
  | EmptyString => None
  | String a r =>
      if Ascii.eqb a "0" && negb (r =? "")%string then None
      else match digitsValue 0 k with
           | Some n => if n <=? 4294967294 then Some n else None
           | None => None
           end
  end.

Definition isArrayIndex (k : string) : bool :=
  match arrayIndex k with Some _ => true | None => false end.

(** The own properties of a counter, in creation order. *)
Definition Counter : Type := list (string * Z).

(** [obj[k] = (obj[k] || 0) + 1]: an existing property keeps its place,
    a new one is created last. *)
Fixpoint bump (k : string) (obj : Counter) : Counter :=
  match obj with
  | [] => [(k, 1)]
  | (k', n) :: rest =>
      if (k' =? k)%string then (k', n + 1) :: rest else (k', n) :: bump k rest
  end.

(** [names.forEach(k => obj[k] = (obj[k] || 0) + 1)] from an empty object. *)
Definition countAll (names : list string) : Counter :=
  fold_left (fun obj k => bump k obj) names [].

Definition indexCmp (a b : string * Z) : Z :=
  orZero (arrayIndex (fst a)) - orZero (arrayIndex (fst b)).

(** [Object.entries(obj)]: the array-index keys in ascending numeric
    order, then the other keys in creation order. *)
Definition entries (obj : Counter) : list (string * Z) :=
  sort indexCmp (filter (fun e => isArrayIndex (fst e)) obj)
    ++ filter (fun e => negb (isArrayIndex (fst e))) obj.

(** [Object.keys(obj).length]. *)
Definition size (obj : Counter) : nat := length obj.

(** The property names every object inherits from [Object.prototype]:
    reading them from a fresh object yields a function, not a count. *)
Definition inherited : list string :=
  [ "constructor"; "__proto__"; "hasOwnProperty"; "isPrototypeOf";
    "propertyIsEnumerable"; "toLocaleString"; "toString"; "valueOf";
    "__defineGetter__"; "__defineSetter__"; "__lookupGetter__";
    "__lookupSetter__" ].

Definition ordinaryKey (k : string) : bool :=
  negb (existsb (String.eqb k) inherited).

(** [new Set()] filled with [add]: the distinct values. *)
Fixpoint setAdd (x : string) (s : list string) : list string :=
  match s with
  | [] => [x]
  | y :: r => if (y =? x)%string then s else y :: setAdd x r
  end.

End Js.

(* ================================================================== *)
(** * Dates *)
(* ================================================================== *)

(** The time-value arithmetic of ECMAScript's [Date] (all in UTC; a
    local-time method takes the zone offset as a parameter where it is
    used). *)
Module Date.

Definition msPerDay : Z := 86400000.
Definition msPerHour : Z := 3600000.

(** Day number of a time value, its hour of the day and its day of the
    week (0 = Sunday: day 0, 1970-01-01, was a Thursday). *)
Definition Day (t : Z) : Z := t / msPerDay.
Definition HourFromTime (t : Z) : Z := (t / msPerHour) mod 24.
Definition WeekDay (t : Z) : Z := (Day t + 4) mod 7.

(** Day number of the civil date [y-m-d] (proleptic Gregorian). *)
Definition daysFromCivil (y m d : Z) : Z :=
  let y' := if m <=? 2 then y - 1 else y in
  let era := y' / 400 in
  let yoe := y' - era * 400 in
  let doy := (153 * (if 2 <? m then m - 3 else m + 9) + 2) / 5 + d - 1 in
  let doe := yoe * 365 + yoe / 4 - yoe / 100 + doy in
  era * 146097 + doe - 719468.

(** Civil date [(y, m, d)] of a day number. *)
Definition civilFromDays (z : Z) : Z * Z * Z :=
  let z' := z + 719468 in
  let era := z' / 146097 in
  let doe := z' - era * 146097 in
  let yoe := (doe - doe / 1460 + doe / 36524 - doe / 146096) / 365 in
  let doy := doe - (365 * yoe + yoe / 4 - yoe / 100) in
  let mp := (5 * doy + 2) / 153 in
  let d := doy - (153 * mp + 2) / 5 + 1 in
  let m := if mp <? 10 then mp + 3 else mp - 9 in
  ((if m <=? 2 then yoe + era * 400 + 1 else yoe + era * 400), m, d).

Definition digit (n : Z) : ascii := ascii_of_nat (48 + Z.to_nat (n mod 10)).

(** [n] in decimal on [w] digits, zero-padded. *)
Fixpoint pad (w : nat) (n : Z) : string :=
  match w with
  | O => EmptyString
  | S w' => (pad w' (n / 10) ++ String (digit n) EmptyString)%string
  end.

(** [new Date(t).toISOString().split('T')[0]]: the UTC calendar date,
    [YYYY-MM-DD] (a year outside 0..9999 is written with a sign and six
    digits). *)
Definition toISODate (t : Z) : string :=
  let '(y, m, d) := civilFromDays (Day t) in
  let sign := if y <? 0 then "-" else "+" in
  let year :=
    if (0 <=? y) && (y <=? 9999) then pad 4 y
    else (sign ++ pad 6 (Z.abs y))%string in
  (year ++ "-" ++ pad 2 m ++ "-" ++ pad 2 d)%string.

(** [toLocaleDateString('en-US', { weekday: 'short' })] of a local time
    value. *)
Definition weekdayShort (localTime : Z) : string :=
  nth (Z.to_nat (WeekDay localTime))
      ["Sun"; "Mon"; "Tue"; "Wed"; "Thu"; "Fri"; "Sat"] "".

Definition field (s : string) (from len : nat) : option Z :=
  let f := substring from len s in
  if (String.length f =? len)%nat then Js.digitsValue 0 f else None.

(** The time value of a string in the format [toISOString] writes,
    [YYYY-MM-DDTHH:mm:ss.sssZ]. *)
Definition parseUTC (s : string) : option Z :=
  match field s 0 4, field s 5 2, field s 8 2,
        field s 11 2, field s 14 2, field s 17 2, field s 20 3 with
  | Some y, Some mo, Some d, Some h, Some mi, Some sec, Some ms =>
      if ((String.length s =? 24)%nat
          && (substring 4 1 s =? "-")%string && (substring 7 1 s =? "-")%string
          && (substring 10 1 s =? "T")%string && (substring 13 1 s =? ":")%string
          && (substring 16 1 s =? ":")%string && (substring 19 1 s =? ".")%string
          && (substring 23 1 s =? "Z")%string)%bool
      then Some (daysFromCivil y mo d * msPerDay
                 + h * msPerHour + mi * 60000 + sec * 1000 + ms)
      else None
  | _, _, _, _, _, _, _ => None
  end.

(** An instance of [new Date(s).getTime()] for the examples: exact on the
    strings [parseUTC] reads, which are the only ones it is applied to. *)
Definition utcTime (s : string) : Z :=
  match parseUTC s with
  | Some t => t
  | None => 0
  end.

(** An instance of [new Date(s).getTime()] for the examples of the
    correlator: exact on the strings [parseUTC] reads, and [NaN] on
    ["not-a-date"], the only other string it is applied to. *)
Definition getTime (s : string) : Js.time :=
  match parseUTC s with
  | Some t => Js.Time t
  | None => Js.NaN
  end.

(** A machine whose local time is UTC. *)
Definition utcZone (t : Z) : Z := 0.

End Date.

(* ================================================================== *)
(** * Data model *)
(* ================================================================== *)

(** The [data] payload of a log entry, with the fields the dashboard
    reads. *)
Record Data : Type := mkData {
  data_file_path : option string;
  data_command_line : option string;
  mcp_tool_name : option string;
  mcp_full_tool : option string;
  total_lines_added : option Z;
  total_lines_removed : option Z
}.

(** A log entry as the API returns it. [_sessionId] is the field the
    correlator adds to its copies. *)
Record Event : Type := mkEvent {
  event_id : option string;
  timestamp : option string;
  category : option string;
  type : option string;
  trajectory_id : option string;
  file_path : option string;
  command_line : option string;
  data : option Data;
  _sessionId : option string
}.

(** An object of the correlator's working array: [addr] is its identity
    (the number of objects allocated before it). *)
Record Obj : Type := mkObj {
  addr : nat;
  fields : Event
}.

Module Session.
Record t : Type := mk {
  id : string;
  events : option (list Event)
}.
End Session.

(** A workflow group. [prompt] is [None] for [null]. The actions are given
    by their fields. *)
Module Group.
Record t : Type := mk {
  prompt : option Obj;
  actions : list Event;
  id : string
}.
End Group.

Definition blankData : Data := mkData None None None None None None.


(* ================================================================== *)
(** * First variant of the dashboard *)
(* ================================================================== *)

Module AppV1.

Section Correlator.

(** [new Date(s).getTime()]: [NaN] when [s] is not a date. *)
Variable Date_getTime : string -> Js.time.

(** [new Date(e.timestamp || 0).getTime()]. *)
Definition timeOf (e : Event) : Js.time :=
  match timestamp e with
  | Some s => if (s =? "")%string then Js.Time 0 else Date_getTime s
  | None => Js.Time 0
  end.

(** The comparator of both sorts: [timeA - timeB]. *)
Definition byTime (a b : Event) : Js.time := Js.sub (timeOf a) (timeOf b).

Definition byTimeObj (a b : Obj) : Js.time := byTime (fields a) (fields b).

(** [(e.category || e.type) === 'prompt']. *)
Definition isPrompt (e : Event) : bool :=
  Js.strictEq (Js.or (category e) (type e)) "prompt".

(** [{ ...event, _sessionId: session.id }]. *)
Definition spread (event : Event) (sessionId : string) : Event :=
  mkEvent (event_id event) (timestamp event) (category event) (type event)
          (trajectory_id event) (file_path event) (command_line event)
          (data event) (Some sessionId).

(** [session.events || []]. *)
Definition eventsOf (session : Session.t) : list Event :=
  match Session.events session with
  | Some l => l
  | None => []
  end.

(** The two nested [forEach] that fill [allEvents] with fresh copies. *)
Definition gather (sessions : list Session.t) : list Obj :=
  fold_left
    (fun allEvents session =>
       fold_left
         (fun allEvents event =>
            allEvents
              ++ [mkObj (length allEvents) (spread event (Session.id session))])
         (eventsOf session) allEvents)
    sessions [].

(** [allEvents] after [allEvents.sort(...)]. *)
Definition allEvents (sessions : list Session.t) : list Obj :=
  Js.sort (fun a b => Js.sortCompare (byTimeObj a b)) (gather sessions).

Definition prompts (sessions : list Session.t) : list Obj :=
  filter (fun e => isPrompt (fields e)) (allEvents sessions).

Definition actions (sessions : list Session.t) : list Obj :=
  filter (fun e => negb (isPrompt (fields e))) (allEvents sessions).

(** The ['no_session'] branch: one group per prompt, in order. *)
Definition noSessionGroups (prompts actions : list Obj) : list Group.t :=
  flat_map
    (fun i =>
       match nth_error prompts i with
       | Some prompt =>
           let promptTime := timeOf (fields prompt) in
           let nextPromptTime :=
             if Z.of_nat i <? Z.of_nat (length prompts) - 1
             then match nth_error prompts (i + 1) with
                  | Some next => Js.Finite (timeOf (fields next))
                  | None => Js.Infinity
                  end
             else Js.Infinity in
           let relatedActions :=
             filter
               (fun a =>
                  let actionTime := timeOf (fields a) in
                  Js.ltb promptTime actionTime
                    && Js.ltb_bound actionTime nextPromptTime)
               actions in
           [Group.mk (Some prompt) (map fields relatedActions)
                     (Js.orDefault (event_id (fields prompt))
                                   ("group-" ++ Js.showNat i)%string)]
       | None => []
       end)
    (seq 0 (length prompts)).

(** [[...session.events].sort(...)]. *)
Definition sessionEvents (events : list Event) : list Event :=
  Js.sort (fun a b => Js.sortCompare (byTime a b)) events.

Definition earliestActionTime (sessionEvents : list Event) : Js.time :=
  match sessionEvents with
  | first :: _ => timeOf first
  | [] => Js.Time 0
  end.

Definition relevantPrompts (prompts : list Obj) (earliestActionTime : Js.time)
  : list Obj :=
  filter
    (fun p =>
       let promptTime := timeOf (fields p) in
       Js.ltb promptTime earliestActionTime
         && Js.ltb (Js.sub earliestActionTime promptTime)
                   (Js.Time (5 * 60 * 1000)))
    prompts.

(** [relevantPrompts.indexOf(prompt)]: the position of the first
    element that is the same object, [-1] when there is none. *)
Fixpoint indexOf (l : list Obj) (x : Obj) : Z :=
  match l with
  | [] => -1
  | y :: rest =>
      if (addr y =? addr x)%nat then 0
      else let k := indexOf rest x in if k <? 0 then -1 else k + 1
  end.

(** The body of [for (const prompt of relevantPrompts)]: [groups] after
    the iteration. (The counter [actionIndex] is never read.) *)
Definition sessionStep (relevantPrompts : list Obj)
           (sessionEvents : list Event)
           (groups : list Group.t) (prompt : Obj) : list Group.t :=
  let promptTime := timeOf (fields prompt) in
  let nextPromptTime :=
    if indexOf relevantPrompts prompt
         <? Z.of_nat (length relevantPrompts) - 1
    then match nth_error relevantPrompts
                 (Z.to_nat (indexOf relevantPrompts prompt + 1)) with
         | Some next => Js.Finite (timeOf (fields next))
         | None => Js.Infinity
         end
    else Js.Infinity in
  let relatedActions :=
    filter
      (fun a =>
         let actionTime := timeOf a in
         Js.ltb promptTime actionTime
           && Js.ltb_bound actionTime nextPromptTime)
      sessionEvents in
  if (0 <? length relatedActions)%nat || (length relevantPrompts =? 1)%nat
  then groups
         ++ [Group.mk (Some prompt) relatedActions
                      (Js.orDefault (event_id (fields prompt))
                                    ("group-" ++ Js.showNat (length groups))%string)]
  else groups.

(** The specific-session branch, for the session's (non-empty) events. *)
Definition sessionGroups (prompts : list Obj) (events : list Event)
  : list Group.t :=
  let sessionEvents := sessionEvents events in
  let earliestActionTime := earliestActionTime sessionEvents in
  let relevantPrompts := relevantPrompts prompts earliestActionTime in
  let groups :=
    fold_left (sessionStep relevantPrompts sessionEvents) relevantPrompts [] in
  if (length groups =? 0)%nat && (0 <? length sessionEvents)%nat
  then groups ++ [Group.mk None sessionEvents "session-actions"]
  else groups.

(** [sessions.find(s => s.id === selectedSession)]. *)
Definition findSession (selectedSession : option string)
           (sessions : list Session.t) : option Session.t :=
  find (fun s => Js.strictEq selectedSession (Session.id s)) sessions.

(** The memo [workflowGroups] of [App], as a function of its two
    dependencies. *)
Definition workflowGroups (selectedSession : option string)
           (sessions : list Session.t) : list Group.t :=
  if negb (Js.truthy selectedSession) then []
  else if Js.strictEq selectedSession "no_session"
  then noSessionGroups (prompts sessions) (actions sessions)
  else
    match findSession selectedSession sessions with
    | None => []
    | Some session =>
        match Session.events session with
        | None => []
        | Some [] => []
        | Some events => sessionGroups (prompts sessions) events
        end
    end.

End Correlator.

(** ** The metrics memo of [MetricsDashboard] *)

Module Recent.
Record t : Type := mk {
  label : string;
  date : string;
  count : Z
}.
End Recent.

Module Metrics.
Record t : Type := mk {
  totalEvents : Z;
  categoryBreakdown : Js.Counter;
  hourlyActivity : list Z;
  maxHourly : Z;
  dailyActivity : list Z;
  dayNames : list string;
  maxDaily : Z;
  topFiles : list (string * Z);
  topCommands : list (string * Z);
  topMcpTools : list (string * Z);
  avgEventsPerSession : Z;
  totalLinesAdded : Z;
  totalLinesRemoved : Z;
  recentDays : list Recent.t;
  maxRecentDaily : Z;
  uniqueFilesCount : Z;
  filteredSessionCount : Z
}.
End Metrics.

(** [a[i]++] on an array of counts, for an index inside the array (the
    hour and the day of a date always are). *)
Fixpoint incrAt (i : nat) (a : list Z) : list Z :=
  match a, i with
  | [], _ => []
  | x :: rest, O => (x + 1) :: rest
  | x :: rest, S i' => x :: incrAt i' rest
  end.

(** [l.category === c || l.type === c]. *)
Definition hasCategory (c : string) (l : Event) : bool :=
  Js.strictEq (category l) c || Js.strictEq (type l) c.

(** [log.data?.f]. *)
Definition dataField {A : Type} (f : Data -> option A) (l : Event) : option A :=
  match data l with
  | Some d => f d
  | None => None
  end.

(** The comparator of the three rankings: [b[1] - a[1]]. *)
Definition byCountDesc (a b : string * Z) : Z := snd b - snd a.

(** [filePath.split('/').pop()] of
    [log.data?.file_path || log.file_path || 'unknown']. *)
Definition fileName (log : Event) : string :=
  Js.splitPop "/"
    (Js.orDefault (Js.or (dataField data_file_path log) (file_path log))
                  "unknown").

(** [cmd.split(' ')[0]] of
    [log.data?.command_line || log.command_line || 'unknown']. *)
Definition cmdName (log : Event) : string :=
  Js.splitHead " "
    (Js.orDefault (Js.or (dataField data_command_line log) (command_line log))
                  "unknown").

(** [log.data?.mcp_tool_name || log.data?.mcp_full_tool || 'unknown']. *)
Definition toolName (log : Event) : string :=
  Js.orDefault (Js.or (dataField mcp_tool_name log)
                      (dataField mcp_full_tool log))
               "unknown".

Definition fileChanges (logs : list Event) : Js.Counter :=
  Js.countAll (map fileName (filter (hasCategory "file_write") logs)).

Definition topFilesOf (logs : list Event) : list (string * Z) :=
  firstn 8 (Js.sort byCountDesc (Js.entries (fileChanges logs))).

(** The set [uniqueSessionIds]. *)
Definition uniqueSessionIds (logs : list Event) : list string :=
  fold_left
    (fun ids log =>
       match trajectory_id log with
       | Some tid => if (tid =? "")%string then ids else Js.setAdd tid ids
       | None => ids
       end)
    logs [].

(** [l.timestamp?.startsWith(dateStr)]. *)
Definition startsWith (dateStr : string) (l : Event) : bool :=
  match timestamp l with
  | Some ts => String.prefix dateStr ts
  | None => false
  end.

Section Dashboard.

(** [new Date(s).getTime()], and the offset of local time from UTC at a
    time value. *)
Variable Date_getTime : string -> Z.
Variable LocalTZA : Z -> Z.

Definition LocalTime (t : Z) : Z := t + LocalTZA t.

(** [new Date(s).getHours()] and [new Date(s).getDay()]. *)
Definition getHours (s : string) : nat :=
  Z.to_nat (Date.HourFromTime (LocalTime (Date_getTime s))).

Definition getDay (s : string) : nat :=
  Z.to_nat (Date.WeekDay (LocalTime (Date_getTime s))).

(** The two histogram loops: [if (log.timestamp) a[f(log.timestamp)]++]. *)
Definition histogram (buckets : nat) (f : string -> nat) (logs : list Event)
  : list Z :=
  fold_left
    (fun a log =>
       if Js.truthy (timestamp log)
       then incrAt (f (Js.orDefault (timestamp log) "")) a
       else a)
    logs (repeat 0 buckets).

(** The loop [for (let i = 6; i >= 0; i--)] over the last seven days
    before [now]. *)
Definition recentDaysOf (now : Z) (logs : list Event) : list Recent.t :=
  map
    (fun i =>
       let date := now - i * 24 * 60 * 60 * 1000 in
       let dateStr := Date.toISODate date in
       let count := Z.of_nat (length (filter (startsWith dateStr) logs)) in
       Recent.mk (Date.weekdayShort (LocalTime date)) dateStr count)
    [6; 5; 4; 3; 2; 1; 0].

(** The memo [metrics]; [now] is the clock read by [new Date()]. *)
Definition metrics (now : Z) (logs : list Event) : Metrics.t :=
  let categoryBreakdown :=
    Js.countAll
      (map (fun log => Js.orDefault (Js.or (category log) (type log)) "unknown")
           logs) in
  let totalEvents := Z.of_nat (length logs) in
  let hourlyActivity := histogram 24 getHours logs in
  let maxHourly := Js.maxWith1 hourlyActivity in
  let dailyActivity := histogram 7 getDay logs in
  let dayNames := ["Sun"; "Mon"; "Tue"; "Wed"; "Thu"; "Fri"; "Sat"] in
  let maxDaily := Js.maxWith1 dailyActivity in
  let uniqueFilesCount := Z.of_nat (Js.size (fileChanges logs)) in
  let topFiles := topFilesOf logs in
  let commandUsage :=
    Js.countAll (map cmdName (filter (hasCategory "command") logs)) in
  let topCommands :=
    firstn 6 (Js.sort byCountDesc (Js.entries commandUsage)) in
  let mcpUsage :=
    Js.countAll (map toolName (filter (hasCategory "mcp") logs)) in
  let topMcpTools := firstn 6 (Js.sort byCountDesc (Js.entries mcpUsage)) in
  let size := Z.of_nat (length (uniqueSessionIds logs)) in
  let filteredSessionCount := if size =? 0 then 1 else size in
  let avgEventsPerSession :=
    if 0 <? filteredSessionCount
    then Js.roundDiv totalEvents filteredSessionCount
    else 0 in
  let writes := filter (hasCategory "file_write") logs in
  let totalLinesAdded :=
    fold_left (fun n log => n + Js.orZero (dataField total_lines_added log))
              writes 0 in
  let totalLinesRemoved :=
    fold_left (fun n log => n + Js.orZero (dataField total_lines_removed log))
              writes 0 in
  let recentDays := recentDaysOf now logs in
  let maxRecentDaily := Js.maxWith1 (map Recent.count recentDays) in
  Metrics.mk totalEvents categoryBreakdown hourlyActivity maxHourly
             dailyActivity dayNames maxDaily topFiles topCommands
             topMcpTools avgEventsPerSession totalLinesAdded
             totalLinesRemoved recentDays maxRecentDaily uniqueFilesCount
             filteredSessionCount.

End Dashboard.

End AppV1.

(* ================================================================== *)
(** * Second variant of the dashboard *)
(* ================================================================== *)

Module AppV2.

Section Correlator.

(** [new Date(s).getTime()]: [NaN] when [s] is not a date. *)
Variable Date_getTime : string -> Js.time.

(** [new Date(e.timestamp || 0).getTime()]. *)
Definition timeOf (e : Event) : Js.time :=
  match timestamp e with
  | Some s => if (s =? "")%string then Js.Time 0 else Date_getTime s
  | None => Js.Time 0
  end.

(** The comparator of both sorts: [timeA - timeB]. *)
Definition byTime (a b : Event) : Js.time := Js.sub (timeOf a) (timeOf b).

Definition byTimeObj (a b : Obj) : Js.time := byTime (fields a) (fields b).

(** [(e.category || e.type) === 'prompt']. *)
Definition isPrompt (e : Event) : bool :=
  Js.strictEq (Js.or (category e) (type e)) "prompt".

(** [{ ...event, _sessionId: session.id }]. *)
Definition spread (event : Event) (sessionId : string) : Event :=
  mkEvent (event_id event) (timestamp event) (category event) (type event)
          (trajectory_id event) (file_path event) (command_line event)
          (data event) (Some sessionId).

(** [session.events || []]. *)
Definition eventsOf (session : Session.t) : list Event :=
  match Session.events session with
  | Some l => l
  | None => []
  end.

(** The two nested [forEach] that fill [allEvents] with fresh copies. *)
Definition gather (sessions : list Session.t) : list Obj :=
  fold_left
    (fun allEvents session =>
       fold_left
         (fun allEvents event =>
            allEvents
              ++ [mkObj (length allEvents) (spread event (Session.id session))])
         (eventsOf session) allEvents)
    sessions [].

(** [allEvents] after [allEvents.sort(...)]. *)
Definition allEvents (sessions : list Session.t) : list Obj :=
  Js.sort (fun a b => Js.sortCompare (byTimeObj a b)) (gather sessions).

Definition prompts (sessions : list Session.t) : list Obj :=
  filter (fun e => isPrompt (fields e)) (allEvents sessions).

Definition actions (sessions : list Session.t) : list Obj :=
  filter (fun e => negb (isPrompt (fields e))) (allEvents sessions).

(** The ['no_session'] branch: one group per prompt, in order. *)
Definition noSessionGroups (prompts actions : list Obj) : list Group.t :=
  flat_map
    (fun i =>
       match nth_error prompts i with
       | Some prompt =>
           let promptTime := timeOf (fields prompt) in
           let nextPromptTime :=
             if Z.of_nat i <? Z.of_nat (length prompts) - 1
             then match nth_error prompts (i + 1) with
                  | Some next => Js.Finite (timeOf (fields next))
                  | None => Js.Infinity
                  end
             else Js.Infinity in
           let relatedActions :=
             filter
               (fun a =>
                  let actionTime := timeOf (fields a) in
                  Js.ltb promptTime actionTime
                    && Js.ltb_bound actionTime nextPromptTime)
               actions in
           [Group.mk (Some prompt) (map fields relatedActions)
                     (Js.orDefault (event_id (fields prompt))
                                   ("group-" ++ Js.showNat i)%string)]
       | None => []
       end)
    (seq 0 (length prompts)).

(** [[...session.events].sort(...)]. *)
Definition sessionEvents (events : list Event) : list Event :=
  Js.sort (fun a b => Js.sortCompare (byTime a b)) events.

Definition earliestActionTime (sessionEvents : list Event) : Js.time :=
  match sessionEvents with
  | first :: _ => timeOf first
  | [] => Js.Time 0
  end.

Definition relevantPrompts (prompts : list Obj) (earliestActionTime : Js.time)
  : list Obj :=
  filter
    (fun p =>
       let promptTime := timeOf (fields p) in
       Js.ltb promptTime earliestActionTime
         && Js.ltb (Js.sub earliestActionTime promptTime)
                   (Js.Time (5 * 60 * 1000)))
    prompts.

(** [relevantPrompts.indexOf(prompt)]: the position of the first
    element that is the same object, [-1] when there is none. *)
Fixpoint indexOf (l : list Obj) (x : Obj) : Z :=
  match l with
  | [] => -1
  | y :: rest =>
      if (addr y =? addr x)%nat then 0
      else let k := indexOf rest x in if k <? 0 then -1 else k + 1
  end.

(** The body of [for (const prompt of relevantPrompts)]: [groups] after
    the iteration. (The counter [actionIndex] is never read.) *)
Definition sessionStep (relevantPrompts : list Obj)
           (sessionEvents : list Event)
           (groups : list Group.t) (prompt : Obj) : list Group.t :=
  let promptTime := timeOf (fields prompt) in
  let nextPromptTime :=
    if indexOf relevantPrompts prompt
         <? Z.of_nat (length relevantPrompts) - 1
    then match nth_error relevantPrompts
                 (Z.to_nat (indexOf relevantPrompts prompt + 1)) with
         | Some next => Js.Finite (timeOf (fields next))
         | None => Js.Infinity
         end
    else Js.Infinity in
  let relatedActions :=
    filter
      (fun a =>
         let actionTime := timeOf a in
         Js.ltb promptTime actionTime
           && Js.ltb_bound actionTime nextPromptTime)
      sessionEvents in
  if (0 <? length relatedActions)%nat || (length relevantPrompts =? 1)%nat
  then groups
         ++ [Group.mk (Some prompt) relatedActions
                      (Js.orDefault (event_id (fields prompt))
                                    ("group-" ++ Js.showNat (length groups))%string)]
  else groups.

(** The specific-session branch, for the session's (non-empty) events. *)
Definition sessionGroups (prompts : list Obj) (events : list Event)
  : list Group.t :=
  let sessionEvents := sessionEvents events in
  let earliestActionTime := earliestActionTime sessionEvents in
  let relevantPrompts := relevantPrompts prompts earliestActionTime in
  let groups :=
    fold_left (sessionStep relevantPrompts sessionEvents) relevantPrompts [] in
  if (length groups =? 0)%nat && (0 <? length sessionEvents)%nat
  then groups ++ [Group.mk None sessionEvents "session-actions"]
  else groups.

(** [sessions.find(s => s.id === selectedSession)]. *)
Definition findSession (selectedSession : option string)
           (sessions : list Session.t) : option Session.t :=
  find (fun s => Js.strictEq selectedSession (Session.id s)) sessions.

(** The memo [workflowGroups] of [App], as a function of its two
    dependencies. *)
Definition workflowGroups (selectedSession : option string)
           (sessions : list Session.t) : list Group.t :=
  if negb (Js.truthy selectedSession) then []
  else if Js.strictEq selectedSession "no_session"
  then noSessionGroups (prompts sessions) (actions sessions)
  else
    match findSession selectedSession sessions with
    | None => []
    | Some session =>
        match Session.events session with
        | None => []
        | Some [] => []
        | Some events => sessionGroups (prompts sessions) events
        end
    end.

End Correlator.

(** ** The metrics memo of [MetricsDashboard] *)

(** The payload of [/logs/metrics] as the component reads it; [None] is a
    missing field. *)
Module Server.
Record entry : Type := mkEntry {
  name : string;
  count : Z
}.
Record day : Type := mkDay {
  label : string;
  date : string;
  day_count : Z
}.
Record range : Type := mkRange {
  start : option string;
  end_ : option string
}.
Record t : Type := mk {
  total_events : option Z;
  categories : option Js.Counter;
  hourly_activity : option (list Z);
  daily_activity : option (list Z);
  top_files : option (list entry);
  top_commands : option (list entry);
  top_mcp_tools : option (list entry);
  recent_days : option (list day);
  unique_sessions : option Z;
  total_lines_added : option Z;
  total_lines_removed : option Z;
  unique_files_count : option Z;
  date_range : option range
}.
End Server.

(** The object the memo returns. A field is [None] where the object has
    no such property (the early return) or, for a number, where it is
    [NaN]; an element of [dailyActivity] is [None] for [undefined]. *)
Module Metrics.
Record t : Type := mk {
  totalEvents : Z;
  categoryBreakdown : Js.Counter;
  hourlyActivity : list Z;
  maxHourly : option Z;
  dailyActivity : list (option Z);
  dayNames : option (list string);
  maxDaily : option Z;
  topFiles : list (string * Z);
  topCommands : list (string * Z);
  topMcpTools : list (string * Z);
  recentDays : list Server.day;
  maxRecentDaily : option Z;
  uniqueSessions : Z;
  totalLinesAdded : Z;
  totalLinesRemoved : Z;
  uniqueFilesCount : Z;
  dateRange : Server.range;
  avgEventsPerSession : option Z
}.
End Metrics.

(** [x || d] on an array, an object or [undefined]. *)
Definition orElse {A : Type} (x : option A) (d : A) : A :=
  match x with
  | Some v => v
  | None => d
  end.

(** [[serverDaily[6], ...serverDaily.slice(0, 6)]]. *)
Definition rotate (serverDaily : list Z) : list (option Z) :=
  nth_error serverDaily 6 :: map Some (firstn 6 serverDaily).

(** [Math.max(...a, 1)] when an element of [a] may be [undefined]. *)
Definition maxWith1Opt (a : list (option Z)) : option Z :=
  fold_right
    (fun x acc =>
       match x, acc with
       | Some v, Some m => Some (Z.max v m)
       | _, _ => None
       end)
    (Some 1) a.

Definition pairs (l : list Server.entry) : list (string * Z) :=
  map (fun f => (Server.name f, Server.count f)) l.

(** The memo [metrics], a function of [aggregatedMetrics] ([None] for
    [null]). *)
Definition metrics (aggregatedMetrics : option Server.t) : Metrics.t :=
  match aggregatedMetrics with
  | None =>
      Metrics.mk 0 [] (repeat 0 24%nat) None (repeat (Some 0) 7%nat) None None
                 [] [] [] [] None 0 0 0 0 (Server.mkRange None None) None
  | Some m =>
      let hourlyActivity := orElse (Server.hourly_activity m) (repeat 0 24%nat) in
      let serverDaily := orElse (Server.daily_activity m) (repeat 0 7%nat) in
      let dailyActivity := rotate serverDaily in
      let recentDays := orElse (Server.recent_days m) [] in
      Metrics.mk
        (Js.orZero (Server.total_events m))
        (orElse (Server.categories m) [])
        hourlyActivity
        (Some (Js.maxWith1 hourlyActivity))
        dailyActivity
        (Some ["Sun"; "Mon"; "Tue"; "Wed"; "Thu"; "Fri"; "Sat"])
        (maxWith1Opt dailyActivity)
        (pairs (orElse (Server.top_files m) []))
        (pairs (orElse (Server.top_commands m) []))
        (pairs (orElse (Server.top_mcp_tools m) []))
        recentDays
        (Some (Js.maxWith1 (map Server.day_count recentDays)))
        (Js.orZero (Server.unique_sessions m))
        (Js.orZero (Server.total_lines_added m))
        (Js.orZero (Server.total_lines_removed m))
        (Js.orZero (Server.unique_files_count m))
        (orElse (Server.date_range m) (Server.mkRange None None))
        (Some (if 0 <? Js.orZero (Server.unique_sessions m)
               then Js.roundDiv (Js.orZero (Server.total_events m))
                                (Js.orZero (Server.unique_sessions m))
               else 0))
  end.

End AppV2.

(* ================================================================== *)
(** * More JavaScript primitives *)
(* ================================================================== *)

(** Strings are sequences of code units; the string methods below are
    modelled on the code units below 256. *)
Module JsString.

(** The white space [trim] removes, among the code units below 256:
    TAB, LF, VT, FF, CR, SPACE and NBSP. *)
Definition isWhiteSpace (a : ascii) : bool :=
  let n := nat_of_ascii a in
  ((n =? 9) || (n =? 10) || (n =? 11) || (n =? 12) || (n =? 13)
   || (n =? 32) || (n =? 160))%nat.

Fixpoint trimStart (s : string) : string :=
  match s with
  | EmptyString => EmptyString
  | String a r => if isWhiteSpace a then trimStart r else s
  end.

Fixpoint trimEnd (s : string) : string :=
  match s with
  | EmptyString => EmptyString
  | String a r =>
      match trimEnd r with
      | EmptyString => if isWhiteSpace a then EmptyString else String a EmptyString
      | r' => String a r'
      end
  end.

(** [s.trim()]. *)
Definition trim (s : string) : string := trimEnd (trimStart s).

(** [s.lastIndexOf(c)] for a one-character [c]: [-1] when [c] does not
    occur. *)
Fixpoint lastIndexOf (c : ascii) (s : string) : Z :=
  match s with
  | EmptyString => -1
  | String a r =>
      let k := lastIndexOf c r in
      if 0 <=? k then k + 1 else if Ascii.eqb a c then 0 else -1
  end.

(** [s.includes(c)] for a one-character [c]. *)
Fixpoint includes (c : ascii) (s : string) : bool :=
  match s with
  | EmptyString => false
  | String a r => Ascii.eqb a c || includes c r
  end.

(** The line feed. *)
Definition LF : ascii := ascii_of_nat 10.

End JsString.

(** A [Set] of primitive values: its elements in insertion order, each
    once. *)
Module JsSet.
Section Elements.
Context {A : Type}.
Variable eqb : A -> A -> bool.

(** [s.has(x)]. *)
Definition has (x : A) (s : list A) : bool := existsb (eqb x) s.

(** [s.add(x)]: a new element goes last, a present one stays in place. *)
Definition add (x : A) (s : list A) : list A :=
  if has x s then s else s ++ [x].

(** [s.delete(x)]. *)
Definition delete (x : A) (s : list A) : list A :=
  filter (fun y => negb (eqb x y)) s.

(** [new Set(array)]. *)
Definition ofArray (l : list A) : list A :=
  fold_left (fun s x => add x s) l [].
End Elements.
End JsSet.

(* ================================================================== *)
(** * The helpers common to the variants *)
(* ================================================================== *)

(** A log entry as the list, timeline and search views read it: the
    fields of [Event] and those only these views use. *)
Module Entry.

Module Data.
Record t : Type := mk {
  user_prompt : option string;
  file_path : option string;
  edit_count : option nat;
  command_line : option string;
  mcp_tool_name : option string;
  mcp_full_tool : option string;
  total_lines_added : option Z;
  total_lines_removed : option Z
}.
End Data.

Record t : Type := mk {
  event_id : option string;
  id : option string;
  timestamp : option string;
  category : option string;
  type : option string;
  user : option string;
  trajectory_id : option string;
  content : option string;
  action : option string;
  file_path : option string;
  command_line : option string;
  data : option Data.t
}.

(** [entry.data?.f]. *)
Definition dataField {A : Type} (f : Data.t -> option A) (entry : t)
  : option A :=
  match data entry with
  | Some d => f d
  | None => None
  end.

(** The same object as the correlator and the metrics read it. *)
Definition event (entry : t) : Event :=
  mkEvent (event_id entry) (timestamp entry) (category entry) (type entry)
          (trajectory_id entry) (file_path entry) (command_line entry)
          (match data entry with
           | Some d =>
               Some (mkData (Data.file_path d) (Data.command_line d)
                            (Data.mcp_tool_name d) (Data.mcp_full_tool d)
                            (Data.total_lines_added d)
                            (Data.total_lines_removed d))
           | None => None
           end)
          None.

End Entry.

(** A session as [/logs/sessions] returns it. [prompt] is
    [session.categories?.prompt]. *)
Module SessionRow.
Record t : Type := mk {
  id : string;
  events : option (list Entry.t);
  prompt : option Z;
  start_time : option string
}.

(** The same object as the correlator reads it. *)
Definition session (s : t) : Session.t :=
  Session.mk (id s)
             (match events s with
              | Some l => Some (map Entry.event l)
              | None => None
              end).
End SessionRow.

(** The value an entry or a group is expanded under: [event_id], [id] or
    an index. *)
Inductive ident : Type :=
| IdString (s : string)
| IdNumber (n : Z).

Definition ident_eqb (a b : ident) : bool :=
  match a, b with
  | IdString s, IdString t => (s =? t)%string
  | IdNumber n, IdNumber m => n =? m
  | _, _ => false
  end.

Module Key.
(** A [keydown] event with what the handler reads of the document:
    whether the focus is in an [INPUT], and in the search box. *)
Record event : Type := mk {
  key : string;
  ctrlKey : bool;
  metaKey : bool;
  focusInInput : bool;
  focusInSearch : bool
}.
End Key.

Module App.

(** [truncateContent(content, maxLen = 200)]; [maxLen] is [None] when the
    caller leaves it out. *)
Definition truncateContent (content : option string) (maxLen : option nat)
  : string :=
  let maxLen := match maxLen with Some n => n | None => 200%nat end in
  match content with
  | None => ""
  | Some content =>
      if (content =? "")%string then ""
      else if (String.length content <=? maxLen)%nat then content
      else (substring 0 maxLen content ++ "...")%string
  end.

(** [getPromptTitle(promptText, maxLength = 60)]. *)
Definition getPromptTitle (promptText : option string)
           (maxLength : option nat) : string :=
  let maxLength := match maxLength with Some n => n | None => 60%nat end in
  match promptText with
  | None => "User prompt"
  | Some promptText =>
      if (promptText =? "")%string then "User prompt"
      else
        let firstLine :=
          JsString.trim (Js.splitHead JsString.LF promptText) in
        if (String.length firstLine <=? maxLength)%nat then firstLine
        else
          let truncated := substring 0 maxLength firstLine in
          let lastSpace := JsString.lastIndexOf " " truncated in
          let kept :=
            if 20 <? lastSpace
            then substring 0 (Z.to_nat lastSpace) truncated
            else truncated in
          (kept ++ "...")%string
  end.

(** [getEventSummary(entry, truncateContent)]. *)
Definition getEventSummary (entry : Entry.t)
           (truncateContent : option string -> option nat -> string)
  : string :=
  let category :=
    Js.orDefault (Js.or (Entry.category entry) (Entry.type entry)) "unknown" in
  if (category =? "prompt")%string then
    truncateContent
      (Some (Js.orDefault
               (Js.or (Entry.dataField Entry.Data.user_prompt entry) (Entry.content entry))
               "User prompt"))
      (Some 100%nat)
  else if (category =? "file_read")%string then
    ("Read: "
       ++ Js.orDefault
            (Js.or (Entry.dataField Entry.Data.file_path entry) (Entry.file_path entry))
            "unknown file")%string
  else if (category =? "file_write")%string then
    ("Modified: "
       ++ Js.orDefault
            (Js.or (Entry.dataField Entry.Data.file_path entry) (Entry.file_path entry))
            "unknown file"
       ++ " ("
       ++ Js.showNat (match Entry.dataField Entry.Data.edit_count entry with
                      | Some n => n
                      | None => 0%nat
                      end)
       ++ " edits)")%string
  else if (category =? "command")%string then
    ("$ "
       ++ truncateContent
            (Some (Js.orDefault
                     (Js.or (Entry.dataField Entry.Data.command_line entry)
                            (Entry.command_line entry))
                     "command"))
            (Some 80%nat))%string
  else if (category =? "mcp")%string then
    ("MCP: "
       ++ Js.orDefault
            (Js.or (Entry.dataField Entry.Data.mcp_full_tool entry)
                   (Entry.dataField Entry.Data.mcp_tool_name entry))
            "tool")%string
  else if (category =? "response")%string then
    truncateContent (Some (Js.orDefault (Entry.content entry) "Response"))
                    (Some 100%nat)
  else
    truncateContent
      (Some (Js.orDefault (Js.or (Entry.content entry) (Entry.action entry))
                          "Event"))
      (Some 100%nat).

(** [toggleEntry] and [toggleWorkflowGroup]: the updater of the set of
    expanded ids. *)
Definition toggleEntry (id : ident) (prev : list ident) : list ident :=
  let next := JsSet.ofArray ident_eqb prev in
  if JsSet.has ident_eqb id next
  then JsSet.delete ident_eqb id next
  else JsSet.add ident_eqb id next.

Definition toggleWorkflowGroup (id : ident) (prev : list ident) : list ident :=
  let next := JsSet.ofArray ident_eqb prev in
  if JsSet.has ident_eqb id next
  then JsSet.delete ident_eqb id next
  else JsSet.add ident_eqb id next.

(** [toggleFileSelection]: the updater of [selectedFiles]. *)
Definition toggleFileSelection (filepath : string) (prev : list string)
  : list string :=
  if existsb (String.eqb filepath) prev
  then filter (fun f => negb (f =? filepath)%string) prev
  else prev ++ [filepath].

(** The part of the state the [keydown] handler reads and sets. *)
Record state : Type := mkState {
  showFilePicker : bool;
  showAdvancedSearch : bool;
  selectedEntryIndex : Z;
  expandedEntries : list ident
}.

(** [entry.event_id || entry.id || selectedEntryIndex]. *)
Definition entryIdent (entry : Entry.t) (selectedEntryIndex : Z) : ident :=
  match Js.or (Entry.event_id entry) (Entry.id entry) with
  | Some s => if (s =? "")%string then IdNumber selectedEntryIndex
              else IdString s
  | None => IdNumber selectedEntryIndex
  end.

(** [handleKeyDown]: the state after the event. The handler tests
    the flags of the render it was installed in and applies its updaters
    in order; moving the focus is left out. *)
Definition handleKeyDown (logs : list Entry.t) (st : state) (e : Key.event)
  : state :=
  let len := Z.of_nat (length logs) in
  let picker :=
    if (Key.key e =? "Escape")%string && showFilePicker st
    then false else showFilePicker st in
  let advanced :=
    if (Key.key e =? "Escape")%string && negb (showFilePicker st)
       && showAdvancedSearch st
    then false else showAdvancedSearch st in
  let advanced :=
    if (Key.ctrlKey e || Key.metaKey e) && (Key.key e =? "k")%string
    then negb advanced else advanced in
  let index := selectedEntryIndex st in
  let index :=
    if (Key.key e =? "ArrowDown")%string && (0 <? len)
    then Z.min (index + 1) (len - 1) else index in
  let index :=
    if (Key.key e =? "ArrowUp")%string && (0 <? len)
    then Z.max (index - 1) 0 else index in
  let expanded :=
    if (Key.key e =? "Enter")%string && (0 <=? selectedEntryIndex st)
       && negb (Key.focusInInput e)
    then match nth_error logs (Z.to_nat (selectedEntryIndex st)) with
         | Some entry =>
             toggleEntry (entryIdent entry (selectedEntryIndex st))
                         (expandedEntries st)
         | None => expandedEntries st
         end
    else expandedEntries st in
  mkState picker advanced index expanded.

(** The effect that selects a session when the workflow view opens: the
    value of [selectedSession] after it. *)
Definition autoSelect (viewMode : string) (selectedSession : option string)
           (sessions : list SessionRow.t) : option string :=
  if (viewMode =? "workflow")%string && negb (Js.truthy selectedSession)
     && (0 <? length sessions)%nat
  then
    let hasPrompts (s : SessionRow.t) :=
      match SessionRow.prompt s with Some n => 0 <? n | None => false end in
    let noSession :=
      find (fun s => (SessionRow.id s =? "no_session")%string && hasPrompts s)
           sessions in
    let sessionWithPrompts := find hasPrompts sessions in
    match noSession, sessionWithPrompts with
    | Some s, _ => Some (SessionRow.id s)
    | None, Some s => Some (SessionRow.id s)
    | None, None => selectedSession
    end
  else selectedSession.

(** The comparator of the session selector:
    [(b.categories?.prompt || 0) - (a.categories?.prompt || 0)]. *)
Definition byPromptsDesc (a b : SessionRow.t) : Z :=
  Js.orZero (SessionRow.prompt b) - Js.orZero (SessionRow.prompt a).

(** The sessions the selector lists: [sessions.sort(...).slice(0, 20)]. *)
Definition sessionSelector (sessions : list SessionRow.t)
  : list SessionRow.t :=
  firstn 20 (Js.sort byPromptsDesc sessions).

(** [fetchSessions]: the sets [users] and [sessionIds] it fills from the
    sessions of the response, as the arrays [allUsers] and
    [allSessions]. *)
Definition allSessions (sessions : list SessionRow.t) : list string :=
  fold_left
    (fun sessionIds session =>
       if negb (SessionRow.id session =? "")%string
          && negb (SessionRow.id session =? "no_session")%string
       then Js.setAdd (SessionRow.id session) sessionIds
       else sessionIds)
    sessions [].

Definition allUsers (sessions : list SessionRow.t) : list string :=
  fold_left
    (fun users session =>
       fold_left
         (fun users event =>
            if Js.truthy (Entry.user event)
            then Js.setAdd (Js.orDefault (Entry.user event) "") users
            else users)
         (match SessionRow.events session with Some l => l | None => [] end)
         users)
    sessions [].

(** [[...new Set(logs.map(f).filter(Boolean))]]. *)
Definition distinctTruthy (f : Entry.t -> option string) (logs : list Entry.t)
  : list string :=
  JsSet.ofArray String.eqb
    (map (fun x => Js.orDefault x "")
         (filter Js.truthy (map f logs))).

(** The options of the user and session filters. *)
Definition uniqueUsers (allUsers : list string) (logs : list Entry.t)
  : list string :=
  if (0 <? length allUsers)%nat then allUsers
  else distinctTruthy Entry.user logs.

Definition uniqueSessions (allSessions : list string) (logs : list Entry.t)
  : list string :=
  if (0 <? length allSessions)%nat then allSessions
  else distinctTruthy Entry.trajectory_id logs.

(** [goUp] of the directory picker: the path it browses next,
    [path.split('/').slice(0, -1).join('/') || '/']. *)
Definition goUp (path : string) : string :=
  let parent := String.concat "/" (removelast (Js.split "/" path)) in
  if (parent =? "")%string then "/" else parent.




(** [WorkflowView]: the number under "Prompts",
    [workflowGroups.filter(g => g.prompt).length]. *)
Definition promptsShown (workflowGroups : list Group.t) : nat :=
  length
    (filter (fun g => match Group.prompt g with Some _ => true | None => false end)
            workflowGroups).

End App.

(* ================================================================== *)
(** * The variant with client-side filters *)
(* ================================================================== *)

(** [dashboard/frontend/src/App.jsx] filters the loaded logs itself. *)
Module AppV0.

(** [filteredLogs]. *)
Definition filteredLogs (filterCategory filterUser filterSession : string)
           (logs : list Entry.t) : list Entry.t :=
  filter
    (fun entry =>
       let category :=
         Js.orDefault (Js.or (Entry.category entry) (Entry.type entry))
                      "unknown" in
       if negb (filterCategory =? "all")%string
          && negb (category =? filterCategory)%string
       then false
       else if negb (filterUser =? "all")%string
               && negb (Js.strictEq (Entry.user entry) filterUser)
       then false
       else if negb (filterSession =? "all")%string
               && negb (Js.strictEq (Entry.trajectory_id entry) filterSession)
       then false
       else true)
    logs.

(** The options of the user and session filters. *)
Definition uniqueUsers (logs : list Entry.t) : list string :=
  App.distinctTruthy Entry.user logs.

Definition uniqueSessions (logs : list Entry.t) : list string :=
  App.distinctTruthy Entry.trajectory_id logs.

End AppV0.

(** ** [WorkflowGroup]: what the card of a group derives from the group *)

Module WorkflowGroup.

(** [group.actions.filter(a => (a.category || a.type) === c)]. *)
Definition badge (c : string) (actions : list Entry.t) : list Entry.t :=
  filter (fun a => Js.strictEq (Js.or (Entry.category a) (Entry.type a)) c)
         actions.

Definition fileWrites : list Entry.t -> list Entry.t := badge "file_write".
Definition commands : list Entry.t -> list Entry.t := badge "command".
Definition fileReads : list Entry.t -> list Entry.t := badge "file_read".
Definition mcpCalls : list Entry.t -> list Entry.t := badge "mcp".

(** [promptData.user_prompt || group.prompt?.content || ''], with
    [promptData = group.prompt?.data || {}]. *)
Definition promptText (prompt : option Entry.t) : string :=
  match prompt with
  | Some p =>
      Js.orDefault
        (Js.or (Entry.dataField Entry.Data.user_prompt p) (Entry.content p))
        ""
  | None => ""
  end.

(** [group.prompt ? getPromptTitle(promptText) : 'Pre-session actions']. *)
Definition promptTitle (prompt : option Entry.t) : string :=
  match prompt with
  | Some _ => App.getPromptTitle (Some (promptText prompt)) None
  | None => "Pre-session actions"
  end.

(** [promptText.includes('\n') || promptText.length > 60]. *)
Definition isMultiLine (prompt : option Entry.t) : bool :=
  JsString.includes JsString.LF (promptText prompt)
    || (60 <? String.length (promptText prompt))%nat.

End WorkflowGroup.

(* ================================================================== *)
(** * Vocabulary of the statements *)
(* ================================================================== *)

(** The event set behind [sessions]: every session's events, each with
    the id of its session, in the order the correlator reads them. *)
Definition corpus (sessions : list Session.t) : list Event :=
  flat_map
    (fun s => map (fun e => AppV1.spread e (Session.id s)) (AppV1.eventsOf s))
    sessions.

(** The time of an event is a number: its timestamp is a date, or is
    missing and read as time 0. *)
Definition parsed (getTime : string -> Js.time) (e : Event) : Prop :=
  AppV1.timeOf getTime e <> Js.NaN.

(** A time lies in the window that opens after [p] and closes before
    [next]. *)
Definition inWindow (p : Js.time) (next : Js.bound) (t : Js.time) : bool :=
  Js.ltb p t && Js.ltb_bound t next.

Definition nextOf (rest : list Js.time) : Js.bound :=
  match rest with
  | q :: _ => Js.Finite q
  | [] => Js.Infinity
  end.

(** Two results of [getTime()] are the same value. *)
Definition sameTime (a b : Js.time) : bool :=
  match a, b with
  | Js.Time x, Js.Time y => x =? y
  | Js.NaN, Js.NaN => true
  | _, _ => false
  end.

(** A time is covered by a list of prompt times when some prompt is
    strictly earlier and no prompt is at that very time. *)
Definition coveredb (promptTimes : list Js.time) (t : Js.time) : bool :=
  existsb (fun p => Js.ltb p t) promptTimes
    && forallb (fun p => negb (sameTime p t)) promptTimes.

(** The groups of the ['no_session'] branch by recursion on the prompts:
    the window of a prompt closes at the prompt that follows it. *)
Fixpoint windows (getTime : string -> Js.time) (i : nat) (ps acts : list Obj)
  : list Group.t :=
  match ps with
  | [] => []
  | p :: rest =>
      Group.mk (Some p)
        (map fields
           (filter
              (fun a =>
                 inWindow (AppV1.timeOf getTime (fields p))
                          (nextOf (map (fun q => AppV1.timeOf getTime (fields q)) rest))
                          (AppV1.timeOf getTime (fields a)))
              acts))
        (Js.orDefault (event_id (fields p)) ("group-" ++ Js.showNat i)%string)
      :: windows getTime (S i) rest acts
  end.

(** The session events a relevant prompt captures: the ones in the window
    that opens after the prompt at position [i] and closes before the
    relevant prompt at position [i + 1]. *)
Definition relatedAt (getTime : string -> Js.time)
           (relevantPrompts : list Obj)
           (sessionEvents : list Event) (i : nat) (p : Obj) : list Event :=
  filter
    (fun a =>
       inWindow (AppV1.timeOf getTime (fields p))
                (match nth_error relevantPrompts (S i) with
                 | Some q => Js.Finite (AppV1.timeOf getTime (fields q))
                 | None => Js.Infinity
                 end)
                (AppV1.timeOf getTime a))
    sessionEvents.

(** The test that keeps a relevant prompt as a group. *)
Definition kept (getTime : string -> Js.time) (relevantPrompts : list Obj)
           (sessionEvents : list Event) (i : nat) (p : Obj) : bool :=
  (0 <? length (relatedAt getTime relevantPrompts sessionEvents i p))%nat
    || (length relevantPrompts =? 1)%nat.

(** What a group shows: its prompt and its actions. *)
Definition summary (g : Group.t) : option Obj * list Event :=
  (Group.prompt g, Group.actions g).

(** The groups the loop over the relevant prompts pushes, from position
    [i] on. *)
Fixpoint keptFrom (getTime : string -> Js.time) (relevantPrompts : list Obj)
         (sessionEvents : list Event) (i : nat) (suffix : list Obj)
  : list (option Obj * list Event) :=
  match suffix with
  | [] => []
  | p :: rest =>
      (if kept getTime relevantPrompts sessionEvents i p
       then [(Some p, relatedAt getTime relevantPrompts sessionEvents i p)]
       else [])
        ++ keptFrom getTime relevantPrompts sessionEvents (S i) rest
  end.

(** Equality of an optional string or number is decidable. *)
Definition option_eq_dec_string (a b : option string) : {a = b} + {a <> b}.
Proof. decide equality. apply string_dec. Defined.

Definition option_eq_dec_Z (a b : option Z) : {a = b} + {a <> b}.
Proof. decide equality. apply Z.eq_dec. Defined.

(** Equality of log entries is decidable. *)
Definition Data_eq_dec (a b : Data) : {a = b} + {a <> b}.
Proof.
  decide equality;
    try (apply option_eq_dec_Z); try (apply option_eq_dec_string).
Defined.

Definition Event_eq_dec (a b : Event) : {a = b} + {a <> b}.
Proof.
  decide equality; try (apply option_eq_dec_string).
  decide equality. apply Data_eq_dec.
Defined.

(** A time is covered by the prompts: some prompt is strictly earlier and
    no prompt is at that very time. *)
Definition covered (promptTimes : list Js.time) (t : Js.time) : Prop :=
  (exists p, In p promptTimes /\ Js.lt p t)
  /\ (forall p, In p promptTimes -> p <> t).

(** ** The two variants *)

(** The dashboard exists in two variants, each with its own correlator. *)
Inductive variant : Type :=
| FirstVariant
| SecondVariant.

Definition workflowGroupsOf (v : variant)
  : (string -> Js.time) -> option string -> list Session.t -> list Group.t :=
  match v with
  | FirstVariant => AppV1.workflowGroups
  | SecondVariant => AppV2.workflowGroups
  end.

(** ** The claims as the specification words them *)

(** Total coverage without duplication: when the corpus has a prompt,
    every non-prompt event is in one group and in no other. *)
Definition every_action_in_exactly_one_group (getTime : string -> Js.time)
           (sessions : list Session.t) : Prop :=
  let groups := AppV1.workflowGroups getTime (Some "no_session") sessions in
  (exists p, In p (corpus sessions) /\ AppV1.isPrompt p = true) ->
  forall a, In a (corpus sessions) -> AppV1.isPrompt a = false ->
    exists i g,
      nth_error groups i = Some g /\ In a (Group.actions g)
      /\ (forall j g', nth_error groups j = Some g' ->
                       In a (Group.actions g') -> j = i).




(** The events of the selected session. *)
Definition selectedEvents (selectedSession : option string)
           (sessions : list Session.t) : list Event :=
  match AppV1.findSession selectedSession sessions with
  | Some session => AppV1.eventsOf session
  | None => []
  end.




(** ** Example inputs *)

Module Examples.

Definition entry (ts cat : string) : Event :=
  mkEvent None (Some ts) (Some cat) None None None None None None.

(** Example 1 of the specification. *)
Definition example1 : list Session.t :=
  [ Session.mk "no_session"
      (Some [ entry "2024-01-15T10:00:00.000Z" "prompt";
              entry "2024-01-15T10:05:00.000Z" "prompt" ]);
    Session.mk "A"
      (Some [ entry "2024-01-15T10:01:00.000Z" "file_write";
              entry "2024-01-15T10:06:00.000Z" "command" ]) ].


(** An action logged five minutes before the only prompt. *)
Definition earlyAction : list Session.t :=
  [ Session.mk "no_session"
      (Some [ entry "2024-01-15T10:05:00.000Z" "prompt" ]);
    Session.mk "A"
      (Some [ entry "2024-01-15T10:00:00.000Z" "file_write" ]) ].


(** Example 2 of the specification: session [A] starts at 10:10; prompts
    at 09:50 (20 minutes before), 10:05 (exactly 5 minutes before) and
    10:06 (4 minutes before). *)
Definition example2 : list Session.t :=
  [ Session.mk "no_session"
      (Some [ entry "2024-01-15T09:50:00.000Z" "prompt";
              entry "2024-01-15T10:05:00.000Z" "prompt";
              entry "2024-01-15T10:06:00.000Z" "prompt" ]);
    Session.mk "A"
      (Some [ entry "2024-01-15T10:10:00.000Z" "file_write";
              entry "2024-01-15T10:12:00.000Z" "command" ]) ].




(** A prompt whose timestamp is not a date, after the prompt of 10:00
    and before an action of 10:01. *)
Definition unparsablePrompt : list Session.t :=
  [ Session.mk "no_session"
      (Some [ entry "2024-01-15T10:00:00.000Z" "prompt";
              entry "not-a-date" "prompt" ]);
    Session.mk "A"
      (Some [ entry "2024-01-15T10:01:00.000Z" "file_write" ]) ].


End Examples.

Module ExampleGroups.



End ExampleGroups.

(** ** The claims about the metrics as the specification words them *)

(** All counts of a snapshot are zero, the distinct-session count
    included. *)
Definition all_counts_zero (m : AppV1.Metrics.t) : Prop :=
  AppV1.Metrics.totalEvents m = 0
  /\ AppV1.Metrics.categoryBreakdown m = []
  /\ Forall (eq 0) (AppV1.Metrics.hourlyActivity m)
  /\ Forall (eq 0) (AppV1.Metrics.dailyActivity m)
  /\ AppV1.Metrics.topFiles m = []
  /\ AppV1.Metrics.topCommands m = []
  /\ AppV1.Metrics.topMcpTools m = []
  /\ AppV1.Metrics.totalLinesAdded m = 0
  /\ AppV1.Metrics.totalLinesRemoved m = 0
  /\ Forall (fun d => AppV1.Recent.count d = 0) (AppV1.Metrics.recentDays m)
  /\ AppV1.Metrics.uniqueFilesCount m = 0
  /\ AppV1.Metrics.filteredSessionCount m = 0.


Module MetricsExamples.

(** A file write. *)
Definition write (ts path : string) : Event :=
  mkEvent None (Some ts) (Some "file_write") None None None None
          (Some (mkData (Some path) None None None None None)) None.

(** 2024-01-15T10:00:00Z, a Monday, and the same time eight days later. *)
Definition monday : Z := 1705312800000.

Definition mondayLog : list Event :=
  [write "2024-01-15T09:30:00.000Z" "/srv/app/main.py"].

(** Example 4 of the specification. *)
Definition example4 : list Event :=
  [ write "2024-01-15T09:30:00.000Z" "/srv/app/a.py";
    write "2024-01-15T09:31:00.000Z" "/srv/app/b.py";
    write "2024-01-15T09:32:00.000Z" "/srv/lib/a.py" ].


End MetricsExamples.

(** The number of logs with a timestamp that [f] sends to bucket [d]. *)
Definition inBucket (f : string -> nat) (d : nat) (logs : list Event) : Z :=
  Z.of_nat
    (length
       (filter
          (fun l =>
             Js.truthy (timestamp l)
               && (f (Js.orDefault (timestamp l) "") =? d)%nat)
          logs)).

(** Modelled from the spec: the day-of-week histogram in its computed
    form, which the server of the second variant produces (the backend is
    not among the sources): 7 buckets, 0 = Monday .. 6 = Sunday. *)
Definition mondayFirst (getTime : string -> Z) (LocalTZA : Z -> Z)
           (logs : list Event) : list Z :=
  AppV1.histogram 7
    (fun s => ((AppV1.getDay getTime LocalTZA s + 6) mod 7)%nat) logs.

(** The histogram of a snapshot is in the computed form of the
    specification. *)
Definition histogram_is_monday_first (getTime : string -> Z)
           (LocalTZA : Z -> Z) (now : Z) (logs : list Event) : Prop :=
  AppV1.Metrics.dailyActivity (AppV1.metrics getTime LocalTZA now logs)
  = mondayFirst getTime LocalTZA logs.

(** ** First-seen order *)

(** The distinct names of a list in the order of their first
    occurrence. *)
Definition addNew (seen : list string) (n : string) : list string :=
  if existsb (String.eqb n) seen then seen else seen ++ [n].

Definition firstSeen (names : list string) : list string :=
  fold_left addNew names [].

Definition occurrences (names : list string) (n : string) : Z :=
  Z.of_nat (count_occ string_dec names n).

(** The base names of the files the logs write, one per [file_write]
    entry, in log order. *)
Definition writtenFiles (logs : list Event) : list string :=
  map AppV1.fileName (filter (AppV1.hasCategory "file_write") logs).


(** ** Vocabulary of the further statements *)

(** [maxLen = 200] and [maxLength = 60]: the value of a parameter with a
    default. *)
Definition orDefaultNat (n : option nat) (d : nat) : nat :=
  match n with
  | Some k => k
  | None => d
  end.

(** The sum of an array of counts. *)
Definition total (a : list Z) : Z := fold_right Z.add 0 a.

(** The prompt count the session selector compares:
    [session.categories?.prompt || 0]. *)
Definition promptCount (s : SessionRow.t) : Z :=
  Js.orZero (SessionRow.prompt s).

(** The category a view files an entry under:
    [entry.category || entry.type || 'unknown']. *)
Definition categoryOf (entry : Entry.t) : string :=
  Js.orDefault (Js.or (Entry.category entry) (Entry.type entry)) "unknown".

(** The selection index is [-1] (nothing selected) or an index of the
    list. *)
Definition selectionInRange (logs : list Entry.t) (st : App.state) : Prop :=
  -1 <= App.selectedEntryIndex st <= Z.of_nat (length logs) - 1.

(** An entry with no field set, and one with a category. *)
Definition blankEntry : Entry.t :=
  Entry.mk None None None None None None None None None None None None.

Definition entryOf (cat : string) : Entry.t :=
  Entry.mk None None None (Some cat) None None None None None None None None.

(** [u] is the user of an event of the session. *)
Definition userOf (session : SessionRow.t) (u : string) : Prop :=
  exists evs e, SessionRow.events session = Some evs /\ In e evs
                /\ Entry.user e = Some u.

Module KeyExamples.
Definition logEntry : Entry.t := blankEntry.
Definition arrowDown : Key.event := Key.mk "ArrowDown" false false false false.
Definition escape : Key.event := Key.mk "Escape" false false false false.
End KeyExamples.

(** The key an event is counted under in the category breakdown:
    [log.category || log.type || 'unknown']. *)
Definition categoryKey (log : Event) : string :=
  Js.orDefault (Js.or (category log) (type log)) "unknown".

(** The number of events with a timestamp. *)
Definition dated (logs : list Event) : Z :=
  Z.of_nat (length (filter (fun l => Js.truthy (timestamp l)) logs)).

(** The names counted by the rankings of commands and of tools. *)
Definition commandNames (logs : list Event) : list string :=
  map AppV1.cmdName (filter (AppV1.hasCategory "command") logs).

Definition toolNames (logs : list Event) : list string :=
  map AppV1.toolName (filter (AppV1.hasCategory "mcp") logs).

(** Every name is an ordinary key of a counting object: none is
    inherited from [Object.prototype]. *)
Definition ordinaryKeys (names : list string) : Prop :=
  Forall (fun n => Js.ordinaryKey n = true) names.

(* ================================================================== *)
(** * Facts about the JavaScript primitives *)
(* ================================================================== *)

Section SortFacts.
Context {A : Type}.
Variable key : A -> Z.
Variable cmp : A -> A -> Z.
Hypothesis cmp_key : forall a b, (cmp a b <=? 0) = (key a <=? key b).

Let le (a b : A) : Prop := key a <= key b.

Lemma insert_perm (x : A) (l : list A) :
  Permutation (Js.insert cmp x l) (x :: l).
Proof.
  induction l as [|y ys IH]; simpl.
  - apply Permutation_refl.
  - destruct (cmp x y <=? 0).
    + apply Permutation_refl.
    + eapply perm_trans; [apply perm_skip, IH | apply perm_swap].
Qed.

Lemma sort_perm (l : list A) : Permutation (Js.sort cmp l) l.
Proof.
  induction l as [|x xs IH]; simpl.
  - apply perm_nil.
  - eapply perm_trans; [apply insert_perm | apply perm_skip, IH].
Qed.

Lemma sort_In (l : list A) (x : A) : In x (Js.sort cmp l) <-> In x l.
Proof.
  split; apply Permutation_in;
    [apply sort_perm | apply Permutation_sym, sort_perm].
Qed.

Lemma sort_length (l : list A) : length (Js.sort cmp l) = length l.
Proof. apply Permutation_length, sort_perm. Qed.

Lemma insert_sorted (x : A) (l : list A) :
  StronglySorted le l -> StronglySorted le (Js.insert cmp x l).
Proof.
  induction 1 as [|y ys Hs IH Hall]; simpl.
  - constructor; constructor.
  - rewrite cmp_key. destruct (Z.leb_spec (key x) (key y)) as [Hxy|Hxy].
    + constructor; [constructor; assumption|].
      constructor; [exact Hxy|].
      rewrite Forall_forall in Hall |- *. intros z Hz.
      specialize (Hall z Hz). unfold le in *. lia.
    + constructor; [exact IH|].
      rewrite Forall_forall in Hall |- *. intros z Hz.
      apply (Permutation_in _ (insert_perm x ys)) in Hz.
      destruct Hz as [<-|Hz]; [unfold le; lia | auto].
Qed.

Lemma sort_sorted (l : list A) : StronglySorted le (Js.sort cmp l).
Proof.
  induction l as [|x xs IH]; simpl; [constructor | apply insert_sorted, IH].
Qed.

(** Stability: the elements of one key keep their order. *)
Lemma insert_stable (k : Z) (x : A) (l : list A) :
  filter (fun a => key a =? k) (Js.insert cmp x l)
  = filter (fun a => key a =? k) (x :: l).
Proof.
  induction l as [|y ys IH]; [reflexivity|].
  simpl Js.insert. rewrite cmp_key.
  destruct (Z.leb_spec (key x) (key y)) as [Hxy|Hxy]; [reflexivity|].
  simpl in *. rewrite IH.
  destruct (Z.eqb_spec (key x) k), (Z.eqb_spec (key y) k);
    try reflexivity; lia.
Qed.

Lemma sort_stable (k : Z) (l : list A) :
  filter (fun a => key a =? k) (Js.sort cmp l)
  = filter (fun a => key a =? k) l.
Proof.
  induction l as [|x xs IH]; [reflexivity|].
  simpl Js.sort. rewrite insert_stable. simpl. rewrite IH. reflexivity.
Qed.

(** The first element of a sorted array is a minimum. *)
Lemma sort_head_min (l : list A) (x : A) (rest : list A) :
  Js.sort cmp l = x :: rest -> forall y, In y l -> key x <= key y.
Proof.
  intros E y Hy. apply sort_In in Hy. pose proof (sort_sorted l) as Hs.
  rewrite E in Hs, Hy. inversion Hs as [|? ? _ Hall]; subst.
  destruct Hy as [<-|Hy]; [lia|].
  rewrite Forall_forall in Hall. apply Hall, Hy.
Qed.

End SortFacts.

(** A comparator that orders the elements of a list orders the list,
    whatever it returns on other elements. *)
Section SortOn.
Context {A : Type}.
Variable R : A -> A -> Prop.
Variable P : A -> Prop.
Variable cmp : A -> A -> Z.
Hypothesis R_trans : forall a b c, R a b -> R b c -> R a c.
Hypothesis cmp_le : forall a b, P a -> P b -> cmp a b <= 0 -> R a b.
Hypothesis cmp_gt : forall a b, P a -> P b -> 0 < cmp a b -> R b a.

Lemma insert_sorted_on (x : A) (l : list A) :
  P x -> Forall P l -> StronglySorted R l ->
  StronglySorted R (Js.insert cmp x l).
Proof.
  intros Hx Hl Hs. induction Hs as [|y ys Hs IH Hall]; simpl.
  - constructor; constructor.
  - inversion Hl as [|? ? Hy Hys]; subst.
    destruct (Z.leb_spec (cmp x y) 0) as [Hxy|Hxy].
    + constructor; [constructor; assumption|].
      pose proof (cmp_le x y Hx Hy Hxy) as Rxy.
      constructor; [exact Rxy|].
      rewrite Forall_forall in Hall |- *. intros z Hz.
      apply (R_trans x y z Rxy), Hall, Hz.
    + constructor; [apply IH, Hys|].
      pose proof (cmp_gt x y Hx Hy Hxy) as Ryx.
      rewrite Forall_forall in Hall |- *. intros z Hz.
      apply (Permutation_in _ (insert_perm cmp x ys)) in Hz.
      destruct Hz as [<-|Hz]; [exact Ryx | apply Hall, Hz].
Qed.

Lemma sort_sorted_on (l : list A) :
  Forall P l -> StronglySorted R (Js.sort cmp l).
Proof.
  induction l as [|x xs IH]; intros Hl; simpl; [constructor|].
  inversion Hl as [|? ? Hx Hxs]; subst.
  apply insert_sorted_on; [exact Hx | | apply IH, Hxs].
  rewrite Forall_forall in Hxs |- *. intros z Hz.
  apply Hxs. apply (sort_In cmp). exact Hz.
Qed.

End SortOn.

(** ** Comparisons of times *)


Lemma le_trans (a b c : Js.time) : Js.le a b -> Js.le b c -> Js.le a c.
Proof. destruct a, b, c; cbn [Js.le]; try tauto; lia. Qed.

Lemma le_refl (a : Js.time) : a <> Js.NaN -> Js.le a a.
Proof. destruct a; cbn [Js.le]; [lia | congruence]. Qed.

Lemma lt_le_trans (a b c : Js.time) : Js.lt a b -> Js.le b c -> Js.lt a c.
Proof.
  unfold Js.lt. destruct a, b, c; cbn [Js.le Js.ltb]; try tauto;
    try discriminate. rewrite !Z.ltb_lt. lia.
Qed.

Lemma le_lt_trans (a b c : Js.time) : Js.le a b -> Js.lt b c -> Js.lt a c.
Proof.
  unfold Js.lt. destruct a, b, c; cbn [Js.le Js.ltb]; try tauto;
    try discriminate. rewrite !Z.ltb_lt. lia.
Qed.

Lemma lt_trans (a b c : Js.time) : Js.lt a b -> Js.lt b c -> Js.lt a c.
Proof.
  unfold Js.lt. destruct a, b, c; cbn [Js.ltb]; try discriminate.
  rewrite !Z.ltb_lt. lia.
Qed.

Lemma lt_not_le (a b : Js.time) : Js.lt a b -> Js.le b a -> False.
Proof.
  unfold Js.lt. destruct a, b; cbn [Js.le Js.ltb]; try discriminate.
  rewrite Z.ltb_lt. lia.
Qed.

Lemma lt_le (a b : Js.time) : Js.lt a b -> Js.le a b.
Proof.
  unfold Js.lt. destruct a, b; cbn [Js.le Js.ltb]; try discriminate.
  rewrite Z.ltb_lt. lia.
Qed.

Lemma lt_ne (a b : Js.time) : Js.lt a b -> a <> b.
Proof.
  unfold Js.lt. destruct a, b; cbn [Js.ltb]; try discriminate.
  rewrite Z.ltb_lt. intros H E. injection E as E. lia.
Qed.

Lemma sameTime_eq (a b : Js.time) : sameTime a b = true <-> a = b.
Proof.
  destruct a as [x|], b as [y|]; cbn [sameTime]; split;
    try discriminate; try reflexivity.
  - intros H. apply Z.eqb_eq in H. congruence.
  - intros H. injection H as ->. apply Z.eqb_refl.
Qed.

(** The comparator orders the events whose timestamps are dates. *)
Lemma sortCompare_le (a b : Js.time) :
  a <> Js.NaN -> b <> Js.NaN ->
  Js.sortCompare (Js.sub a b) <= 0 -> Js.le a b.
Proof.
  destruct a, b; cbn [Js.sub Js.sortCompare Js.le]; try congruence. lia.
Qed.

Lemma sortCompare_gt (a b : Js.time) :
  a <> Js.NaN -> b <> Js.NaN ->
  0 < Js.sortCompare (Js.sub a b) -> Js.le b a.
Proof.
  destruct a, b; cbn [Js.sub Js.sortCompare Js.le]; try congruence. lia.
Qed.

Lemma filter_sorted {A : Type} (R : A -> A -> Prop) (f : A -> bool) (l : list A) :
  StronglySorted R l -> StronglySorted R (filter f l).
Proof.
  induction 1 as [|x xs Hs IH Hall]; simpl; [constructor|].
  destruct (f x); [|exact IH].
  constructor; [exact IH|].
  rewrite Forall_forall in Hall |- *. intros y Hy.
  apply filter_In in Hy. apply Hall, Hy.
Qed.

Lemma map_sorted {A B : Type} (g : A -> B) (R : B -> B -> Prop) (l : list A) :
  StronglySorted (fun a b => R (g a) (g b)) l -> StronglySorted R (map g l).
Proof.
  induction 1 as [|x xs Hs IH Hall]; simpl; constructor; [exact IH|].
  rewrite Forall_forall in Hall |- *. intros y Hy.
  apply in_map_iff in Hy. destruct Hy as [z [<- Hz]]. apply Hall, Hz.
Qed.

Lemma filter_map_comm {A B : Type} (g : A -> B) (f : B -> bool) (l : list A) :
  filter f (map g l) = map g (filter (fun a => f (g a)) l).
Proof.
  induction l as [|x xs IH]; simpl; [reflexivity|].
  destruct (f (g x)); simpl; rewrite IH; reflexivity.
Qed.

Lemma NoDup_map_filter {A B : Type} (g : A -> B) (f : A -> bool) (l : list A) :
  NoDup (map g l) -> NoDup (map g (filter f l)).
Proof.
  induction l as [|x xs IH]; simpl; intros H; [constructor|].
  inversion H as [|? ? Hnin Hnd]; subst.
  destruct (f x); simpl; [|apply IH, Hnd].
  constructor; [|apply IH, Hnd].
  intros Hin. apply Hnin. apply in_map_iff in Hin.
  destruct Hin as [y [E Hy]]. apply filter_In in Hy.
  apply in_map_iff. exists y. tauto.
Qed.

(* ================================================================== *)
(** * The correlator *)
(* ================================================================== *)

Section CorrelatorFacts.

Variable getTime : string -> Js.time.

Let timeOf (e : Event) : Js.time := AppV1.timeOf getTime e.
Let otime (o : Obj) : Js.time := AppV1.timeOf getTime (fields o).
Let ole (a b : Obj) : Prop := Js.le (otime a) (otime b).

(** ** The working array *)

Lemma gather_inner (sid : string) (evs : list Event) (acc : list Obj) :
  let r :=
    fold_left
      (fun allEvents event =>
         allEvents ++ [mkObj (length allEvents) (AppV1.spread event sid)])
      evs acc in
  map fields r = map fields acc ++ map (fun e => AppV1.spread e sid) evs
  /\ map addr r = map addr acc ++ seq (length acc) (length evs).
Proof.
  revert acc. induction evs as [|e evs IH]; intros acc; simpl.
  - rewrite !app_nil_r. split; reflexivity.
  - destruct (IH (acc ++ [mkObj (length acc) (AppV1.spread e sid)])) as [Hf Ha].
    split.
    + rewrite Hf, map_app, <- app_assoc. reflexivity.
    + rewrite Ha, map_app, <- app_assoc, length_app. simpl.
      rewrite Nat.add_1_r. reflexivity.
Qed.

Lemma gather_outer (sessions : list Session.t) (acc : list Obj) :
  let r :=
    fold_left
      (fun allEvents session =>
         fold_left
           (fun allEvents event =>
              allEvents
                ++ [mkObj (length allEvents)
                          (AppV1.spread event (Session.id session))])
           (AppV1.eventsOf session) allEvents)
      sessions acc in
  map fields r = map fields acc ++ corpus sessions
  /\ map addr r = map addr acc ++ seq (length acc) (length (corpus sessions)).
Proof.
  revert acc. induction sessions as [|s ss IH]; intros acc; simpl.
  - rewrite !app_nil_r. split; reflexivity.
  - destruct (gather_inner (Session.id s) (AppV1.eventsOf s) acc) as [Hf Ha].
    match goal with
    | |- context [fold_left _ ss ?acc'] => destruct (IH acc') as [Hf' Ha']
    end.
    split.
    + rewrite Hf', Hf, <- app_assoc. reflexivity.
    + apply (f_equal (@length _)) in Hf.
      rewrite length_app, !length_map in Hf.
      rewrite Ha', Ha, <- app_assoc, Hf. f_equal.
      rewrite length_app, length_map, seq_app. reflexivity.
Qed.

Lemma gather_fields (sessions : list Session.t) :
  map fields (AppV1.gather sessions) = corpus sessions.
Proof. apply (gather_outer sessions []). Qed.

Lemma gather_addr (sessions : list Session.t) :
  map addr (AppV1.gather sessions) = seq 0 (length (corpus sessions)).
Proof. apply (gather_outer sessions []). Qed.

Lemma allEvents_perm (sessions : list Session.t) :
  Permutation (AppV1.allEvents getTime sessions) (AppV1.gather sessions).
Proof. apply sort_perm. Qed.

(** Every object of the working array is a distinct object. *)
Lemma allEvents_NoDup (sessions : list Session.t) :
  NoDup (map addr (AppV1.allEvents getTime sessions)).
Proof.
  eapply Permutation_NoDup.
  - apply Permutation_sym, Permutation_map, allEvents_perm.
  - rewrite gather_addr. apply seq_NoDup.
Qed.

(** When every timestamp of the corpus is a date, the working array is
    in chronological order after the sort. *)
Lemma allEvents_sorted (sessions : list Session.t) :
  Forall (parsed getTime) (corpus sessions) ->
  StronglySorted ole (AppV1.allEvents getTime sessions).
Proof.
  intros Hp. unfold AppV1.allEvents.
  apply (sort_sorted_on ole (fun o => parsed getTime (fields o))).
  - intros a b c. apply le_trans.
  - intros a b Ha Hb. apply sortCompare_le; assumption.
  - intros a b Ha Hb. apply sortCompare_gt; assumption.
  - rewrite <- gather_fields in Hp. rewrite Forall_forall in Hp |- *.
    intros o Ho. apply Hp, in_map, Ho.
Qed.

Lemma prompts_sorted (sessions : list Session.t) :
  Forall (parsed getTime) (corpus sessions) ->
  StronglySorted ole (AppV1.prompts getTime sessions).
Proof. intros Hp. apply filter_sorted, allEvents_sorted, Hp. Qed.

Lemma actions_sorted (sessions : list Session.t) :
  Forall (parsed getTime) (corpus sessions) ->
  StronglySorted ole (AppV1.actions getTime sessions).
Proof. intros Hp. apply filter_sorted, allEvents_sorted, Hp. Qed.

Lemma prompts_NoDup (sessions : list Session.t) :
  NoDup (map addr (AppV1.prompts getTime sessions)).
Proof. apply NoDup_map_filter, allEvents_NoDup. Qed.

(** The non-prompt events and the prompts of the working array are the
    ones of the corpus. *)
Lemma actions_perm (sessions : list Session.t) :
  Permutation (map fields (AppV1.actions getTime sessions))
              (filter (fun e => negb (AppV1.isPrompt e)) (corpus sessions)).
Proof.
  unfold AppV1.actions. rewrite <- gather_fields.
  rewrite (filter_map_comm fields (fun e => negb (AppV1.isPrompt e))).
  apply Permutation_map.
  set (f := fun a : Obj => negb (AppV1.isPrompt (fields a))).
  pose proof (allEvents_perm sessions) as P. revert P.
  generalize (AppV1.allEvents getTime sessions) (AppV1.gather sessions).
  induction 1; simpl.
  - constructor.
  - destruct (f x); [apply perm_skip|]; assumption.
  - destruct (f x), (f y); try apply Permutation_refl. apply perm_swap.
  - eapply perm_trans; eassumption.
Qed.

Lemma prompts_perm (sessions : list Session.t) :
  Permutation (map fields (AppV1.prompts getTime sessions))
              (filter AppV1.isPrompt (corpus sessions)).
Proof.
  unfold AppV1.prompts. rewrite <- gather_fields.
  rewrite (filter_map_comm fields AppV1.isPrompt).
  apply Permutation_map.
  set (f := fun a : Obj => AppV1.isPrompt (fields a)).
  pose proof (allEvents_perm sessions) as P. revert P.
  generalize (AppV1.allEvents getTime sessions) (AppV1.gather sessions).
  induction 1; simpl.
  - constructor.
  - destruct (f x); [apply perm_skip|]; assumption.
  - destruct (f x), (f y); try apply Permutation_refl. apply perm_swap.
  - eapply perm_trans; eassumption.
Qed.

(** ** The ['no_session'] branch *)

Lemma noSessionGroups_from (pre ps acts : list Obj) :
  flat_map
    (fun i =>
       match nth_error (pre ++ ps) i with
       | Some prompt =>
           let promptTime := AppV1.timeOf getTime (fields prompt) in
           let nextPromptTime :=
             if Z.of_nat i <? Z.of_nat (length (pre ++ ps)) - 1
             then match nth_error (pre ++ ps) (i + 1) with
                  | Some next => Js.Finite (AppV1.timeOf getTime (fields next))
                  | None => Js.Infinity
                  end
             else Js.Infinity in
           let relatedActions :=
             filter
               (fun a =>
                  let actionTime := AppV1.timeOf getTime (fields a) in
                  Js.ltb promptTime actionTime
                    && Js.ltb_bound actionTime nextPromptTime)
               acts in
           [Group.mk (Some prompt) (map fields relatedActions)
                     (Js.orDefault (event_id (fields prompt))
                                   ("group-" ++ Js.showNat i)%string)]
       | None => []
       end)
    (seq (length pre) (length ps))
  = windows getTime (length pre) ps acts.
Proof.
  revert pre. induction ps as [|p rest IH]; intros pre; [reflexivity|].
  cbn [length seq flat_map windows].
  rewrite nth_error_app2 by lia. rewrite Nat.sub_diag. cbn [nth_error].
  cbn zeta. cbn [app]. f_equal.
  - f_equal. f_equal. apply filter_ext. intros a. unfold inWindow.
    f_equal. f_equal.
    rewrite length_app. cbn [length].
    rewrite nth_error_app2 by lia.
    replace (length pre + 1 - length pre)%nat with 1%nat by lia.
    destruct rest as [|q rest']; cbn [length nth_error map nextOf].
    + destruct (Z.ltb_spec (Z.of_nat (length pre))
                           (Z.of_nat (length pre + 1) - 1)); [lia|reflexivity].
    + destruct (Z.ltb_spec (Z.of_nat (length pre))
                           (Z.of_nat (length pre + S (S (length rest'))) - 1));
        [reflexivity|lia].
  - specialize (IH (pre ++ [p])).
    replace (length (pre ++ [p])) with (S (length pre)) in IH
      by (rewrite length_app, Nat.add_1_r; reflexivity).
    rewrite <- app_assoc in IH. exact IH.
Qed.

Lemma noSessionGroups_windows (ps acts : list Obj) :
  AppV1.noSessionGroups getTime ps acts = windows getTime 0 ps acts.
Proof. apply (noSessionGroups_from [] ps acts). Qed.

(** The group at position [i] is the one of the prompt at position [i];
    its window closes at the prompt at position [i + 1]. *)
Lemma windows_nth_error (acts ps : list Obj) (k i : nat) :
  nth_error (windows getTime k ps acts) i
  = match nth_error ps i with
    | Some p =>
        Some (Group.mk (Some p)
                (map fields
                   (filter
                      (fun a =>
                         inWindow (otime p)
                           (match nth_error ps (S i) with
                            | Some q => Js.Finite (otime q)
                            | None => Js.Infinity
                            end)
                           (otime a))
                      acts))
                (Js.orDefault (event_id (fields p))
                              ("group-" ++ Js.showNat (k + i))%string))
    | None => None
    end.
Proof.
  revert k i. induction ps as [|p rest IH]; intros k i.
  - destruct i; reflexivity.
  - destruct i as [|i]; cbn [windows nth_error].
    + rewrite Nat.add_0_r. destruct rest; reflexivity.
    + rewrite IH. rewrite Nat.add_succ_r. reflexivity.
Qed.

Lemma windows_length (acts ps : list Obj) (k : nat) :
  length (windows getTime k ps acts) = length ps.
Proof.
  revert k. induction ps as [|p rest IH]; intros k; simpl;
    [reflexivity | rewrite IH; reflexivity].
Qed.

Lemma sorted_nth_error (l : list Obj) (i j : nat) (a b : Obj) :
  StronglySorted ole l -> (i < j)%nat ->
  nth_error l i = Some a -> nth_error l j = Some b ->
  Js.le (otime a) (otime b).
Proof.
  intros Hs. revert i j. induction Hs as [|x xs Hs IH Hall]; intros i j Hij Ha Hb.
  - destruct i; discriminate.
  - destruct j as [|j]; [lia|]. destruct i as [|i]; simpl in Ha, Hb.
    + injection Ha as <-. rewrite Forall_forall in Hall.
      apply Hall. eapply nth_error_In, Hb.
    + apply (IH i j); [lia|assumption..].
Qed.

Lemma existsb_lt_false (rest : list Js.time) (t q : Js.time) :
  Forall (Js.le q) rest -> Js.ltb q t = false ->
  existsb (fun p => Js.ltb p t) rest = false.
Proof.
  intros Hall Htq. induction Hall as [|r rs Hr _ IH]; simpl; [reflexivity|].
  rewrite IH, orb_false_r.
  destruct q as [qz|], r as [rz|], t as [tz|]; cbn [Js.le Js.ltb] in *;
    try tauto; try reflexivity.
  apply Z.ltb_ge in Htq. apply Z.ltb_ge. lia.
Qed.

Lemma forallb_ne_true (rest : list Js.time) (t q : Js.time) :
  Forall (Js.le q) rest -> Js.lt t q ->
  forallb (fun p => negb (sameTime p t)) rest = true.
Proof.
  intros Hall Htq. induction Hall as [|r rs Hr _ IH]; simpl; [reflexivity|].
  rewrite IH, andb_true_r. apply negb_true_iff.
  destruct (sameTime r t) eqn:E; [|reflexivity].
  apply sameTime_eq in E. subst r. exfalso. exact (lt_not_le _ _ Htq Hr).
Qed.

(** With the prompts in chronological order, a time is covered exactly
    when it lies in the first window or is covered by the later prompts. *)
Lemma coveredb_cons (p : Js.time) (rest : list Js.time) (t : Js.time) :
  StronglySorted Js.le (p :: rest) ->
  coveredb (p :: rest) t = inWindow p (nextOf rest) t || coveredb rest t.
Proof.
  intros Hs. inversion Hs as [|? ? Hrest Hall]; subst.
  unfold coveredb, inWindow. cbn [existsb forallb].
  destruct rest as [|q rest']; cbn [nextOf existsb forallb].
  - destruct p as [pz|], t as [tz|];
      cbn [Js.ltb Js.ltb_bound sameTime orb andb negb]; try reflexivity.
    destruct (Z.ltb_spec pz tz), (Z.eqb_spec pz tz); simpl;
      try reflexivity; lia.
  - inversion Hall as [|? ? Hpq _]; subst.
    inversion Hrest as [|? ? _ Hq]; subst.
    cbn [Js.ltb_bound].
    destruct (Js.ltb q t) eqn:Hqt.
    + assert (Hpt : Js.ltb p t = true) by (exact (le_lt_trans _ _ _ Hpq Hqt)).
      rewrite Hpt. cbn [orb andb].
      assert (Npt : sameTime p t = false).
      { destruct (sameTime p t) eqn:E; [|reflexivity].
        apply sameTime_eq in E. exfalso. exact (lt_ne _ _ Hpt E). }
      assert (Nqt : sameTime q t = false).
      { destruct (sameTime q t) eqn:E; [|reflexivity].
        apply sameTime_eq in E. exfalso. exact (lt_ne _ _ Hqt E). }
      rewrite Npt, Nqt. cbn [negb andb].
      assert (Ntq : Js.ltb t q = false).
      { destruct (Js.ltb t q) eqn:E; [|reflexivity].
        exfalso. exact (lt_not_le _ _ E (lt_le _ _ Hqt)). }
      rewrite Ntq. reflexivity.
    + rewrite (existsb_lt_false rest' t q Hq Hqt). cbn [orb].
      destruct (Js.ltb t q) eqn:Htq.
      * rewrite (forallb_ne_true rest' t q Hq Htq).
        assert (Nqt : sameTime q t = false).
        { destruct (sameTime q t) eqn:E; [|reflexivity].
          apply sameTime_eq in E. exfalso. symmetry in E.
          exact (lt_ne _ _ Htq E). }
        rewrite Nqt. cbn [negb andb]. rewrite !andb_true_r, orb_false_r.
        destruct (Js.ltb p t) eqn:Hpt; [|reflexivity].
        destruct (sameTime p t) eqn:E; [|reflexivity].
        apply sameTime_eq in E. exfalso. exact (lt_ne _ _ Hpt E).
      * rewrite !andb_false_r. cbn [orb].
        destruct (Js.ltb p t) eqn:Hpt; [|reflexivity]. cbn [andb].
        (* [p < t], not [q < t] and not [t < q]: [t] is the time [q]. *)
        assert (E : sameTime q t = true).
        { destruct p as [pz|], q as [qz|], t as [tz|];
            cbn [Js.le Js.ltb sameTime] in *; try tauto; try discriminate.
          apply Z.ltb_ge in Hqt, Htq. apply Z.eqb_eq. lia. }
        rewrite E. cbn [negb]. rewrite andb_false_r. reflexivity.
Qed.

Lemma filter_none {A : Type} (f : A -> bool) (l : list A) :
  (forall a, In a l -> f a = false) -> filter f l = [].
Proof.
  induction l as [|x xs IH]; intros H; simpl; [reflexivity|].
  rewrite (H x (or_introl eq_refl)). apply IH. intros a Ha. apply H. right. exact Ha.
Qed.

(** Two filters of a chronological array, the first of which only keeps
    earlier elements than the second, concatenate to one filter. *)
Lemma filter_app_sorted (f g : Obj -> bool) (l : list Obj) :
  StronglySorted ole l ->
  (forall a b, f a = true -> g b = true -> Js.lt (otime a) (otime b)) ->
  filter f l ++ filter g l = filter (fun a => f a || g a) l.
Proof.
  intros Hs Hsep. induction Hs as [|x xs Hs IH Hall]; [reflexivity|].
  simpl. destruct (f x) eqn:Hf; simpl.
  - destruct (g x) eqn:Hg.
    + exfalso. exact (lt_ne _ _ (Hsep x x Hf Hg) eq_refl).
    + rewrite IH. reflexivity.
  - destruct (g x) eqn:Hg; [|exact IH].
    assert (N : forall a, In a xs -> f a = false).
    { intros a Ha. destruct (f a) eqn:Hfa; [|reflexivity].
      rewrite Forall_forall in Hall. exfalso.
      exact (lt_not_le _ _ (Hsep a x Hfa Hg) (Hall a Ha)). }
    rewrite (filter_none f xs N).
    simpl. f_equal. apply filter_ext_in. intros a Ha.
    rewrite (N a Ha). reflexivity.
Qed.

(** The groups, put end to end, are the covered actions, each once and
    in chronological order. *)
Lemma windows_concat (acts ps : list Obj) (k : nat) :
  StronglySorted ole ps -> StronglySorted ole acts ->
  concat (map Group.actions (windows getTime k ps acts))
  = map fields (filter (fun a => coveredb (map otime ps) (otime a)) acts).
Proof.
  intros Hps Hacts. revert k.
  induction Hps as [|p rest Hrest IH Hall]; intros k.
  - simpl. rewrite filter_none; [reflexivity|]. intros; reflexivity.
  - cbn [windows map concat Group.actions]. rewrite IH, <- map_app. f_equal.
    assert (Hs : StronglySorted Js.le (map otime (p :: rest))).
    { apply map_sorted. constructor; assumption. }
    rewrite filter_app_sorted.
    + apply filter_ext. intros a. symmetry. apply (coveredb_cons _ _ _ Hs).
    + exact Hacts.
    + intros a b Ha Hb. unfold inWindow in Ha. unfold coveredb in Hb.
      apply andb_true_iff in Ha. destruct Ha as [_ Ha].
      apply andb_true_iff in Hb. destruct Hb as [Hb _].
      apply existsb_exists in Hb. destruct Hb as [q [Hq Hlt]].
      fold otime in Ha.
      destruct rest as [|r rest']; [destruct Hq|].
      cbn [map nextOf Js.ltb_bound] in Ha, Hq.
      inversion Hs as [|? ? Hs' _]; subst.
      inversion Hs' as [|? ? _ Hr]; subst.
      destruct Hq as [<-|Hq]; [exact (lt_trans _ _ _ Ha Hlt)|].
      rewrite Forall_forall in Hr. specialize (Hr q Hq).
      exact (lt_trans _ _ _ (lt_le_trans _ _ _ Ha Hr) Hlt).
Qed.

Lemma coveredb_spec (promptTimes : list Js.time) (t : Js.time) :
  coveredb promptTimes t = true <-> covered promptTimes t.
Proof.
  unfold coveredb, covered.
  rewrite andb_true_iff, existsb_exists, forallb_forall.
  split; intros [[p [Hp Hlt]] Hall]; split.
  - exists p. split; [exact Hp | exact Hlt].
  - intros q Hq E. specialize (Hall q Hq). apply negb_true_iff in Hall.
    apply sameTime_eq in E. congruence.
  - exists p. split; [exact Hp | exact Hlt].
  - intros q Hq. apply negb_true_iff.
    destruct (sameTime q t) eqn:E; [|reflexivity].
    apply sameTime_eq in E. exfalso. exact (Hall q Hq E).
Qed.

(** ** The specific-session branch *)

Lemma indexOf_ge (l : list Obj) (x : Obj) : -1 <= AppV1.indexOf l x.
Proof.
  induction l as [|y rest IH]; simpl; [lia|].
  destruct (addr y =? addr x)%nat; [lia|].
  destruct (Z.ltb_spec (AppV1.indexOf rest x) 0); lia.
Qed.

(** In an array of distinct objects [indexOf] finds the position of the
    object itself. *)
Lemma indexOf_nth (l : list Obj) (i : nat) (x : Obj) :
  NoDup (map addr l) -> nth_error l i = Some x ->
  AppV1.indexOf l x = Z.of_nat i.
Proof.
  revert i. induction l as [|y rest IH]; intros i Hnd Hi.
  - destruct i; discriminate.
  - inversion Hnd as [|? ? Hnin Hnd']; subst. destruct i as [|i]; simpl in *.
    + injection Hi as ->. rewrite Nat.eqb_refl. reflexivity.
    + destruct (Nat.eqb_spec (addr y) (addr x)) as [E|_].
      * exfalso. apply Hnin. rewrite E. apply in_map.
        eapply nth_error_In, Hi.
      * rewrite (IH i Hnd' Hi).
        destruct (Z.ltb_spec (Z.of_nat i) 0); lia.
Qed.

(** The lookup of the next prompt is never out of range. *)
Lemma next_in_range (l : list Obj) (x : Obj) :
  AppV1.indexOf l x < Z.of_nat (length l) - 1 ->
  nth_error l (Z.to_nat (AppV1.indexOf l x + 1)) <> None.
Proof.
  intros H. apply nth_error_Some. pose proof (indexOf_ge l x). lia.
Qed.

Lemma sessionStep_at (rp : list Obj) (se : list Event)
      (groups : list Group.t) (i : nat) (p : Obj) :
  NoDup (map addr rp) -> nth_error rp i = Some p ->
  AppV1.sessionStep getTime rp se groups p
  = if kept getTime rp se i p
    then groups
           ++ [Group.mk (Some p) (relatedAt getTime rp se i p)
                 (Js.orDefault (event_id (fields p))
                    ("group-" ++ Js.showNat (length groups))%string)]
    else groups.
Proof.
  intros Hnd Hi. unfold AppV1.sessionStep, kept, relatedAt.
  rewrite (indexOf_nth rp i p Hnd Hi).
  replace (Z.to_nat (Z.of_nat i + 1)) with (S i) by lia.
  assert (E :
    (if Z.of_nat i <? Z.of_nat (length rp) - 1
     then match nth_error rp (S i) with
          | Some next => Js.Finite (AppV1.timeOf getTime (fields next))
          | None => Js.Infinity
          end
     else Js.Infinity)
    = match nth_error rp (S i) with
      | Some q => Js.Finite (AppV1.timeOf getTime (fields q))
      | None => Js.Infinity
      end).
  { destruct (Z.ltb_spec (Z.of_nat i) (Z.of_nat (length rp) - 1)) as [H|H];
      [reflexivity|].
    assert (N : nth_error rp (S i) = None) by (apply nth_error_None; lia).
    rewrite N. reflexivity. }
  cbn zeta. rewrite E. reflexivity.
Qed.

(** What the loop has pushed when it ends. *)
Lemma fold_summary (rp : list Obj) (se : list Event) :
  NoDup (map addr rp) ->
  forall (suffix pre : list Obj) (acc : list Group.t),
    rp = pre ++ suffix ->
    map summary (fold_left (AppV1.sessionStep getTime rp se) suffix acc)
    = map summary acc ++ keptFrom getTime rp se (length pre) suffix.
Proof.
  intros Hnd. induction suffix as [|p rest IH]; intros pre acc E.
  - simpl. rewrite app_nil_r. reflexivity.
  - cbn [fold_left keptFrom].
    assert (Hi : nth_error rp (length pre) = Some p).
    { rewrite E, nth_error_app2 by lia. rewrite Nat.sub_diag. reflexivity. }
    rewrite (IH (pre ++ [p])) by (rewrite <- app_assoc; exact E).
    rewrite (sessionStep_at rp se acc (length pre) p Hnd Hi).
    replace (length (pre ++ [p])) with (S (length pre))
      by (rewrite length_app, Nat.add_1_r; reflexivity).
    destruct (kept getTime rp se (length pre) p).
    + rewrite map_app, <- app_assoc. reflexivity.
    + reflexivity.
Qed.

Lemma keptFrom_In (rp : list Obj) (se : list Event) (suffix : list Obj)
      (i0 : nat) (o : option Obj) (acts : list Event) :
  In (o, acts) (keptFrom getTime rp se i0 suffix)
  <-> exists j p,
      nth_error suffix j = Some p /\ o = Some p
      /\ acts = relatedAt getTime rp se (i0 + j) p
      /\ kept getTime rp se (i0 + j) p = true.
Proof.
  revert i0. induction suffix as [|q rest IH]; intros i0; cbn [keptFrom].
  - split; [intros [] | intros [j [p [H _]]]; destruct j; discriminate].
  - rewrite in_app_iff, IH. split.
    + intros [H | [j [p [Hj [Ho [Ha Hk]]]]]].
      * destruct (kept getTime rp se i0 q) eqn:K; [|destruct H].
        destruct H as [H|[]]. injection H as <- <-.
        exists 0%nat, q. rewrite Nat.add_0_r. auto.
      * exists (S j), p. rewrite Nat.add_succ_r. auto.
    + intros [j [p [Hj [Ho [Ha Hk]]]]]. destruct j as [|j].
      * left. simpl in Hj. injection Hj as ->.
        rewrite Nat.add_0_r in Ha, Hk. rewrite Hk, Ho, Ha. left. reflexivity.
      * right. exists j, p. rewrite Nat.add_succ_r in Ha, Hk. auto.
Qed.

Lemma relevantPrompts_In (ps : list Obj) (t0 : Js.time) (p : Obj) :
  In p (AppV1.relevantPrompts getTime ps t0)
  <-> In p ps /\ Js.lt (otime p) t0
      /\ Js.lt (Js.sub t0 (otime p)) (Js.Time 300000).
Proof.
  unfold AppV1.relevantPrompts. rewrite filter_In, andb_true_iff.
  change (5 * 60 * 1000) with 300000. reflexivity.
Qed.

(** A relevant prompt and the time it is compared with are time values
    less than five minutes apart. *)
Lemma relevantPrompts_Time (ps : list Obj) (t0 : Js.time) (p : Obj) :
  In p (AppV1.relevantPrompts getTime ps t0)
  <-> In p ps
      /\ exists tp z0, otime p = Js.Time tp /\ t0 = Js.Time z0
                       /\ tp < z0 /\ z0 - tp < 300000.
Proof.
  rewrite relevantPrompts_In. unfold Js.lt.
  destruct (otime p) as [tp|], t0 as [z0|]; cbn [Js.ltb Js.sub]; split;
    try (intros [_ [H _]]; discriminate);
    try (intros [_ [tp' [z0' [E1 [E2 _]]]]]; discriminate).
  - intros [Hin [H1 H2]]. apply Z.ltb_lt in H1, H2.
    split; [exact Hin|]. exists tp, z0. auto.
  - intros [Hin [tp' [z0' [E1 [E2 [H1 H2]]]]]].
    injection E1 as <-. injection E2 as <-.
    split; [exact Hin|]. split; apply Z.ltb_lt; assumption.
Qed.

(** When every timestamp of the session is a date, its events are in
    chronological order after the sort. *)
Lemma sessionEvents_sorted (events : list Event) :
  Forall (parsed getTime) events ->
  StronglySorted (fun a b => Js.le (timeOf a) (timeOf b))
                 (AppV1.sessionEvents getTime events).
Proof.
  intros Hp. unfold AppV1.sessionEvents.
  apply (sort_sorted_on (fun a b => Js.le (timeOf a) (timeOf b))
                        (parsed getTime)).
  - intros a b c. apply le_trans.
  - intros a b Ha Hb. apply sortCompare_le; assumption.
  - intros a b Ha Hb. apply sortCompare_gt; assumption.
  - exact Hp.
Qed.

Lemma sessionEvents_perm (events : list Event) :
  Permutation (AppV1.sessionEvents getTime events) events.
Proof. apply sort_perm. Qed.

(** [earliestActionTime] is the least time of the session's events when
    every timestamp of the session is a date. *)
Lemma earliest_le (events : list Event) (e : Event) :
  Forall (parsed getTime) events -> In e events ->
  Js.le (AppV1.earliestActionTime getTime (AppV1.sessionEvents getTime events))
        (timeOf e).
Proof.
  intros Hp He. pose proof (sessionEvents_sorted events Hp) as Hs.
  apply (Permutation_in _ (Permutation_sym (sessionEvents_perm events))) in He.
  unfold AppV1.earliestActionTime.
  destruct (AppV1.sessionEvents getTime events) as [|x rest] eqn:E;
    [destruct He|].
  inversion Hs as [|? ? _ Hall]; subst.
  destruct He as [<-|He].
  - apply le_refl. rewrite Forall_forall in Hp. apply Hp.
    apply (Permutation_in _ (sessionEvents_perm events)).
    rewrite E. left. reflexivity.
  - rewrite Forall_forall in Hall. apply Hall, He.
Qed.


Lemma nil_or_not {A : Type} (l : list A) : l = [] \/ l <> [].
Proof. destruct l; [left; reflexivity | right; discriminate]. Qed.

Lemma filter_all {A : Type} (f : A -> bool) (l : list A) :
  (forall a, In a l -> f a = true) -> filter f l = l.
Proof.
  induction l as [|x xs IH]; intros H; simpl; [reflexivity|].
  rewrite (H x (or_introl eq_refl)). f_equal. apply IH.
  intros a Ha. apply H. right. exact Ha.
Qed.

Section OneSession.
Variable sessions : list Session.t.
Variable events : list Event.

Let se := AppV1.sessionEvents getTime events.
Let t0 := AppV1.earliestActionTime getTime se.
Let rp := AppV1.relevantPrompts getTime (AppV1.prompts getTime sessions) t0.

Lemma rp_NoDup : NoDup (map addr rp).
Proof. apply NoDup_map_filter, prompts_NoDup. Qed.

Lemma se_In (a : Event) : In a se <-> In a events.
Proof. apply sort_In. Qed.

(** The last relevant prompt captures the first event of the sorted
    session. *)
Lemma last_captures_first (i : nat) (p : Obj) :
  nth_error rp i = Some p -> nth_error rp (S i) = None -> events <> [] ->
  (0 <? length (relatedAt getTime rp se i p))%nat = true.
Proof.
  intros Hi Hn Hev. unfold relatedAt. rewrite Hn.
  apply nth_error_In, relevantPrompts_In in Hi. destruct Hi as [_ [Hlt _]].
  fold se t0 in Hlt. unfold t0, AppV1.earliestActionTime in Hlt.
  assert (Hse : se <> []).
  { intros E. apply (f_equal (@length _)) in E. unfold se, AppV1.sessionEvents in E.
    rewrite sort_length in E. destruct events; [contradiction | discriminate]. }
  destruct se as [|x rest]; [contradiction|].
  cbn [filter]. unfold inWindow at 1.
  replace (Js.ltb (AppV1.timeOf getTime (fields p)) (AppV1.timeOf getTime x))
    with true by (symmetry; exact Hlt).
  unfold Js.lt in Hlt. unfold otime in Hlt.
  destruct (AppV1.timeOf getTime (fields p)), (AppV1.timeOf getTime x);
    cbn [Js.ltb] in Hlt; try discriminate.
  reflexivity.
Qed.

(** When every timestamp of the session is a date, the last relevant
    prompt captures every event of the session. *)
Lemma last_captures_all (i : nat) (p : Obj) :
  Forall (parsed getTime) events ->
  nth_error rp i = Some p -> nth_error rp (S i) = None ->
  relatedAt getTime rp se i p = se.
Proof.
  intros Hp Hi Hn. unfold relatedAt. rewrite Hn. apply filter_all.
  intros a Ha. unfold inWindow.
  apply se_In in Ha. pose proof (earliest_le events a Hp Ha) as Hle.
  apply nth_error_In, relevantPrompts_In in Hi. destruct Hi as [_ [Hlt _]].
  fold se t0 in Hle, Hlt.
  pose proof (lt_le_trans _ _ _ Hlt Hle) as H. unfold Js.lt, otime, timeOf in H.
  rewrite H. cbn [andb Js.ltb_bound].
  destruct (AppV1.timeOf getTime (fields p)), (AppV1.timeOf getTime a);
    cbn [Js.ltb] in H; try discriminate. reflexivity.
Qed.

(** Any other relevant prompt then captures nothing. *)
Lemma nonlast_captures_none (i : nat) (p q : Obj) :
  Forall (parsed getTime) events ->
  nth_error rp i = Some p -> nth_error rp (S i) = Some q ->
  relatedAt getTime rp se i p = [].
Proof.
  intros Hp Hi Hq. unfold relatedAt. rewrite Hq. apply filter_none.
  intros a Ha. unfold inWindow. cbn [Js.ltb_bound].
  apply se_In in Ha. pose proof (earliest_le events a Hp Ha) as Hle.
  apply nth_error_In, relevantPrompts_In in Hq. destruct Hq as [_ [Hlt _]].
  fold se t0 in Hle, Hlt.
  destruct (Js.ltb (AppV1.timeOf getTime a) (AppV1.timeOf getTime (fields q)))
    eqn:E; [|apply andb_false_r].
  exfalso. exact (lt_not_le _ _ (lt_trans _ _ _ E Hlt) Hle).
Qed.

Let loop : list Group.t :=
  fold_left (AppV1.sessionStep getTime rp se) rp [].

Lemma loop_summary : map summary loop = keptFrom getTime rp se 0 rp.
Proof. apply (fold_summary rp se rp_NoDup rp [] []). reflexivity. Qed.


Lemma loop_kept (i : nat) (p : Obj) :
  nth_error rp i = Some p -> kept getTime rp se i p = true ->
  exists g, In g loop /\ Group.prompt g = Some p
            /\ Group.actions g = relatedAt getTime rp se i p.
Proof.
  intros Hi Hk.
  assert (H : In (Some p, relatedAt getTime rp se i p) (map summary loop)).
  { rewrite loop_summary. apply keptFrom_In. exists i, p. auto. }
  apply in_map_iff in H. destruct H as [g [E Hg]].
  exists g. unfold summary in E. injection E as E1 E2. auto.
Qed.

Lemma loop_nonempty : rp <> [] -> events <> [] -> loop <> [].
Proof.
  intros Hrp Hev.
  destruct (exists_last Hrp) as [front [p E]].
  assert (Hi : nth_error rp (length front) = Some p).
  { rewrite E, nth_error_app2 by lia. rewrite Nat.sub_diag. reflexivity. }
  assert (Hn : nth_error rp (S (length front)) = None).
  { apply nth_error_None. rewrite E, length_app. simpl. lia. }
  destruct (loop_kept (length front) p Hi) as [g [Hg _]].
  - unfold kept. rewrite (last_captures_first _ _ Hi Hn Hev). reflexivity.
  - intros El. rewrite El in Hg. destruct Hg.
Qed.

(** When every timestamp of the session is a date, only the last
    relevant prompt is kept, and it holds every event of the session. *)
Lemma keptFrom_only_last (mid pre : list Obj) (p : Obj) :
  Forall (parsed getTime) events ->
  rp = pre ++ mid ++ [p] -> events <> [] ->
  keptFrom getTime rp se (length pre) (mid ++ [p]) = [(Some p, se)].
Proof.
  intros Hp. revert pre. induction mid as [|q mid IH]; intros pre E Hev.
  - cbn [app keptFrom].
    assert (Hi : nth_error rp (length pre) = Some p).
    { rewrite E, nth_error_app2 by lia. rewrite Nat.sub_diag. reflexivity. }
    assert (Hn : nth_error rp (S (length pre)) = None).
    { apply nth_error_None. rewrite E, length_app. simpl. lia. }
    unfold kept. rewrite (last_captures_all _ _ Hp Hi Hn).
    unfold se at 1, AppV1.sessionEvents. rewrite sort_length.
    destruct events; [contradiction | reflexivity].
  - cbn [app keptFrom].
    assert (Hi : nth_error rp (length pre) = Some q).
    { rewrite E, nth_error_app2 by lia. rewrite Nat.sub_diag. reflexivity. }
    destruct (nth_error rp (S (length pre))) as [r|] eqn:Hr.
    + unfold kept. rewrite (nonlast_captures_none _ _ _ Hp Hi Hr).
      assert (L : (length rp =? 1)%nat = false).
      { apply Nat.eqb_neq. rewrite E, !length_app. cbn [length]. lia. }
      rewrite L. cbn [length Nat.ltb Nat.leb orb app].
      specialize (IH (pre ++ [q])).
      replace (length (pre ++ [q])) with (S (length pre)) in IH
        by (rewrite length_app, Nat.add_1_r; reflexivity).
      apply IH; [|exact Hev]. rewrite <- app_assoc. exact E.
    + apply nth_error_None in Hr. rewrite E, !length_app in Hr.
      cbn [length] in Hr. lia.
Qed.

Lemma sessionGroups_unfold :
  AppV1.sessionGroups getTime (AppV1.prompts getTime sessions) events
  = if (length loop =? 0)%nat && (0 <? length se)%nat
    then loop ++ [Group.mk None se "session-actions"]
    else loop.
Proof. reflexivity. Qed.

(** With no relevant prompt the result is the single group without a
    prompt; with one, it is what the loop pushed, which is not empty. *)
Lemma sessionGroups_cases :
  events <> [] ->
  (rp = [] /\
   AppV1.sessionGroups getTime (AppV1.prompts getTime sessions) events
   = [Group.mk None se "session-actions"])
  \/ (rp <> [] /\ loop <> [] /\
      AppV1.sessionGroups getTime (AppV1.prompts getTime sessions) events
      = loop).
Proof.
  intros Hev. rewrite sessionGroups_unfold.
  destruct (nil_or_not rp) as [E|Hrp].
  - left. split; [exact E|].
    assert (L : loop = []) by (unfold loop; rewrite E; reflexivity).
    rewrite L. cbn [length Nat.eqb andb app].
    unfold se, AppV1.sessionEvents. rewrite sort_length.
    destruct events; [contradiction | reflexivity].
  - right. pose proof (loop_nonempty Hrp Hev) as Hl.
    split; [exact Hrp|]. split; [exact Hl|].
    destruct loop; [contradiction | reflexivity].
Qed.

(** When every timestamp of the session is a date and a prompt is
    relevant, the result is one group: the last relevant prompt with
    every event of the session. *)
Lemma sessionGroups_last (front : list Obj) (p : Obj) :
  Forall (parsed getTime) events ->
  events <> [] -> rp = front ++ [p] ->
  map summary
      (AppV1.sessionGroups getTime (AppV1.prompts getTime sessions) events)
  = [(Some p, se)].
Proof.
  intros Hp Hev E.
  destruct (sessionGroups_cases Hev) as [[R _]|[_ [_ G]]].
  - rewrite R in E. destruct front; discriminate.
  - rewrite G. fold loop. rewrite loop_summary.
    pose proof (keptFrom_only_last front [] p Hp E Hev) as K.
    rewrite <- E in K. exact K.
Qed.

End OneSession.

(** The second variant is the same function. *)
Lemma workflowGroupsOf_first (v : variant) (sel : option string)
      (sessions : list Session.t) :
  workflowGroupsOf v getTime sel sessions
  = AppV1.workflowGroups getTime sel sessions.
Proof. destruct v; reflexivity. Qed.

Lemma workflowGroups_no_session (sessions : list Session.t) :
  AppV1.workflowGroups getTime (Some "no_session") sessions
  = windows getTime 0 (AppV1.prompts getTime sessions)
            (AppV1.actions getTime sessions).
Proof. apply noSessionGroups_windows. Qed.

Lemma workflowGroups_session (sel : option string)
      (sessions : list Session.t) (session : Session.t)
      (events : list Event) :
  Js.truthy sel = true -> Js.strictEq sel "no_session" = false ->
  AppV1.findSession sel sessions = Some session ->
  Session.events session = Some events -> events <> [] ->
  AppV1.workflowGroups getTime sel sessions
  = AppV1.sessionGroups getTime (AppV1.prompts getTime sessions) events.
Proof.
  intros Ht Hn Hf He Hne. unfold AppV1.workflowGroups.
  rewrite Ht, Hn, Hf, He. destruct events; [contradiction | reflexivity].
Qed.

End CorrelatorFacts.

(* ================================================================== *)
(** * The statements about the correlator *)
(* ================================================================== *)

Lemma count_occ_filter {A : Type} (dec : forall x y : A, {x = y} + {x <> y})
      (f : A -> bool) (l : list A) (a : A) :
  count_occ dec (filter f l) a = if f a then count_occ dec l a else 0%nat.
Proof.
  induction l as [|x xs IH]; simpl.
  - destruct (f a); reflexivity.
  - destruct (dec x a) as [E|N].
    + subst x. destruct (f a) eqn:F; simpl.
      * destruct (dec a a); [|contradiction]. rewrite IH. reflexivity.
      * exact IH.
    + destruct (f x); simpl; [destruct (dec x a); [contradiction|]|]; exact IH.
Qed.

Lemma covered_perm (l1 l2 : list Js.time) (t : Js.time) :
  Permutation l1 l2 -> covered l1 t -> covered l2 t.
Proof.
  intros P [[p [Hp Hlt]] Hall]. split.
  - exists p. split; [eapply Permutation_in; eassumption | exact Hlt].
  - intros q Hq. apply Hall. eapply Permutation_in;
      [apply Permutation_sym|]; eassumption.
Qed.

Lemma prompt_times_perm (getTime : string -> Js.time)
      (sessions : list Session.t) :
  Permutation
    (map (fun o => AppV1.timeOf getTime (fields o)) (AppV1.prompts getTime sessions))
    (map (AppV1.timeOf getTime) (filter AppV1.isPrompt (corpus sessions))).
Proof.
  rewrite <- (map_map fields (AppV1.timeOf getTime)).
  apply Permutation_map, prompts_perm.
Qed.

(** When every timestamp of the corpus is a date, the groups of
    ['no_session'], put end to end, are the covered non-prompt events in
    chronological order. *)
Lemma no_session_concat (getTime : string -> Js.time)
      (sessions : list Session.t) :
  Forall (parsed getTime) (corpus sessions) ->
  concat (map Group.actions
              (AppV1.workflowGroups getTime (Some "no_session") sessions))
  = filter
      (fun a =>
         coveredb
           (map (fun o => AppV1.timeOf getTime (fields o))
                (AppV1.prompts getTime sessions))
           (AppV1.timeOf getTime a))
      (map fields (AppV1.actions getTime sessions)).
Proof.
  intros Hp. rewrite workflowGroups_no_session.
  rewrite (windows_concat getTime _ _ 0 (prompts_sorted getTime sessions Hp)
                          (actions_sorted getTime sessions Hp)).
  rewrite filter_map_comm. reflexivity.
Qed.

(** Two windows of a chronological prompt list have no time in common. *)
Lemma windows_disjoint (getTime : string -> Js.time) (ps : list Obj)
      (i j : nat) (pi pj : Obj) (t : Js.time) :
  StronglySorted
    (fun a b => Js.le (AppV1.timeOf getTime (fields a))
                      (AppV1.timeOf getTime (fields b)))
    ps ->
  (i < j)%nat -> nth_error ps i = Some pi -> nth_error ps j = Some pj ->
  inWindow (AppV1.timeOf getTime (fields pi))
           (match nth_error ps (S i) with
            | Some q => Js.Finite (AppV1.timeOf getTime (fields q))
            | None => Js.Infinity
            end) t = true ->
  Js.lt (AppV1.timeOf getTime (fields pj)) t -> False.
Proof.
  intros Hs Hij Hi Hj Hw Hlt.
  destruct (nth_error ps (S i)) as [q|] eqn:Hq.
  - unfold inWindow in Hw. apply andb_true_iff in Hw. destruct Hw as [_ Hw].
    cbn [Js.ltb_bound] in Hw.
    destruct (Nat.eq_dec (S i) j) as [E|N].
    + subst j. rewrite Hq in Hj. injection Hj as ->.
      exact (lt_ne _ _ (lt_trans _ _ _ Hw Hlt) eq_refl).
    + pose proof (sorted_nth_error getTime ps (S i) j q pj Hs ltac:(lia) Hq Hj)
        as H.
      cbv beta in H.
      exact (lt_ne _ _ (lt_trans _ _ _ (lt_le_trans _ _ _ Hw H) Hlt) eq_refl).
  - apply nth_error_None in Hq.
    assert (j < length ps)%nat by (apply nth_error_Some; rewrite Hj; discriminate).
    lia.
Qed.

Lemma group_action_window (getTime : string -> Js.time)
      (sessions : list Session.t) (i : nat) (g : Group.t) :
  nth_error (AppV1.workflowGroups getTime (Some "no_session") sessions) i = Some g ->
  exists p,
    nth_error (AppV1.prompts getTime sessions) i = Some p
    /\ Group.prompt g = Some p
    /\ forall a,
        In a (Group.actions g)
        <-> In a (map fields (AppV1.actions getTime sessions))
            /\ inWindow (AppV1.timeOf getTime (fields p))
                 (match nth_error (AppV1.prompts getTime sessions) (S i) with
                  | Some q => Js.Finite (AppV1.timeOf getTime (fields q))
                  | None => Js.Infinity
                  end)
                 (AppV1.timeOf getTime a) = true.
Proof.
  rewrite workflowGroups_no_session, windows_nth_error.
  destruct (nth_error (AppV1.prompts getTime sessions) i) as [p|]; [|discriminate].
  intros E. injection E as <-. exists p. split; [reflexivity|].
  split; [reflexivity|]. intros a. cbn [Group.actions].
  rewrite <- filter_map_comm
    with (f := fun a => inWindow (AppV1.timeOf getTime (fields p)) _
                                 (AppV1.timeOf getTime a)).
  apply filter_In.
Qed.

(** C1 (as amended). In the ['no_session'] case, in both variants, over a
    corpus whose timestamps are all dates: no action is in two groups; an
    action whose time is covered by the prompts (a prompt is strictly
    earlier, none is at the same time) is in the groups exactly as often
    as it is in the corpus, and an action that is not covered is in no
    group. *)
Theorem no_session_groups_partition_covered_actions
        (v : variant) (getTime : string -> Js.time)
        (sessions : list Session.t) :
  let groups := workflowGroupsOf v getTime (Some "no_session") sessions in
  let promptTimes :=
    map (AppV1.timeOf getTime) (filter AppV1.isPrompt (corpus sessions)) in
  let nonPrompts :=
    filter (fun e => negb (AppV1.isPrompt e)) (corpus sessions) in
  Forall (parsed getTime) (corpus sessions) ->
  (forall i j gi gj a,
      i <> j -> nth_error groups i = Some gi -> nth_error groups j = Some gj ->
      In a (Group.actions gi) -> ~ In a (Group.actions gj))
  /\ (forall a,
         covered promptTimes (AppV1.timeOf getTime a) ->
         count_occ Event_eq_dec (concat (map Group.actions groups)) a
         = count_occ Event_eq_dec nonPrompts a)
  /\ (forall a,
         ~ covered promptTimes (AppV1.timeOf getTime a) ->
         ~ In a (concat (map Group.actions groups))).
Proof.
  intros groups promptTimes nonPrompts Hparsed.
  unfold groups. clear groups. rewrite workflowGroupsOf_first.
  set (groups := AppV1.workflowGroups getTime (Some "no_session") sessions).
  assert (Hcov : forall a,
    coveredb (map (fun o => AppV1.timeOf getTime (fields o))
                  (AppV1.prompts getTime sessions))
             (AppV1.timeOf getTime a) = true
    <-> covered promptTimes (AppV1.timeOf getTime a)).
  { intros a. rewrite coveredb_spec.
    split; apply covered_perm;
      [|apply Permutation_sym]; apply prompt_times_perm. }
  split; [|split].
  - intros i j gi gj a Hij Hi Hj Hai Haj.
    destruct (group_action_window getTime sessions i gi Hi) as [pi [Hpi [_ Wi]]].
    destruct (group_action_window getTime sessions j gj Hj) as [pj [Hpj [_ Wj]]].
    apply Wi in Hai. apply Wj in Haj.
    destruct Hai as [_ Hai], Haj as [_ Haj].
    pose proof (prompts_sorted getTime sessions Hparsed) as Hs.
    assert (Lo : forall p n t, inWindow p n t = true -> Js.lt p t).
    { intros p n t H. unfold inWindow in H. apply andb_true_iff in H.
      apply H. }
    destruct (Nat.lt_total i j) as [L|[E|L]]; [|contradiction|].
    + exact (windows_disjoint getTime _ i j pi pj _ Hs L Hpi Hpj Hai (Lo _ _ _ Haj)).
    + exact (windows_disjoint getTime _ j i pj pi _ Hs L Hpj Hpi Haj (Lo _ _ _ Hai)).
  - intros a Ha. unfold groups.
    rewrite (no_session_concat getTime sessions Hparsed), count_occ_filter.
    apply Hcov in Ha. rewrite Ha.
    apply Permutation_count_occ, actions_perm.
  - intros a Ha Hin. unfold groups in Hin.
    rewrite (no_session_concat getTime sessions Hparsed) in Hin.
    apply filter_In in Hin. apply Ha, Hcov, Hin.
Qed.

Lemma no_session_groups_partition_covered_actions_witness :
  Forall (parsed Date.getTime) (corpus Examples.example1)
  /\ forall a,
       covered
         (map (AppV1.timeOf Date.getTime)
              (filter AppV1.isPrompt (corpus Examples.example1)))
         (AppV1.timeOf Date.getTime a) ->
       count_occ Event_eq_dec
         (concat (map Group.actions
                      (workflowGroupsOf FirstVariant Date.getTime
                                        (Some "no_session") Examples.example1)))
         a
       = count_occ Event_eq_dec
           (filter (fun e => negb (AppV1.isPrompt e)) (corpus Examples.example1))
           a.
Proof.
  assert (H : Forall (parsed Date.getTime) (corpus Examples.example1)).
  { repeat constructor; vm_compute; discriminate. }
  split; [exact H|].
  exact (proj1 (proj2 (no_session_groups_partition_covered_actions
                         FirstVariant Date.getTime Examples.example1 H))).
Defined.

(** The claim as the specification words it fails for an action logged
    before the first prompt: it is in no group. *)
Lemma early_action_in_no_group :
  ~ every_action_in_exactly_one_group Date.getTime Examples.earlyAction.
Proof.
  intros H.
  destruct (H (ex_intro _
                 (AppV1.spread (Examples.entry "2024-01-15T10:05:00.000Z" "prompt")
                               "no_session")
                 (conj (or_introl eq_refl) eq_refl))
              (AppV1.spread (Examples.entry "2024-01-15T10:00:00.000Z" "file_write") "A")
              (or_intror (or_introl eq_refl)) eq_refl)
    as [i [g [Hi [Hin _]]]].
  destruct i as [|[|i]]; vm_compute in Hi; try discriminate.
  injection Hi as <-. destruct Hin.
Qed.

(** The restriction to timestamps that are dates is needed: after a
    prompt whose timestamp is not a date the window of the prompt before
    it closes at [NaN], and an action that the prompts cover is in no
    group. *)
Lemma unparsable_prompt_closes_the_window :
  let a := AppV1.spread
             (Examples.entry "2024-01-15T10:01:00.000Z" "file_write") "A" in
  covered
    (map (AppV1.timeOf Date.getTime)
         (filter AppV1.isPrompt (corpus Examples.unparsablePrompt)))
    (AppV1.timeOf Date.getTime a)
  /\ In a (corpus Examples.unparsablePrompt)
  /\ forall v,
       concat (map Group.actions
                   (workflowGroupsOf v Date.getTime (Some "no_session")
                                     Examples.unparsablePrompt))
       = [].
Proof.
  split; [|split].
  - split.
    + exists (AppV1.timeOf Date.getTime
                (Examples.entry "2024-01-15T10:00:00.000Z" "prompt")).
      split; [left; reflexivity | reflexivity].
    + intros p [<-|[<-|[]]]; vm_compute; discriminate.
  - right. right. left. reflexivity.
  - intros v. destruct v; reflexivity.
Qed.














(** C10. The correlators of the two variants return the same groups on
    every input. *)
Theorem workflowGroups_variants_agree
        (getTime : string -> Js.time) (selectedSession : option string)
        (sessions : list Session.t) :
  AppV2.workflowGroups getTime selectedSession sessions
  = AppV1.workflowGroups getTime selectedSession sessions.
Proof.
  unfold AppV2.workflowGroups, AppV1.workflowGroups.
  destruct (Js.truthy selectedSession); [|reflexivity].
  destruct (Js.strictEq selectedSession "no_session"); reflexivity.
Qed.

(* ================================================================== *)
(** * The statements about the metrics *)
(* ================================================================== *)

(** C6 (as amended). Over an empty event set the metrics memo of the
    first variant returns zero for every count and histogram bucket and
    empty rankings, except the distinct-session count, which is 1 (the
    guard of the average, itself 0); that snapshot has no date range.
    The memo of the second variant, before any server payload, returns
    zero everywhere, a distinct-session count of 0 and a date range whose
    two ends are null. Both are total: nothing is raised. *)
Theorem empty_event_set_metrics
        (getTime : string -> Z) (LocalTZA : Z -> Z) (now : Z) :
  let m := AppV1.metrics getTime LocalTZA now [] in
  let m2 := AppV2.metrics None in
  (AppV1.Metrics.totalEvents m = 0
   /\ AppV1.Metrics.categoryBreakdown m = []
   /\ AppV1.Metrics.hourlyActivity m = repeat 0 24
   /\ AppV1.Metrics.dailyActivity m = repeat 0 7
   /\ AppV1.Metrics.topFiles m = []
   /\ AppV1.Metrics.topCommands m = []
   /\ AppV1.Metrics.topMcpTools m = []
   /\ AppV1.Metrics.totalLinesAdded m = 0
   /\ AppV1.Metrics.totalLinesRemoved m = 0
   /\ map AppV1.Recent.count (AppV1.Metrics.recentDays m) = repeat 0 7
   /\ AppV1.Metrics.uniqueFilesCount m = 0
   /\ AppV1.Metrics.avgEventsPerSession m = 0
   /\ AppV1.Metrics.filteredSessionCount m = 1)
  /\ (AppV2.Metrics.totalEvents m2 = 0
      /\ AppV2.Metrics.categoryBreakdown m2 = []
      /\ AppV2.Metrics.hourlyActivity m2 = repeat 0 24
      /\ AppV2.Metrics.dailyActivity m2 = repeat (Some 0) 7
      /\ AppV2.Metrics.topFiles m2 = []
      /\ AppV2.Metrics.topCommands m2 = []
      /\ AppV2.Metrics.topMcpTools m2 = []
      /\ AppV2.Metrics.recentDays m2 = []
      /\ AppV2.Metrics.totalLinesAdded m2 = 0
      /\ AppV2.Metrics.totalLinesRemoved m2 = 0
      /\ AppV2.Metrics.uniqueFilesCount m2 = 0
      /\ AppV2.Metrics.uniqueSessions m2 = 0
      /\ AppV2.Metrics.dateRange m2 = AppV2.Server.mkRange None None).
Proof.
  intros m m2. split.
  - unfold m, AppV1.metrics. cbn.
    repeat (split; [reflexivity|]). reflexivity.
  - unfold m2. cbn. repeat (split; [reflexivity|]). reflexivity.
Qed.

(** The claim as the specification words it fails in the first variant:
    the distinct-session count of the empty snapshot is 1. *)
Lemma empty_snapshot_counts_one_session :
  ~ all_counts_zero
      (AppV1.metrics Date.utcTime Date.utcZone MetricsExamples.monday []).
Proof.
  unfold all_counts_zero. intros H.
  repeat match type of H with _ /\ _ => destruct H as [_ H] end.
  vm_compute in H. discriminate.
Qed.





(** ** The histograms *)

Lemma incrAt_length (i : nat) (a : list Z) :
  length (AppV1.incrAt i a) = length a.
Proof.
  revert i. induction a as [|x rest IH]; intros i;
    [destruct i; reflexivity|].
  destruct i; simpl; [|rewrite IH]; reflexivity.
Qed.

Lemma incrAt_nth (i d : nat) (a : list Z) :
  (d < length a)%nat ->
  nth d (AppV1.incrAt i a) 0 = nth d a 0 + (if (i =? d)%nat then 1 else 0).
Proof.
  revert i d. induction a as [|x rest IH]; intros i d Hd; [simpl in Hd; lia|].
  destruct i as [|i], d as [|d]; simpl; try lia.
  apply IH. simpl in Hd. lia.
Qed.

Lemma histogram_fold (f : string -> nat) (logs : list Event) (a : list Z) :
  let r :=
    fold_left
      (fun a log =>
         if Js.truthy (timestamp log)
         then AppV1.incrAt (f (Js.orDefault (timestamp log) "")) a
         else a)
      logs a in
  length r = length a
  /\ forall d, (d < length a)%nat -> nth d r 0 = nth d a 0 + inBucket f d logs.
Proof.
  revert a. induction logs as [|l logs IH]; intros a; cbn zeta.
  - split; [reflexivity|]. intros d _. unfold inBucket. simpl. lia.
  - cbn [fold_left].
    match goal with |- context [fold_left _ logs ?a'] =>
      destruct (IH a') as [Hlen Hnth]; cbn zeta in Hlen, Hnth
    end.
    assert (La : forall b : list Z,
               length (if Js.truthy (timestamp l)
                       then AppV1.incrAt (f (Js.orDefault (timestamp l) "")) b
                       else b) = length b).
    { intros b. destruct (Js.truthy (timestamp l));
        [apply incrAt_length | reflexivity]. }
    split; [rewrite Hlen; apply La|].
    intros d Hd. rewrite Hnth by (rewrite La; exact Hd).
    unfold inBucket. cbn [filter].
    destruct (Js.truthy (timestamp l)); cbn [andb].
    + rewrite incrAt_nth by exact Hd.
      destruct (f (Js.orDefault (timestamp l) "") =? d)%nat; cbn [length]; lia.
    + lia.
Qed.

(** A histogram holds, in each bucket, the number of dated logs that
    fall into it. *)
Lemma histogram_buckets (n : nat) (f : string -> nat) (logs : list Event) :
  AppV1.histogram n f logs = map (fun d => inBucket f d logs) (seq 0 n).
Proof.
  destruct (histogram_fold f logs (repeat 0 n)) as [Hlen Hnth].
  cbn zeta in Hlen, Hnth. rewrite repeat_length in Hlen, Hnth.
  set (g := fun d => inBucket f d logs).
  apply (nth_ext _ _ 0 0).
  - unfold AppV1.histogram. rewrite Hlen, length_map, length_seq. reflexivity.
  - intros d Hd. unfold AppV1.histogram in *. rewrite Hlen in Hd.
    rewrite (Hnth d Hd), nth_repeat.
    rewrite (nth_indep _ 0 (g 0%nat))
      by (rewrite length_map, length_seq; exact Hd).
    rewrite map_nth, seq_nth by exact Hd. reflexivity.
Qed.

(** The day and the hour of a date are indices of their arrays. *)
Lemma getDay_lt (getTime : string -> Z) (LocalTZA : Z -> Z) (s : string) :
  (AppV1.getDay getTime LocalTZA s < 7)%nat.
Proof.
  unfold AppV1.getDay, Date.WeekDay.
  pose proof (Z.mod_pos_bound
                (Date.Day (AppV1.LocalTime LocalTZA (getTime s)) + 4) 7).
  lia.
Qed.

Lemma getHours_lt (getTime : string -> Z) (LocalTZA : Z -> Z) (s : string) :
  (AppV1.getHours getTime LocalTZA s < 24)%nat.
Proof.
  unfold AppV1.getHours, Date.HourFromTime.
  pose proof (Z.mod_pos_bound
                (AppV1.LocalTime LocalTZA (getTime s) / Date.msPerHour) 24).
  lia.
Qed.

Lemma monday_first_bucket (g k : nat) :
  (g < 7)%nat -> (k < 7)%nat ->
  ((g + 6) mod 7 =? k)%nat = (g =? (k + 1) mod 7)%nat.
Proof.
  intros Hg Hk.
  do 7 (destruct g as [|g]; [do 7 (destruct k as [|k]; [reflexivity|]); lia|]).
  lia.
Qed.

Lemma inBucket_ext (f g : string -> nat) (d e : nat) (logs : list Event) :
  (forall s, (f s =? d)%nat = (g s =? e)%nat) ->
  inBucket f d logs = inBucket g e logs.
Proof.
  intros H. unfold inBucket. f_equal. f_equal. apply filter_ext.
  intros l. rewrite H. reflexivity.
Qed.

(** C8 (as amended). The day-of-week histogram has 7 buckets. The first
    variant computes it from the logs directly in the presentation
    convention, bucket 0 = Sunday ([getDay]), and does not rotate it. The
    second variant receives the server's histogram and moves its last
    bucket to the front; applied to a histogram in the convention
    0 = Monday .. 6 = Sunday this gives the histogram of the first
    variant. Both present the buckets under the names Sun .. Sat. *)
Theorem day_of_week_histogram_conventions
        (getTime : string -> Z) (LocalTZA : Z -> Z) (now : Z)
        (logs : list Event) :
  let m := AppV1.metrics getTime LocalTZA now logs in
  AppV1.Metrics.dailyActivity m
    = map (fun d => inBucket (AppV1.getDay getTime LocalTZA) d logs) (seq 0 7)
  /\ AppV1.Metrics.dayNames m = ["Sun"; "Mon"; "Tue"; "Wed"; "Thu"; "Fri"; "Sat"]
  /\ (forall s,
         Z.of_nat (AppV1.getDay getTime LocalTZA s)
         = Date.WeekDay (getTime s + LocalTZA (getTime s))
         /\ (AppV1.getDay getTime LocalTZA s < 7)%nat)
  /\ (forall mon tue wed thu fri sat sun,
         AppV2.rotate [mon; tue; wed; thu; fri; sat; sun]
         = [Some sun; Some mon; Some tue; Some wed; Some thu; Some fri; Some sat])
  /\ (forall payload,
         AppV2.Metrics.dailyActivity (AppV2.metrics (Some payload))
         = AppV2.rotate (AppV2.orElse (AppV2.Server.daily_activity payload)
                                      (repeat 0 7))
         /\ AppV2.Metrics.dayNames (AppV2.metrics (Some payload))
            = Some ["Sun"; "Mon"; "Tue"; "Wed"; "Thu"; "Fri"; "Sat"])
  /\ AppV2.rotate (mondayFirst getTime LocalTZA logs)
     = map Some (AppV1.Metrics.dailyActivity m).
Proof.
  intros m.
  assert (Hd : AppV1.Metrics.dailyActivity m
               = map (fun d => inBucket (AppV1.getDay getTime LocalTZA) d logs)
                     (seq 0 7)).
  { apply histogram_buckets. }
  split; [exact Hd|]. split; [reflexivity|]. split.
  { intros s. split; [|apply getDay_lt].
    unfold AppV1.getDay, AppV1.LocalTime, Date.WeekDay.
    pose proof (Z.mod_pos_bound (Date.Day (getTime s + LocalTZA (getTime s)) + 4) 7).
    lia. }
  split; [reflexivity|]. split; [intros payload; split; reflexivity|].
  rewrite Hd. unfold mondayFirst. rewrite histogram_buckets.
  cbn [seq map]. unfold AppV2.rotate. cbn [nth_error firstn map].
  assert (R : forall k, (k < 7)%nat ->
    inBucket (fun s => ((AppV1.getDay getTime LocalTZA s + 6) mod 7)%nat) k logs
    = inBucket (AppV1.getDay getTime LocalTZA) ((k + 1) mod 7) logs).
  { intros k Hk. apply inBucket_ext. intros s.
    apply monday_first_bucket; [apply getDay_lt | exact Hk]. }
  rewrite !R by lia. reflexivity.
Qed.

(** The claim as the specification words it fails in the first variant:
    a log of a Monday is counted in bucket 1, not in bucket 0. *)
Lemma monday_is_counted_in_bucket_one :
  ~ histogram_is_monday_first Date.utcTime Date.utcZone
      MetricsExamples.monday MetricsExamples.mondayLog.
Proof.
  unfold histogram_is_monday_first. intros H.
  vm_compute in H. discriminate.
Qed.

(** ** Counters and rankings *)

Lemma firstSeen_snoc (l : list string) (n : string) :
  firstSeen (l ++ [n]) = addNew (firstSeen l) n.
Proof. unfold firstSeen. rewrite fold_left_app. reflexivity. Qed.

Lemma countAll_snoc (l : list string) (n : string) :
  Js.countAll (l ++ [n]) = Js.bump n (Js.countAll l).
Proof. unfold Js.countAll. rewrite fold_left_app. reflexivity. Qed.

Lemma existsb_eqb_In (n : string) (l : list string) :
  existsb (String.eqb n) l = true <-> In n l.
Proof.
  rewrite existsb_exists. split.
  - intros [x [Hx E]]. apply String.eqb_eq in E. subst. exact Hx.
  - intros H. exists n. split; [exact H | apply String.eqb_refl].
Qed.

Lemma firstSeen_In (l : list string) (k : string) :
  In k (firstSeen l) <-> In k l.
Proof.
  induction l as [|n l IH] using rev_ind; [reflexivity|].
  rewrite firstSeen_snoc, in_app_iff. unfold addNew.
  destruct (existsb (String.eqb n) (firstSeen l)) eqn:E.
  - apply existsb_eqb_In in E. rewrite IH. split; [tauto|].
    intros [H|[<-|[]]]; [exact H | apply IH, E].
  - rewrite in_app_iff, IH. reflexivity.
Qed.

Lemma firstSeen_NoDup (l : list string) : NoDup (firstSeen l).
Proof.
  induction l as [|n l IH] using rev_ind; [constructor|].
  rewrite firstSeen_snoc. unfold addNew.
  destruct (existsb (String.eqb n) (firstSeen l)) eqn:E; [exact IH|].
  apply NoDup_app; [exact IH | repeat constructor; intros [] |].
  intros x Hx [<-|[]].
  apply existsb_eqb_In in Hx. rewrite Hx in E. discriminate.
Qed.

(** Counting one more occurrence in a table of counts. *)
Lemma bump_counted (ks : list string) (c : string -> Z) (n : string) :
  NoDup ks ->
  Js.bump n (map (fun k => (k, c k)) ks)
  = if existsb (String.eqb n) ks
    then map (fun k => (k, if (k =? n)%string then c k + 1 else c k)) ks
    else map (fun k => (k, c k)) ks ++ [(n, 1)].
Proof.
  induction ks as [|k r IH]; intros Hnd; [reflexivity|].
  inversion Hnd as [|? ? Hnin Hr]; subst. cbn [map Js.bump existsb].
  rewrite (String.eqb_sym n k).
  destruct (String.eqb_spec k n) as [->|Hne]; cbn [orb].
  - f_equal. apply map_ext_in. intros k' Hk'.
    destruct (String.eqb_spec k' n) as [->|_]; [contradiction | reflexivity].
  - rewrite (IH Hr). destruct (existsb (String.eqb n) r); reflexivity.
Qed.

Lemma occurrences_snoc (l : list string) (n k : string) :
  occurrences (l ++ [n]) k
  = occurrences l k + (if (k =? n)%string then 1 else 0).
Proof.
  unfold occurrences. rewrite count_occ_app. cbn [count_occ].
  destruct (string_dec n k) as [->|Hne].
  - rewrite String.eqb_refl. lia.
  - destruct (String.eqb_spec k n) as [->|_]; [contradiction | lia].
Qed.

(** The counter of a list of names holds the distinct names in
    first-seen order, each with the number of its occurrences. *)
Lemma countAll_counted (names : list string) :
  Js.countAll names
  = map (fun k => (k, occurrences names k)) (firstSeen names).
Proof.
  induction names as [|n l IH] using rev_ind; [reflexivity|].
  rewrite countAll_snoc, IH, firstSeen_snoc.
  rewrite (bump_counted _ _ _ (firstSeen_NoDup l)). unfold addNew.
  destruct (existsb (String.eqb n) (firstSeen l)) eqn:E.
  - apply map_ext. intros k. rewrite occurrences_snoc.
    destruct (k =? n)%string; f_equal; lia.
  - rewrite map_app. cbn [map]. f_equal.
    + apply map_ext_in. intros k Hk. rewrite occurrences_snoc.
      destruct (String.eqb_spec k n) as [->|_]; [|f_equal; lia].
      apply existsb_eqb_In in Hk. rewrite Hk in E. discriminate.
    + rewrite occurrences_snoc, String.eqb_refl. f_equal.
      unfold occurrences. rewrite (proj1 (count_occ_not_In string_dec l n)).
      * reflexivity.
      * intros H. apply firstSeen_In, existsb_eqb_In in H.
        rewrite H in E. discriminate.
Qed.

Lemma filter_partition_perm {A : Type} (f : A -> bool) (l : list A) :
  Permutation (filter f l ++ filter (fun x => negb (f x)) l) l.
Proof.
  induction l as [|x xs IH]; simpl; [constructor|].
  destruct (f x); simpl.
  - apply perm_skip, IH.
  - apply Permutation_sym, Permutation_cons_app, Permutation_sym, IH.
Qed.

Lemma entries_perm (obj : Js.Counter) : Permutation (Js.entries obj) obj.
Proof.
  unfold Js.entries.
  eapply perm_trans; [|apply (filter_partition_perm (fun e => Js.isArrayIndex (fst e)))].
  apply Permutation_app_tail, sort_perm.
Qed.




Lemma firstn_prefix {A : Type} (f : A -> bool) (n : nat) (l : list A) :
  filter f l = filter f (firstn n l) ++ filter f (skipn n l).
Proof. rewrite <- filter_app, firstn_skipn. reflexivity. Qed.

Lemma firstn_In {A : Type} (n : nat) (l : list A) (x : A) :
  In x (firstn n l) -> In x l.
Proof.
  intros H. rewrite <- (firstn_skipn n l). apply in_or_app. left. exact H.
Qed.

Lemma firstn_sorted {A : Type} (R : A -> A -> Prop) (n : nat) (l : list A) :
  StronglySorted R l -> StronglySorted R (firstn n l).
Proof.
  intros Hs. revert n. induction Hs as [|x xs Hs IH Hall]; intros n.
  - destruct n; constructor.
  - destruct n; [constructor|]. cbn [firstn]. constructor; [apply IH|].
    rewrite Forall_forall in Hall |- *. intros y Hy.
    apply Hall. eapply firstn_In, Hy.
Qed.






(* ================================================================== *)
(** * Further statements: the text helpers *)
(* ================================================================== *)

Lemma length_append (s t : string) :
  String.length (s ++ t)%string = (String.length s + String.length t)%nat.
Proof. induction s as [|a s IH]; simpl; [reflexivity | rewrite IH; reflexivity]. Qed.

Lemma length_substring0 (n : nat) (s : string) :
  String.length (substring 0 n s) = Nat.min n (String.length s).
Proof.
  revert n. induction s as [|a s IH]; intros n.
  - destruct n; reflexivity.
  - destruct n; simpl; [reflexivity | rewrite IH; reflexivity].
Qed.

Lemma substring0_prefix (n : nat) (s : string) :
  String.prefix (substring 0 n s) s = true.
Proof.
  revert n. induction s as [|a s IH]; intros n.
  - destruct n; reflexivity.
  - destruct n; simpl; [reflexivity|].
    destruct (ascii_dec a a); [apply IH | contradiction].
Qed.

Lemma append_nonempty_r (s t : string) :
  t <> EmptyString -> (s ++ t)%string <> EmptyString.
Proof. destruct s; simpl; [trivial | discriminate]. Qed.

Lemma orDefault_nonempty (x : option string) (d : string) :
  d <> EmptyString -> Js.orDefault x d <> EmptyString.
Proof.
  intros Hd. unfold Js.orDefault. destruct x as [s|]; [|exact Hd].
  destruct (String.eqb_spec s ""); assumption.
Qed.

(** A truncated text has at most [maxLen + 3] code units, and is empty
    only for a missing or empty content. *)
Lemma truncateContent_length (content : option string) (maxLen : option nat) :
  (String.length (App.truncateContent content maxLen)
   <= orDefaultNat maxLen 200 + 3)%nat.
Proof.
  unfold App.truncateContent. fold (orDefaultNat maxLen 200).
  destruct content as [s|]; [|simpl; lia].
  destruct (String.eqb_spec s ""); [simpl; lia|].
  destruct (Nat.leb_spec (String.length s) (orDefaultNat maxLen 200)); [lia|].
  rewrite length_append, length_substring0. simpl. lia.
Qed.

Lemma truncateContent_empty (content : option string) (maxLen : option nat) :
  App.truncateContent content maxLen = EmptyString ->
  Js.truthy content = false.
Proof.
  unfold App.truncateContent. fold (orDefaultNat maxLen 200).
  destruct content as [s|]; [|reflexivity]. cbn [Js.truthy].
  destruct (String.eqb_spec s "") as [->|Hne]; [reflexivity|].
  destruct (Nat.leb_spec (String.length s) (orDefaultNat maxLen 200)).
  - intros E. contradiction.
  - intros E. apply (f_equal String.length) in E.
    rewrite length_append in E. simpl in E. lia.
Qed.

(** X1. A truncated text is never longer than the limit plus the three
    dots; it is empty exactly when the content is missing or empty; a
    content within the limit is returned unchanged, and a longer one is
    cut to its first [maxLen] code units followed by ["..."]. *)
Theorem truncateContent_bounded (content : option string)
        (maxLen : option nat) :
  let n := orDefaultNat maxLen 200 in
  let r := App.truncateContent content maxLen in
  (String.length r <= n + 3)%nat
  /\ (r = EmptyString <-> Js.truthy content = false)
  /\ (forall s, content = Some s ->
        ((String.length s <= n)%nat -> r = s)
        /\ ((n < String.length s)%nat ->
            r = (substring 0 n s ++ "...")%string
            /\ String.length r = (n + 3)%nat
            /\ String.prefix (substring 0 n s) s = true)).
Proof.
  intros n r. unfold r, App.truncateContent. fold (orDefaultNat maxLen 200).
  fold n. destruct content as [s|]; cbn [Js.truthy].
  - destruct (String.eqb_spec s "") as [->|Hne]; cbn [negb].
    + split; [simpl; lia|]. split; [tauto|].
      intros s E. injection E as <-. split; [reflexivity|].
      simpl. lia.
    + destruct (Nat.leb_spec (String.length s) n) as [Hle|Hgt].
      * split; [lia|]. split; [split; [contradiction | discriminate]|].
        intros s' E. injection E as <-. split; [reflexivity | lia].
      * assert (L : String.length (substring 0 n s ++ "...")%string = (n + 3)%nat).
        { rewrite length_append, length_substring0. simpl. lia. }
        split; [lia|]. split.
        -- split; [|discriminate]. intros E.
           apply (f_equal String.length) in E. rewrite L in E. simpl in E. lia.
        -- intros s' E. injection E as <-. split; [lia|].
           intros _. split; [reflexivity|]. split; [exact L|].
           apply substring0_prefix.
  - split; [simpl; lia|]. split; [tauto|]. intros s E. discriminate.
Qed.

(** ** [getPromptTitle] *)

Lemma splitHead_no_sep (c : ascii) (s : string) :
  JsString.includes c (Js.splitHead c s) = false.
Proof.
  unfold Js.splitHead. induction s as [|a s IH]; [reflexivity|].
  cbn [Js.split]. destruct (Ascii.eqb a c) eqn:E; [reflexivity|].
  destruct (Js.split c s) as [|p ps]; cbn [hd JsString.includes] in *.
  - rewrite E. reflexivity.
  - rewrite E, IH. reflexivity.
Qed.

Lemma trimStart_includes (c : ascii) (s : string) :
  JsString.includes c s = false ->
  JsString.includes c (JsString.trimStart s) = false.
Proof.
  induction s as [|a s IH]; [trivial|]. cbn [JsString.trimStart].
  destruct (JsString.isWhiteSpace a); [|trivial].
  cbn [JsString.includes]. intros H. apply orb_false_iff in H. apply IH, H.
Qed.

Lemma trimEnd_includes (c : ascii) (s : string) :
  JsString.includes c s = false ->
  JsString.includes c (JsString.trimEnd s) = false.
Proof.
  induction s as [|a s IH]; [trivial|]. cbn [JsString.trimEnd JsString.includes].
  intros H. apply orb_false_iff in H. destruct H as [Ha Hs].
  specialize (IH Hs). destruct (JsString.trimEnd s) as [|b r].
  - destruct (JsString.isWhiteSpace a); [reflexivity|].
    cbn [JsString.includes]. rewrite Ha. reflexivity.
  - cbn [JsString.includes] in *. rewrite Ha. exact IH.
Qed.

Lemma substring0_includes (c : ascii) (n : nat) (s : string) :
  JsString.includes c s = false ->
  JsString.includes c (substring 0 n s) = false.
Proof.
  revert n. induction s as [|a s IH]; intros n H.
  - destruct n; reflexivity.
  - destruct n; [reflexivity|]. cbn [substring JsString.includes] in *.
    apply orb_false_iff in H. destruct H as [Ha Hs].
    rewrite Ha. apply IH, Hs.
Qed.

Lemma append_includes (c : ascii) (s t : string) :
  JsString.includes c (s ++ t)%string
  = JsString.includes c s || JsString.includes c t.
Proof.
  induction s as [|a s IH]; [reflexivity|]. simpl. rewrite IH.
  apply orb_assoc.
Qed.

Lemma lastIndexOf_range (c : ascii) (s : string) :
  -1 <= JsString.lastIndexOf c s < Z.of_nat (String.length s).
Proof.
  induction s as [|a s IH]; cbn [JsString.lastIndexOf String.length]; [lia|].
  destruct (Z.leb_spec 0 (JsString.lastIndexOf c s)); [lia|].
  destruct (Ascii.eqb a c); lia.
Qed.

(** The index [lastIndexOf] returns holds the character. *)
Lemma lastIndexOf_get (c : ascii) (s : string) :
  0 <= JsString.lastIndexOf c s ->
  String.get (Z.to_nat (JsString.lastIndexOf c s)) s = Some c.
Proof.
  induction s as [|a s IH]; cbn [JsString.lastIndexOf]; [lia|].
  destruct (Z.leb_spec 0 (JsString.lastIndexOf c s)) as [H|H].
  - intros _. replace (Z.to_nat (JsString.lastIndexOf c s + 1))
      with (S (Z.to_nat (JsString.lastIndexOf c s))) by lia.
    cbn [String.get]. apply IH, H.
  - destruct (Ascii.eqb_spec a c) as [->|_]; [reflexivity | lia].
Qed.

Lemma substring0_get (n k : nat) (s : string) :
  (k < n)%nat -> String.get k (substring 0 n s) = String.get k s.
Proof.
  intros H. rewrite (substring_correct1 s 0 n k H), Nat.add_0_r. reflexivity.
Qed.

Lemma substring0_twice (n k : nat) (s : string) :
  (k <= n)%nat -> substring 0 k (substring 0 n s) = substring 0 k s.
Proof.
  revert n k. induction s as [|a s IH]; intros n k H.
  - destruct n, k; reflexivity.
  - destruct k; [destruct n; reflexivity|].
    destruct n; [lia|]. cbn [substring]. rewrite IH by lia. reflexivity.
Qed.

(** X2. The title of a prompt is one line (it holds no line feed) of at
    most [maxLength + 3] code units (11 for the fallback "User prompt"). *)
Theorem getPromptTitle_one_bounded_line (promptText : option string)
        (maxLength : option nat) :
  let n := orDefaultNat maxLength 60 in
  let title := App.getPromptTitle promptText maxLength in
  (String.length title <= Nat.max (n + 3) 11)%nat
  /\ JsString.includes JsString.LF title = false.
Proof.
  intros n title. unfold title, App.getPromptTitle.
  fold (orDefaultNat maxLength 60). fold n.
  destruct promptText as [s|]; [|split; [simpl; lia | reflexivity]].
  destruct (String.eqb_spec s ""); [split; [simpl; lia | reflexivity]|].
  set (firstLine := JsString.trim (Js.splitHead JsString.LF s)).
  assert (HL : JsString.includes JsString.LF firstLine = false).
  { apply trimEnd_includes, trimStart_includes, splitHead_no_sep. }
  cbn zeta.
  destruct (Nat.leb_spec (String.length firstLine) n) as [Hle|Hgt].
  - split; [lia | exact HL].
  - set (truncated := substring 0 n firstLine).
    assert (HT : JsString.includes JsString.LF truncated = false)
      by (apply substring0_includes, HL).
    assert (LT : String.length truncated = n).
    { unfold truncated. rewrite length_substring0. lia. }
    pose proof (lastIndexOf_range " " truncated) as R.
    destruct (Z.ltb_spec 20 (JsString.lastIndexOf " " truncated)) as [H20|H20].
    + split.
      * rewrite length_append, length_substring0. simpl. lia.
      * rewrite append_includes, substring0_includes by exact HT. reflexivity.
    + split.
      * rewrite length_append, LT. simpl. lia.
      * rewrite append_includes, HT. reflexivity.
Qed.

(** No later index than the one [lastIndexOf] returns holds the
    character. *)
Lemma lastIndexOf_last (c : ascii) (s : string) (j : nat) :
  JsString.lastIndexOf c s < Z.of_nat j -> String.get j s <> Some c.
Proof.
  revert j. induction s as [|a s IH]; intros j H.
  - destruct j; discriminate.
  - cbn [JsString.lastIndexOf] in H.
    pose proof (lastIndexOf_range c s) as R.
    destruct j as [|j]; cbn [String.get].
    + destruct (Z.leb_spec 0 (JsString.lastIndexOf c s)); [lia|].
      destruct (Ascii.eqb_spec a c); [lia | congruence].
    + apply IH.
      destruct (Z.leb_spec 0 (JsString.lastIndexOf c s)); [lia|].
      destruct (Ascii.eqb a c); lia.
Qed.

(** X3. A first line that fits is the title, trimmed. A longer one is
    cut and followed by ["..."]: when a space stands beyond index 20
    among the first [maxLength] code units, the cut is just before the
    last such space; when none does, the cut is after [maxLength] code
    units. *)
Theorem getPromptTitle_cuts_at_word_boundary (s : string)
        (maxLength : option nat) :
  let n := orDefaultNat maxLength 60 in
  let firstLine := JsString.trim (Js.splitHead JsString.LF s) in
  let title := App.getPromptTitle (Some s) maxLength in
  let space := fun j => String.get j firstLine = Some " "%char in
  s <> EmptyString ->
  ((String.length firstLine <= n)%nat -> title = firstLine)
  /\ ((n < String.length firstLine)%nat ->
      (forall k, (20 < k < n)%nat -> space k ->
                 (forall j, (k < j < n)%nat -> ~ space j) ->
                 title = (substring 0 k firstLine ++ "...")%string)
      /\ ((forall j, (20 < j < n)%nat -> ~ space j) ->
          title = (substring 0 n firstLine ++ "...")%string)).
Proof.
  intros n firstLine title space Hs. unfold title, App.getPromptTitle.
  fold (orDefaultNat maxLength 60). fold n.
  destruct (String.eqb_spec s ""); [contradiction|].
  fold firstLine. cbn zeta.
  destruct (Nat.leb_spec (String.length firstLine) n) as [Hle|Hgt].
  - split; [reflexivity | lia].
  - split; [lia|]. intros _.
    set (truncated := substring 0 n firstLine).
    pose proof (lastIndexOf_range " " truncated) as R.
    assert (LT : String.length truncated = n).
    { unfold truncated. rewrite length_substring0. lia. }
    assert (G : forall j, (j < n)%nat ->
                String.get j truncated = String.get j firstLine).
    { intros j Hj. apply substring0_get, Hj. }
    assert (Last : 0 <= JsString.lastIndexOf " " truncated ->
                   space (Z.to_nat (JsString.lastIndexOf " " truncated))).
    { intros H0. unfold space. rewrite <- G by lia.
      apply lastIndexOf_get, H0. }
    split.
    + intros k Hk Sk Hlast.
      assert (E : JsString.lastIndexOf " " truncated = Z.of_nat k).
      { destruct (Z.lt_trichotomy (JsString.lastIndexOf " " truncated)
                                  (Z.of_nat k)) as [H|[H|H]]; [|exact H|].
        - exfalso. apply (lastIndexOf_last " " truncated k H).
          rewrite G by lia. exact Sk.
        - exfalso.
          apply (Hlast (Z.to_nat (JsString.lastIndexOf " " truncated)));
            [lia | apply Last; lia]. }
      rewrite E. destruct (Z.ltb_spec 20 (Z.of_nat k)); [|lia].
      rewrite Nat2Z.id. unfold truncated.
      rewrite substring0_twice by lia. reflexivity.
    + intros Hnone.
      destruct (Z.ltb_spec 20 (JsString.lastIndexOf " " truncated)) as [H|H];
        [|reflexivity].
      exfalso.
      apply (Hnone (Z.to_nat (JsString.lastIndexOf " " truncated)));
        [lia | apply Last; lia].
Qed.

Lemma getPromptTitle_cuts_at_word_boundary_witness :
  "Refactor the parser and the printer of the configuration module please"
  <> EmptyString
  /\ App.getPromptTitle
       (Some "Refactor the parser and the printer of the configuration module please")
       None
     = (substring 0 56
          (JsString.trim
             (Js.splitHead JsString.LF
                "Refactor the parser and the printer of the configuration module please"))
        ++ "...")%string.
Proof.
  split; [discriminate|].
  apply (proj1 (proj2 (getPromptTitle_cuts_at_word_boundary
                  "Refactor the parser and the printer of the configuration module please"
                  None ltac:(discriminate)) ltac:(vm_compute; lia)) 56%nat).
  - cbn [orDefaultNat]. lia.
  - reflexivity.
  - cbn [orDefaultNat]. intros j Hj.
    assert (C : j = 57%nat \/ j = 58%nat \/ j = 59%nat) by lia.
    destruct C as [E | [E | E]]; subst j; vm_compute; discriminate.
Defined.

(** X4. The summary line of an entry is never empty, whatever its
    category and however few of its fields are present; the summary of a
    prompt, a response or an unknown entry has at most 103 code units and
    the one of a command at most 85. *)
Theorem getEventSummary_never_empty (entry : Entry.t) :
  let summary := App.getEventSummary entry App.truncateContent in
  summary <> EmptyString
  /\ (~ In (categoryOf entry) ["file_read"; "file_write"; "command"; "mcp"] ->
      (String.length summary <= 103)%nat)
  /\ (categoryOf entry = "command" -> (String.length summary <= 85)%nat).
Proof.
  intros summary.
  assert (T : forall x d n, d <> EmptyString ->
            App.truncateContent (Some (Js.orDefault x d)) (Some n) <> EmptyString).
  { intros x d n Hd E.
    apply truncateContent_empty in E.
    cbn [Js.truthy] in E. apply negb_false_iff, String.eqb_eq in E.
    exact (orDefault_nonempty x d Hd E). }
  assert (B : forall c n,
            (String.length (App.truncateContent c (Some n)) <= n + 3)%nat).
  { intros c n. exact (truncateContent_length c (Some n)). }
  unfold summary, App.getEventSummary. fold (categoryOf entry).
  destruct (String.eqb_spec (categoryOf entry) "prompt") as [E|N1].
  { split; [apply T; discriminate|]. split; [intros _; apply B|].
    rewrite E. discriminate. }
  destruct (String.eqb_spec (categoryOf entry) "file_read") as [E|N2].
  { split; [discriminate|]. split; [|rewrite E; discriminate].
    intros H. exfalso. apply H. rewrite E. simpl. tauto. }
  destruct (String.eqb_spec (categoryOf entry) "file_write") as [E|N3].
  { split; [discriminate|]. split; [|rewrite E; discriminate].
    intros H. exfalso. apply H. rewrite E. simpl. tauto. }
  destruct (String.eqb_spec (categoryOf entry) "command") as [E|N4].
  { split; [discriminate|]. split.
    - intros H. exfalso. apply H. rewrite E. simpl. tauto.
    - intros _. rewrite length_append. pose proof (B
        (Some (Js.orDefault
                 (Js.or (Entry.dataField Entry.Data.command_line entry)
                        (Entry.command_line entry)) "command")) 80%nat).
      simpl String.length at 1. lia. }
  destruct (String.eqb_spec (categoryOf entry) "mcp") as [E|N5].
  { split; [discriminate|]. split; [|rewrite E; discriminate].
    intros H. exfalso. apply H. rewrite E. simpl. tauto. }
  destruct (String.eqb_spec (categoryOf entry) "response") as [E|N6].
  { split; [apply T; discriminate|]. split; [intros _; apply B|].
    rewrite E. discriminate. }
  split; [apply T; discriminate|]. split; [intros _; apply B|].
  intros E. contradiction.
Qed.

(** ** [goUp] *)

Lemma split_nonempty (c : ascii) (s : string) : Js.split c s <> [].
Proof.
  destruct s as [|a s]; cbn [Js.split]; [discriminate|].
  destruct (Ascii.eqb a c); [discriminate|].
  destruct (Js.split c s); discriminate.
Qed.

Lemma concat_head (sep : string) (a : ascii) (p : string) (ps : list string) :
  String.concat sep (String a p :: ps) = String a (String.concat sep (p :: ps)).
Proof. destruct ps; reflexivity. Qed.

(** Joining the pieces of a split gives the string back. *)
Lemma join_split (c : ascii) (s : string) :
  String.concat (String c EmptyString) (Js.split c s) = s.
Proof.
  induction s as [|a s IH]; [reflexivity|]. cbn [Js.split].
  pose proof (split_nonempty c s) as Hn.
  destruct (Js.split c s) as [|p ps]; [contradiction|].
  destruct (Ascii.eqb_spec a c) as [->|Hne].
  - change (String.concat (String c "") ("" :: p :: ps))
      with (String c (String.concat (String c "") (p :: ps))).
    rewrite IH. reflexivity.
  - rewrite concat_head, IH. reflexivity.
Qed.

Lemma split_no_sep (c : ascii) (s : string) :
  JsString.includes c s = false -> Js.split c s = [s].
Proof.
  induction s as [|a s IH]; [reflexivity|]. cbn [JsString.includes Js.split].
  intros H. apply orb_false_iff in H. destruct H as [Ha Hs].
  rewrite Ha, (IH Hs). reflexivity.
Qed.

Lemma split_app_sep (c : ascii) (s t : string) :
  Js.split c (s ++ String c t)%string = Js.split c s ++ Js.split c t.
Proof.
  induction s as [|a s IH].
  - cbn [append Js.split app]. rewrite Ascii.eqb_refl. reflexivity.
  - cbn [append Js.split]. rewrite IH.
    destruct (Ascii.eqb a c); [reflexivity|].
    pose proof (split_nonempty c s) as Hn.
    destruct (Js.split c s) as [|p ps]; [contradiction | reflexivity].
Qed.

(** X5. Going up from a directory never gives the empty path, and it
    undoes entering a sub-directory: from [dir/name] ([name] without a
    slash) it leads to [dir], and from a top-level [/name] and from [/]
    itself to [/]. *)
Theorem goUp_parent (dir name : string) :
  App.goUp (dir ++ "/" ++ name)%string <> EmptyString
  /\ App.goUp dir <> EmptyString
  /\ (JsString.includes "/" name = false ->
      App.goUp (dir ++ "/" ++ name)%string
      = if (dir =? "")%string then "/" else dir)
  /\ App.goUp "/" = "/".
Proof.
  assert (Ne : forall p, App.goUp p <> EmptyString).
  { intros p. unfold App.goUp.
    destruct (String.eqb_spec
                (String.concat "/" (removelast (Js.split "/" p))) "");
      [discriminate | assumption]. }
  split; [apply Ne|]. split; [apply Ne|]. split; [|reflexivity].
  intros Hname. unfold App.goUp.
  change (dir ++ "/" ++ name)%string with (dir ++ String "/" name)%string.
  rewrite split_app_sep, (split_no_sep _ _ Hname).
  rewrite removelast_last, join_split. reflexivity.
Qed.

(* ================================================================== *)
(** * Further statements: selections, keys and selectors *)
(* ================================================================== *)

Section JsSetFacts.
Context {A : Type}.
Variable eqb : A -> A -> bool.
Hypothesis eqb_spec : forall x y, reflect (x = y) (eqb x y).

Lemma has_In (x : A) (s : list A) : JsSet.has eqb x s = true <-> In x s.
Proof.
  unfold JsSet.has. rewrite existsb_exists. split.
  - intros [y [Hy E]]. destruct (eqb_spec x y); [subst; exact Hy | discriminate].
  - intros H. exists x. split; [exact H|]. destruct (eqb_spec x x); congruence.
Qed.

Lemma has_not_In (x : A) (s : list A) : JsSet.has eqb x s = false <-> ~ In x s.
Proof.
  rewrite <- has_In. destruct (JsSet.has eqb x s); split; congruence.
Qed.

Lemma In_add (x y : A) (s : list A) :
  In y (JsSet.add eqb x s) <-> y = x \/ In y s.
Proof.
  unfold JsSet.add. destruct (JsSet.has eqb x s) eqn:E.
  - apply has_In in E. split; [tauto|]. intros [->|H]; assumption.
  - rewrite in_app_iff. simpl. split; intros H; intuition congruence.
Qed.

Lemma NoDup_add (x : A) (s : list A) : NoDup s -> NoDup (JsSet.add eqb x s).
Proof.
  intros H. unfold JsSet.add. destruct (JsSet.has eqb x s) eqn:E; [exact H|].
  apply has_not_In in E. apply NoDup_app; [exact H | repeat constructor; simpl; tauto|].
  intros a Ha [<-|[]]. exact (E Ha).
Qed.

Lemma In_delete (x y : A) (s : list A) :
  In y (JsSet.delete eqb x s) <-> y <> x /\ In y s.
Proof.
  unfold JsSet.delete. rewrite filter_In.
  destruct (eqb_spec x y); simpl; split; intros H; intuition congruence.
Qed.

Lemma NoDup_delete (x : A) (s : list A) :
  NoDup s -> NoDup (JsSet.delete eqb x s).
Proof. apply NoDup_filter. Qed.

Lemma delete_absent (x : A) (s : list A) :
  ~ In x s -> JsSet.delete eqb x s = s.
Proof.
  intros H. unfold JsSet.delete. induction s as [|a s IH]; [reflexivity|].
  simpl. destruct (eqb_spec x a) as [->|Hne]; [exfalso; apply H; left; reflexivity|].
  simpl. rewrite IH; [reflexivity|]. intros Hi. apply H. right. exact Hi.
Qed.

Lemma delete_added (x : A) (s : list A) :
  ~ In x s -> JsSet.delete eqb x (JsSet.add eqb x s) = s.
Proof.
  intros H. unfold JsSet.add. rewrite (proj2 (has_not_In x s) H).
  unfold JsSet.delete. rewrite filter_app. fold (JsSet.delete eqb x s).
  rewrite (delete_absent x s H). simpl.
  destruct (eqb_spec x x); [apply app_nil_r | congruence].
Qed.

Lemma fold_add_In (l acc : list A) (y : A) :
  In y (fold_left (fun s x => JsSet.add eqb x s) l acc) <-> In y acc \/ In y l.
Proof.
  revert acc. induction l as [|a l IH]; intros acc; simpl; [tauto|].
  rewrite IH, In_add. split; intros H; intuition congruence.
Qed.

Lemma fold_add_NoDup (l acc : list A) :
  NoDup acc -> NoDup (fold_left (fun s x => JsSet.add eqb x s) l acc).
Proof.
  revert acc. induction l as [|a l IH]; intros acc H; simpl; [exact H|].
  apply IH, NoDup_add, H.
Qed.

Lemma fold_add_id (l acc : list A) :
  NoDup (acc ++ l) -> fold_left (fun s x => JsSet.add eqb x s) l acc = acc ++ l.
Proof.
  revert acc. induction l as [|a l IH]; intros acc H; simpl.
  - symmetry. apply app_nil_r.
  - assert (Ha : ~ In a acc).
    { intros Hi. apply NoDup_remove_2 in H. apply H, in_or_app. left. exact Hi. }
    unfold JsSet.add at 2. rewrite (proj2 (has_not_In a acc) Ha).
    rewrite IH; rewrite <- app_assoc; simpl; [reflexivity | exact H].
Qed.

Lemma ofArray_In (l : list A) (y : A) : In y (JsSet.ofArray eqb l) <-> In y l.
Proof. unfold JsSet.ofArray. rewrite fold_add_In. simpl. tauto. Qed.

Lemma ofArray_NoDup (l : list A) : NoDup (JsSet.ofArray eqb l).
Proof. apply fold_add_NoDup. constructor. Qed.

Lemma ofArray_id (l : list A) : NoDup l -> JsSet.ofArray eqb l = l.
Proof. intros H. apply (fold_add_id l []). exact H. Qed.

End JsSetFacts.

Lemma ident_eqb_spec (x y : ident) : reflect (x = y) (ident_eqb x y).
Proof.
  destruct x as [s|n], y as [t|m]; simpl; try (constructor; discriminate).
  - destruct (String.eqb_spec s t); constructor; congruence.
  - destruct (Z.eqb_spec n m); constructor; congruence.
Qed.

Lemma toggleEntry_members (id : ident) (prev : list ident) :
  NoDup (App.toggleEntry id prev)
  /\ (In id (App.toggleEntry id prev) <-> ~ In id prev)
  /\ (forall x, x <> id -> (In x (App.toggleEntry id prev) <-> In x prev)).
Proof.
  unfold App.toggleEntry. cbn zeta.
  pose proof (ofArray_NoDup ident_eqb ident_eqb_spec prev) as Hnd.
  pose proof (ofArray_In ident_eqb ident_eqb_spec prev) as Hin.
  destruct (JsSet.has ident_eqb id (JsSet.ofArray ident_eqb prev)) eqn:E.
  - apply (has_In _ ident_eqb_spec) in E. rewrite Hin in E.
    split; [apply NoDup_delete, Hnd|]. split.
    + rewrite (In_delete _ ident_eqb_spec). tauto.
    + intros x Hx. rewrite (In_delete _ ident_eqb_spec), Hin. tauto.
  - apply (has_not_In _ ident_eqb_spec) in E. rewrite Hin in E.
    split; [apply (NoDup_add _ ident_eqb_spec), Hnd|]. split.
    + rewrite (In_add _ ident_eqb_spec). tauto.
    + intros x Hx. rewrite (In_add _ ident_eqb_spec), Hin. tauto.
Qed.

(** X6. Toggling an entry flips whether it is expanded and changes
    nothing for the other entries; the set holds no entry twice; the
    workflow groups are toggled the same way. *)
Theorem toggleEntry_flips_one (id : ident) (prev : list ident) :
  let next := App.toggleEntry id prev in
  NoDup next
  /\ (In id next <-> ~ In id prev)
  /\ (forall x, x <> id -> (In x next <-> In x prev))
  /\ App.toggleWorkflowGroup id prev = next.
Proof.
  intros next. destruct (toggleEntry_members id prev) as [H1 [H2 H3]].
  repeat split; try assumption; try apply H2; try apply H3; assumption.
Qed.

(** X7. Toggling the same entry twice gives back the same set of expanded
    entries; when the entry was collapsed, it gives back the very same
    sequence. *)
Theorem toggleEntry_twice (id : ident) (prev : list ident) :
  NoDup prev ->
  Permutation (App.toggleEntry id (App.toggleEntry id prev)) prev
  /\ (~ In id prev -> App.toggleEntry id (App.toggleEntry id prev) = prev).
Proof.
  intros Hnd.
  assert (T : forall s, NoDup s ->
            App.toggleEntry id s
            = if JsSet.has ident_eqb id s
              then JsSet.delete ident_eqb id s
              else JsSet.add ident_eqb id s).
  { intros s Hs. unfold App.toggleEntry. cbn zeta.
    rewrite (ofArray_id _ ident_eqb_spec s Hs). reflexivity. }
  split.
  - apply NoDup_Permutation.
    + exact (proj1 (toggleEntry_members id (App.toggleEntry id prev))).
    + exact Hnd.
    + intros x. destruct (ident_eqb_spec x id) as [->|Hne].
      * rewrite (proj1 (proj2 (toggleEntry_members id _))).
        rewrite (proj1 (proj2 (toggleEntry_members id _))).
        destruct (in_dec (fun a b => reflect_dec _ _ (ident_eqb_spec a b)) id prev);
          tauto.
      * rewrite (proj2 (proj2 (toggleEntry_members id _)) x Hne).
        apply (proj2 (proj2 (toggleEntry_members id _)) x Hne).
  - intros Hid. rewrite (T prev Hnd).
    rewrite (proj2 (has_not_In _ ident_eqb_spec id prev) Hid).
    rewrite T by (apply (NoDup_add _ ident_eqb_spec), Hnd).
    rewrite (proj2 (has_In _ ident_eqb_spec id _))
      by (apply (In_add _ ident_eqb_spec); left; reflexivity).
    apply (delete_added _ ident_eqb_spec), Hid.
Qed.

Lemma toggleEntry_twice_witness :
  NoDup [IdString "evt-1"; IdNumber 3]
  /\ App.toggleEntry (IdNumber 7)
       (App.toggleEntry (IdNumber 7) [IdString "evt-1"; IdNumber 3])
     = [IdString "evt-1"; IdNumber 3].
Proof.
  assert (H : NoDup [IdString "evt-1"; IdNumber 3]).
  { repeat constructor; simpl; intuition discriminate. }
  split; [exact H|].
  apply (proj2 (toggleEntry_twice (IdNumber 7) [IdString "evt-1"; IdNumber 3] H)).
  simpl. intuition discriminate.
Defined.

(** X8. Selecting a file flips its membership in the selection, keeps
    the other files and their order, never introduces a duplicate, and
    selecting then unselecting a file gives back the selection. *)
Theorem toggleFileSelection_flips_one (filepath : string)
        (prev : list string) :
  let next := App.toggleFileSelection filepath prev in
  (In filepath next <-> ~ In filepath prev)
  /\ filter (fun f => negb (f =? filepath)%string) next
     = filter (fun f => negb (f =? filepath)%string) prev
  /\ (forall g, g <> filepath -> (In g next <-> In g prev))
  /\ (NoDup prev -> NoDup next)
  /\ (~ In filepath prev -> App.toggleFileSelection filepath next = prev).
Proof.
  intros next. unfold next, App.toggleFileSelection.
  set (keep := fun f => negb (f =? filepath)%string).
  assert (K : forall l, ~ In filepath l -> filter keep l = l).
  { intros l Hl. induction l as [|a l IH]; [reflexivity|]. simpl. unfold keep at 1.
    destruct (String.eqb_spec a filepath) as [->|Hne];
      [exfalso; apply Hl; left; reflexivity|].
    simpl. rewrite IH; [reflexivity|]. intros Hi. apply Hl. right. exact Hi. }
  assert (Kin : forall l g, In g (filter keep l) <-> g <> filepath /\ In g l).
  { intros l g. rewrite filter_In. unfold keep.
    destruct (String.eqb_spec g filepath); simpl; intuition congruence. }
  destruct (existsb (String.eqb filepath) prev) eqn:E.
  - assert (Hin : In filepath prev).
    { apply existsb_exists in E. destruct E as [y [Hy Ey]].
      apply String.eqb_eq in Ey. subst. exact Hy. }
    split; [rewrite Kin; tauto|]. split.
    + clear. induction prev as [|a l IH]; [reflexivity|]. simpl.
      destruct (keep a) eqn:Ea; simpl; [rewrite Ea|]; rewrite IH; reflexivity.
    + split; [intros g Hg; rewrite Kin; tauto|].
      split; [apply NoDup_filter | tauto].
  - assert (Hin : ~ In filepath prev).
    { intros Hi. apply Bool.not_true_iff_false in E. apply E.
      apply existsb_exists. exists filepath. split; [exact Hi | apply String.eqb_refl]. }
    split; [rewrite in_app_iff; simpl; tauto|]. split.
    + rewrite filter_app. simpl. unfold keep at 2. rewrite String.eqb_refl.
      apply app_nil_r.
    + split.
      * intros g Hg. rewrite in_app_iff. simpl. intuition congruence.
      * split.
        -- intros Hnd. apply NoDup_app; [exact Hnd | repeat constructor; simpl; tauto|].
           intros a Ha [<-|[]]. exact (Hin Ha).
        -- intros _.
           assert (E2 : existsb (String.eqb filepath) (prev ++ [filepath]) = true).
           { rewrite existsb_app. simpl. rewrite String.eqb_refl.
             rewrite orb_true_r. reflexivity. }
           rewrite E2. fold keep. rewrite filter_app, (K prev Hin). simpl.
           unfold keep. rewrite String.eqb_refl. apply app_nil_r.
Qed.

(** ** The keyboard handler *)

(** X9. Whatever keys are pressed, the selection stays [-1] (nothing
    selected) or the index of an entry of the list; after an arrow key on
    a list that is not empty it is the index of an entry. *)
Theorem handleKeyDown_keeps_selection_in_range (logs : list Entry.t)
        (st : App.state) (keys : list Key.event) :
  selectionInRange logs st ->
  selectionInRange logs (fold_left (App.handleKeyDown logs) keys st)
  /\ (forall e, logs <> [] ->
        Key.key e = "ArrowDown" \/ Key.key e = "ArrowUp" ->
        0 <= App.selectedEntryIndex (App.handleKeyDown logs st e)
          < Z.of_nat (length logs)).
Proof.
  assert (Step : forall s e, selectionInRange logs s ->
                 selectionInRange logs (App.handleKeyDown logs s e)).
  { intros s e. unfold selectionInRange, App.handleKeyDown. cbn zeta.
    cbn [App.selectedEntryIndex]. intros H.
    destruct ((Key.key e =? "ArrowDown")%string);
      destruct ((Key.key e =? "ArrowUp")%string);
      destruct (Z.ltb_spec 0 (Z.of_nat (length logs))); cbn [andb]; lia. }
  intros H. split.
  - revert st H. induction keys as [|e keys IH]; intros st H; simpl; [exact H|].
    apply IH, Step, H.
  - intros e Hne Hk. unfold selectionInRange in H.
    assert (0 < Z.of_nat (length logs)) as Hlen.
    { destruct logs; [contradiction | simpl; lia]. }
    unfold App.handleKeyDown. cbn zeta. cbn [App.selectedEntryIndex].
    destruct (Z.ltb_spec 0 (Z.of_nat (length logs))); [|lia].
    destruct Hk as [-> | ->]; cbn [String.eqb Ascii.eqb Bool.eqb andb]; lia.
Qed.

Lemma handleKeyDown_keeps_selection_in_range_witness :
  selectionInRange [KeyExamples.logEntry; KeyExamples.logEntry]
                   (App.mkState false false (-1) [])
  /\ selectionInRange [KeyExamples.logEntry; KeyExamples.logEntry]
       (fold_left (App.handleKeyDown [KeyExamples.logEntry; KeyExamples.logEntry])
                  [KeyExamples.arrowDown; KeyExamples.arrowDown; KeyExamples.arrowDown]
                  (App.mkState false false (-1) [])).
Proof.
  assert (H : selectionInRange [KeyExamples.logEntry; KeyExamples.logEntry]
                               (App.mkState false false (-1) [])).
  { unfold selectionInRange. simpl. lia. }
  split; [exact H|].
  exact (proj1 (handleKeyDown_keeps_selection_in_range
                  [KeyExamples.logEntry; KeyExamples.logEntry]
                  (App.mkState false false (-1) [])
                  [KeyExamples.arrowDown; KeyExamples.arrowDown; KeyExamples.arrowDown] H)).
Defined.

(** X10. Escape closes one modal at a time: the file picker when it is
    open, leaving the advanced search as it is, and the advanced search
    otherwise; it leaves the selection and the expanded entries alone. *)
Theorem escape_closes_one_modal (logs : list Entry.t) (st : App.state)
        (e : Key.event) :
  Key.key e = "Escape" ->
  let st' := App.handleKeyDown logs st e in
  App.showFilePicker st' = false
  /\ App.showAdvancedSearch st'
     = (App.showFilePicker st && App.showAdvancedSearch st)
  /\ App.selectedEntryIndex st' = App.selectedEntryIndex st
  /\ App.expandedEntries st' = App.expandedEntries st.
Proof.
  intros Hk st'. unfold st', App.handleKeyDown. cbn zeta. rewrite Hk.
  cbn [String.eqb Ascii.eqb Bool.eqb andb App.showFilePicker
       App.showAdvancedSearch App.selectedEntryIndex App.expandedEntries].
  rewrite andb_false_r.
  destruct (App.showFilePicker st), (App.showAdvancedSearch st); repeat split.
Qed.

Lemma escape_closes_one_modal_witness :
  Key.key KeyExamples.escape = "Escape"
  /\ App.showAdvancedSearch
       (App.handleKeyDown [] (App.mkState true true (-1) []) KeyExamples.escape)
     = true.
Proof.
  split; [reflexivity|].
  exact (proj1 (proj2 (escape_closes_one_modal
                         [] (App.mkState true true (-1) []) KeyExamples.escape
                         eq_refl))).
Defined.

(** ** Sessions: the automatic selection, the selector and the filters *)

Lemma promptCount_pos (s : SessionRow.t) :
  match SessionRow.prompt s with Some n => 0 <? n | None => false end = true
  <-> 0 < promptCount s.
Proof.
  unfold promptCount, Js.orZero. destruct (SessionRow.prompt s) as [n|].
  - apply Z.ltb_lt.
  - split; [discriminate | lia].
Qed.

(** X11. Opening the workflow view never replaces a selection, and
    selects nothing outside that view. A session it selects is a listed
    session with at least one prompt: ["no_session"] when that one has
    prompts, else the first listed session with prompts. *)
Theorem autoSelect_picks_session_with_prompts (viewMode : string)
        (selectedSession : option string) (sessions : list SessionRow.t) :
  let chosen := App.autoSelect viewMode selectedSession sessions in
  (Js.truthy selectedSession = true -> chosen = selectedSession)
  /\ (viewMode <> "workflow" -> chosen = selectedSession)
  /\ (chosen <> selectedSession ->
      exists s, In s sessions /\ chosen = Some (SessionRow.id s)
                /\ 0 < promptCount s)
  /\ (viewMode = "workflow" -> Js.truthy selectedSession = false ->
      (exists s, In s sessions /\ 0 < promptCount s) ->
      exists s, In s sessions /\ chosen = Some (SessionRow.id s)
                /\ 0 < promptCount s
                /\ ((exists n, In n sessions /\ SessionRow.id n = "no_session"
                               /\ 0 < promptCount n) ->
                    SessionRow.id s = "no_session")).
Proof.
  intros chosen. unfold chosen, App.autoSelect. cbn zeta.
  set (isNo := fun s : SessionRow.t =>
         (SessionRow.id s =? "no_session")%string
         && match SessionRow.prompt s with Some n => 0 <? n | None => false end).
  set (hasPrompts := fun s : SessionRow.t =>
         match SessionRow.prompt s with Some n => 0 <? n | None => false end).
  split; [intros ->; rewrite andb_false_r; reflexivity|].
  split.
  { intros Hv. destruct (String.eqb_spec viewMode "workflow");
      [contradiction | reflexivity]. }
  split.
  { destruct ((viewMode =? "workflow")%string && negb (Js.truthy selectedSession)
              && (0 <? length sessions)%nat); [|congruence].
    destruct (find isNo sessions) as [s|] eqn:E1.
    - intros _. apply find_some in E1. destruct E1 as [Hin Hs].
      unfold isNo in Hs. apply andb_true_iff in Hs.
      exists s. split; [exact Hin|]. split; [reflexivity|].
      apply promptCount_pos, Hs.
    - destruct (find hasPrompts sessions) as [s|] eqn:E2; [|congruence].
      intros _. apply find_some in E2. destruct E2 as [Hin Hs].
      exists s. split; [exact Hin|]. split; [reflexivity|].
      apply promptCount_pos, Hs. }
  intros -> Hsel [w [Hw Hwp]]. rewrite Hsel, String.eqb_refl. cbn [negb andb].
  assert (Hlen : (0 <? length sessions)%nat = true).
  { destruct sessions; [contradiction | reflexivity]. }
  rewrite Hlen.
  destruct (find isNo sessions) as [s|] eqn:E1.
  - apply find_some in E1. destruct E1 as [Hin Hs].
    unfold isNo in Hs. apply andb_true_iff in Hs. destruct Hs as [Hid Hp].
    exists s. split; [exact Hin|]. split; [reflexivity|].
    split; [apply promptCount_pos, Hp|]. intros _. apply String.eqb_eq, Hid.
  - destruct (find hasPrompts sessions) as [s|] eqn:E2.
    + apply find_some in E2. destruct E2 as [Hin Hs].
      exists s. split; [exact Hin|]. split; [reflexivity|].
      split; [apply promptCount_pos, Hs|].
      intros [n [Hn [Hid Hp]]]. exfalso.
      pose proof (find_none _ _ E1 n Hn) as F. unfold isNo in F.
      rewrite Hid in F. cbn in F. apply promptCount_pos in Hp.
      unfold hasPrompts in F. congruence.
    + exfalso. pose proof (find_none _ _ E2 w Hw) as F.
      apply promptCount_pos in Hwp. unfold hasPrompts in F. congruence.
Qed.

Lemma byPromptsDesc_key (a b : SessionRow.t) :
  (App.byPromptsDesc a b <=? 0) = (- promptCount a <=? - promptCount b).
Proof.
  unfold App.byPromptsDesc, promptCount.
  destruct (Z.leb_spec (Js.orZero (SessionRow.prompt b)
                        - Js.orZero (SessionRow.prompt a)) 0),
           (Z.leb_spec (- Js.orZero (SessionRow.prompt a))
                       (- Js.orZero (SessionRow.prompt b)));
    try reflexivity; lia.
Qed.

Lemma StronglySorted_nth_error {A : Type} (R : A -> A -> Prop) (l : list A)
      (i j : nat) (a b : A) :
  StronglySorted R l -> (i < j)%nat ->
  nth_error l i = Some a -> nth_error l j = Some b -> R a b.
Proof.
  intros Hs. revert i j.
  induction Hs as [|x xs Hs IH Hall]; intros i j Hij Ha Hb.
  - destruct i; discriminate.
  - destruct j as [|j]; [lia|]. destruct i as [|i]; simpl in Ha, Hb.
    + injection Ha as <-. rewrite Forall_forall in Hall.
      apply Hall. eapply nth_error_In, Hb.
    + apply (IH i j); [lia | exact Ha | exact Hb].
Qed.

Lemma StronglySorted_app_le {A : Type} (R : A -> A -> Prop) (l1 l2 : list A) :
  StronglySorted R (l1 ++ l2) ->
  forall x y, In x l1 -> In y l2 -> R x y.
Proof.
  induction l1 as [|c l1 IH]; intros H x y Hx Hy.
  - destruct Hx.
  - simpl in H. inversion H as [|? ? H1 H2]; subst.
    destruct Hx as [<-|Hx].
    + rewrite Forall_forall in H2. apply H2, in_or_app. right. exact Hy.
    + apply (IH H1 x y Hx Hy).
Qed.

(** X12. The session selector lists at most 20 sessions, all of them when
    there are no more than 20, by decreasing number of prompts: no listed
    session has fewer prompts than one after it or than one left out,
    and sessions with the same number of prompts keep the order they
    came in. *)
Theorem sessionSelector_most_prompts_first (sessions : list SessionRow.t) :
  let listed := App.sessionSelector sessions in
  (length listed <= 20)%nat
  /\ ((length sessions <= 20)%nat -> Permutation listed sessions)
  /\ (forall i j a b, (i < j)%nat ->
        nth_error listed i = Some a -> nth_error listed j = Some b ->
        promptCount b <= promptCount a)
  /\ (forall a b, In a listed -> In b sessions -> ~ In b listed ->
        promptCount b <= promptCount a)
  /\ (forall k, exists rest,
        filter (fun s => promptCount s =? k) sessions
        = filter (fun s => promptCount s =? k) listed ++ rest).
Proof.
  intros listed. unfold listed, App.sessionSelector.
  set (key := fun s => - promptCount s).
  pose proof (sort_sorted key App.byPromptsDesc byPromptsDesc_key sessions) as Hs.
  split; [apply firstn_le_length|]. split; [|split; [|split]].
  - intros Hlen. rewrite firstn_all2
      by (rewrite (sort_length App.byPromptsDesc); exact Hlen).
    apply sort_perm.
  - intros i j a b Hij Ha Hb.
    pose proof (StronglySorted_nth_error _ _ i j a b
                  (firstn_sorted _ 20 _ Hs) Hij Ha Hb) as H.
    cbv beta in H. unfold key in H. lia.
  - intros a b Ha Hb Hnb.
    apply (sort_In App.byPromptsDesc) in Hb.
    rewrite <- (firstn_skipn 20 (Js.sort App.byPromptsDesc sessions)) in Hb.
    apply in_app_or in Hb. destruct Hb as [Hb|Hb]; [contradiction|].
    rewrite <- (firstn_skipn 20 (Js.sort App.byPromptsDesc sessions)) in Hs.
    pose proof (StronglySorted_app_le _ _ _ Hs a b Ha Hb) as H.
    cbv beta in H. unfold key in H. lia.
  - intros k. exists (filter (fun s => promptCount s =? k)
                             (skipn 20 (Js.sort App.byPromptsDesc sessions))).
    rewrite <- firstn_prefix.
    assert (Fx : forall l : list SessionRow.t,
              filter (fun s => promptCount s =? k) l
              = filter (fun s => key s =? - k) l).
    { intros l. apply filter_ext. intros s. unfold key.
      destruct (Z.eqb_spec (promptCount s) k), (Z.eqb_spec (- promptCount s) (- k));
        try reflexivity; lia. }
    rewrite !Fx. symmetry.
    apply (sort_stable key App.byPromptsDesc byPromptsDesc_key).
Qed.

(** ** The options of the filters *)

Lemma setAdd_In (x y : string) (s : list string) :
  In y (Js.setAdd x s) <-> y = x \/ In y s.
Proof.
  induction s as [|a s IH]; simpl; [intuition congruence|].
  destruct (String.eqb_spec a x) as [->|Hne]; simpl.
  - intuition congruence.
  - rewrite IH. intuition congruence.
Qed.

Lemma setAdd_NoDup (x : string) (s : list string) :
  NoDup s -> NoDup (Js.setAdd x s).
Proof.
  induction s as [|a s IH]; intros H; simpl.
  - repeat constructor. simpl. tauto.
  - destruct (String.eqb_spec a x) as [->|Hne]; [exact H|].
    inversion H as [|? ? Ha Hs]; subst. constructor; [|apply IH, Hs].
    rewrite setAdd_In. intros [E|Hi]; [congruence | contradiction].
Qed.

Lemma truthy_orDefault (x : option string) (u : string) :
  Js.truthy x = true /\ Js.orDefault x "" = u <-> u <> "" /\ x = Some u.
Proof.
  unfold Js.truthy, Js.orDefault. destruct x as [s|].
  - destruct (String.eqb_spec s ""); simpl; split; intros [H1 H2];
      try discriminate; try (injection H2 as ->); subst;
      try contradiction; split; congruence.
  - split; intros [H1 H2]; discriminate.
Qed.

Lemma allSessions_fold (sessions : list SessionRow.t) (acc : list string) :
  let step := fun (sessionIds : list string) (session : SessionRow.t) =>
    if negb (SessionRow.id session =? "")%string
       && negb (SessionRow.id session =? "no_session")%string
    then Js.setAdd (SessionRow.id session) sessionIds
    else sessionIds in
  (NoDup acc -> NoDup (fold_left step sessions acc))
  /\ (forall x, In x (fold_left step sessions acc) <->
        In x acc
        \/ (x <> "" /\ x <> "no_session"
            /\ exists s, In s sessions /\ SessionRow.id s = x)).
Proof.
  intros step. revert acc. induction sessions as [|s ss IH]; intros acc.
  - simpl. split; [trivial|]. intros x. split; [tauto|].
    intros [H|[_ [_ [s [[] _]]]]]. exact H.
  - simpl. destruct (IH (step acc s)) as [IH1 IH2]. split.
    + intros H. apply IH1. unfold step.
      destruct (negb (SessionRow.id s =? "")%string
                && negb (SessionRow.id s =? "no_session")%string);
        [apply setAdd_NoDup, H | exact H].
    + intros x. rewrite IH2. unfold step at 1.
      assert (Hex : (exists t, In t (s :: ss) /\ SessionRow.id t = x)
                    <-> SessionRow.id s = x
                        \/ exists t, In t ss /\ SessionRow.id t = x).
      { split.
        - intros [t [[<-|Ht] Et]]; [left; exact Et | right; exists t; tauto].
        - intros [E|[t [Ht Et]]]; [exists s | exists t]; simpl; tauto. }
      rewrite Hex. clear Hex.
      set (P := exists t, In t ss /\ SessionRow.id t = x).
      destruct (String.eqb_spec (SessionRow.id s) "") as [E1|N1];
        destruct (String.eqb_spec (SessionRow.id s) "no_session") as [E2|N2];
        cbn [negb andb]; try rewrite setAdd_In; intuition congruence.
Qed.

Lemma allUsers_inner (evs : list Entry.t) (acc : list string) :
  let step := fun (users : list string) (event : Entry.t) =>
    if Js.truthy (Entry.user event)
    then Js.setAdd (Js.orDefault (Entry.user event) "") users
    else users in
  (NoDup acc -> NoDup (fold_left step evs acc))
  /\ (forall u, In u (fold_left step evs acc) <->
        In u acc \/ (u <> "" /\ exists e, In e evs /\ Entry.user e = Some u)).
Proof.
  intros step. revert acc. induction evs as [|e evs IH]; intros acc.
  - simpl. split; [trivial|]. intros u. split; [tauto|].
    intros [H|[_ [e [[] _]]]]. exact H.
  - simpl. destruct (IH (step acc e)) as [IH1 IH2]. split.
    + intros H. apply IH1. unfold step.
      destruct (Js.truthy (Entry.user e)); [apply setAdd_NoDup, H | exact H].
    + intros u. rewrite IH2. unfold step at 1.
      pose proof (truthy_orDefault (Entry.user e) u) as T.
      destruct (Js.truthy (Entry.user e)) eqn:Et.
      * rewrite setAdd_In. split.
        -- intros [[Hu|H]|[Hu [e' [He' Eu]]]].
           ++ right. symmetry in Hu. destruct (proj1 T (conj eq_refl Hu)) as [T1 T2].
              split; [exact T1|]. exists e. split; [left; reflexivity | exact T2].
           ++ left. exact H.
           ++ right. split; [exact Hu|]. exists e'. split; [right; exact He' | exact Eu].
        -- intros [H|[Hu [e' [[<-|He'] Eu]]]].
           ++ left. right. exact H.
           ++ left. left. symmetry. apply (proj2 T). split; assumption.
           ++ right. split; [exact Hu|]. exists e'. split; assumption.
      * split.
        -- intros [H|[Hu [e' [He' Eu]]]]; [left; exact H|].
           right. split; [exact Hu|]. exists e'. split; [right; exact He' | exact Eu].
        -- intros [H|[Hu [e' [[<-|He'] Eu]]]]; [left; exact H | |].
           ++ exfalso. destruct (proj2 T (conj Hu Eu)). discriminate.
           ++ right. split; [exact Hu|]. exists e'. split; assumption.
Qed.

Lemma allUsers_fold (sessions : list SessionRow.t) (acc : list string) :
  let inner := fun (users : list string) (event : Entry.t) =>
    if Js.truthy (Entry.user event)
    then Js.setAdd (Js.orDefault (Entry.user event) "") users
    else users in
  let step := fun (users : list string) (session : SessionRow.t) =>
    fold_left inner
      (match SessionRow.events session with Some l => l | None => [] end)
      users in
  (NoDup acc -> NoDup (fold_left step sessions acc))
  /\ (forall u, In u (fold_left step sessions acc) <->
        In u acc \/ (u <> "" /\ exists s, In s sessions /\ userOf s u)).
Proof.
  intros inner step. revert acc. induction sessions as [|s ss IH]; intros acc.
  - simpl. split; [trivial|]. intros u. split; [tauto|].
    intros [H|[_ [s [[] _]]]]. exact H.
  - simpl. destruct (IH (step acc s)) as [IH1 IH2].
    destruct (allUsers_inner
                (match SessionRow.events s with Some l => l | None => [] end) acc)
      as [I1 I2].
    split; [intros H; apply IH1, I1, H|].
    intros u. rewrite IH2. unfold step at 1. fold inner in I2. rewrite I2.
    split.
    + intros [[H|[Hu [e [He Eu]]]]|[Hu [t [Ht Ut]]]].
      * left. exact H.
      * right. split; [exact Hu|]. exists s. split; [left; reflexivity|].
        destruct (SessionRow.events s) as [evs|] eqn:Es; [|destruct He].
        exists evs, e. repeat split; assumption.
      * right. split; [exact Hu|]. exists t. split; [right; exact Ht | exact Ut].
    + intros [H|[Hu [t [[<-|Ht] Ut]]]].
      * left. left. exact H.
      * left. right. split; [exact Hu|].
        destruct Ut as [evs [e [Es [He Eu]]]]. rewrite Es.
        exists e. split; assumption.
      * right. split; [exact Hu|]. exists t. split; assumption.
Qed.

(** X13. The session ids and the users [fetchSessions] collects for the
    filters: each list is without duplicates; the ids are exactly the
    non-empty ids of the sessions other than ["no_session"], and the
    users exactly the non-empty users of the events of the sessions. *)
Theorem fetchSessions_collects_distinct (sessions : list SessionRow.t) :
  NoDup (App.allSessions sessions)
  /\ (forall x, In x (App.allSessions sessions) <->
        x <> "" /\ x <> "no_session"
        /\ exists s, In s sessions /\ SessionRow.id s = x)
  /\ NoDup (App.allUsers sessions)
  /\ (forall u, In u (App.allUsers sessions) <->
        u <> "" /\ exists s, In s sessions /\ userOf s u).
Proof.
  destruct (allSessions_fold sessions []) as [S1 S2].
  destruct (allUsers_fold sessions []) as [U1 U2].
  split; [apply S1; constructor|]. split.
  - intros x. unfold App.allSessions. rewrite S2. simpl. tauto.
  - split; [apply U1; constructor|].
    intros u. unfold App.allUsers. rewrite U2. simpl. tauto.
Qed.

Lemma distinctTruthy_spec (f : Entry.t -> option string) (logs : list Entry.t) :
  NoDup (App.distinctTruthy f logs)
  /\ (forall u, In u (App.distinctTruthy f logs) <->
        u <> "" /\ exists e, In e logs /\ f e = Some u).
Proof.
  unfold App.distinctTruthy. split.
  - apply ofArray_NoDup. apply String.eqb_spec.
  - intros u. rewrite (ofArray_In String.eqb String.eqb_spec).
    rewrite in_map_iff. split.
    + intros [x [Ex Hx]]. apply filter_In in Hx. destruct Hx as [Hx Tx].
      apply in_map_iff in Hx. destruct Hx as [e [Ee He]]. subst x.
      destruct (proj1 (truthy_orDefault (f e) u) (conj Tx Ex)) as [H1 H2].
      split; [exact H1|]. exists e. split; assumption.
    + intros [Hu [e [He Ee]]]. exists (f e).
      destruct (proj2 (truthy_orDefault (f e) u) (conj Hu Ee)) as [H1 H2].
      split; [exact H2|]. apply filter_In. split; [|exact H1].
      apply in_map. exact He.
Qed.

(** X14. The options of the user and session filters are never empty
    strings and never repeated, whether they come from the sessions or,
    when the sessions name none, from the loaded entries; in that case
    they are exactly the non-empty users (session ids) of the entries. *)
Theorem filter_options_distinct (sessions : list SessionRow.t)
        (logs : list Entry.t) :
  let users := App.uniqueUsers (App.allUsers sessions) logs in
  let ids := App.uniqueSessions (App.allSessions sessions) logs in
  NoDup users /\ ~ In "" users /\ NoDup ids /\ ~ In "" ids
  /\ (App.allUsers sessions = [] ->
      forall u, In u users <->
        u <> "" /\ exists e, In e logs /\ Entry.user e = Some u)
  /\ (App.allSessions sessions = [] ->
      forall x, In x ids <->
        x <> "" /\ exists e, In e logs /\ Entry.trajectory_id e = Some x).
Proof.
  intros users ids. unfold users, ids, App.uniqueUsers, App.uniqueSessions.
  destruct (allSessions_fold sessions []) as [S1 S2].
  destruct (allUsers_fold sessions []) as [U1 U2].
  fold (App.allSessions sessions) in S1, S2.
  fold (App.allUsers sessions) in U1, U2.
  destruct (distinctTruthy_spec Entry.user logs) as [DU1 DU2].
  destruct (distinctTruthy_spec Entry.trajectory_id logs) as [DS1 DS2].
  assert (Hu : NoDup (if (0 <? length (App.allUsers sessions))%nat
                      then App.allUsers sessions
                      else App.distinctTruthy Entry.user logs)
               /\ ~ In "" (if (0 <? length (App.allUsers sessions))%nat
                           then App.allUsers sessions
                           else App.distinctTruthy Entry.user logs)).
  { destruct (0 <? length (App.allUsers sessions))%nat.
    - split; [apply U1; constructor|]. rewrite U2. simpl. intros [[]|[H _]].
      apply H. reflexivity.
    - split; [exact DU1|]. rewrite DU2. intros [H _]. apply H. reflexivity. }
  assert (Hs : NoDup (if (0 <? length (App.allSessions sessions))%nat
                      then App.allSessions sessions
                      else App.distinctTruthy Entry.trajectory_id logs)
               /\ ~ In "" (if (0 <? length (App.allSessions sessions))%nat
                           then App.allSessions sessions
                           else App.distinctTruthy Entry.trajectory_id logs)).
  { destruct (0 <? length (App.allSessions sessions))%nat.
    - split; [apply S1; constructor|]. rewrite S2. simpl. intros [[]|[H _]].
      apply H. reflexivity.
    - split; [exact DS1|]. rewrite DS2. intros [H _]. apply H. reflexivity. }
  destruct Hu as [Hu1 Hu2], Hs as [Hs1 Hs2].
  split; [exact Hu1|]. split; [exact Hu2|]. split; [exact Hs1|].
  split; [exact Hs2|]. split.
  - intros E u. rewrite E. simpl. apply DU2.
  - intros E x. rewrite E. simpl. apply DS2.
Qed.

(** ** The timeline and the client-side filters *)


Lemma filter_compose {A : Type} (f g : A -> bool) (l : list A) :
  filter f (filter g l) = filter (fun x => f x && g x) l.
Proof.
  induction l as [|a l IH]; [reflexivity|]. simpl.
  destruct (g a); simpl; [destruct (f a); rewrite IH; reflexivity|].
  rewrite andb_false_r. exact IH.
Qed.

Lemma filteredLogs_In (c u s : string) (logs : list Entry.t) (entry : Entry.t) :
  In entry (AppV0.filteredLogs c u s logs)
  <-> In entry logs
      /\ (c = "all" \/ categoryOf entry = c)
      /\ (u = "all" \/ Entry.user entry = Some u)
      /\ (s = "all" \/ Entry.trajectory_id entry = Some s).
Proof.
  unfold AppV0.filteredLogs. rewrite filter_In. fold (categoryOf entry).
  assert (SE : forall x lit, Js.strictEq x lit = true <-> x = Some lit).
  { intros x lit. unfold Js.strictEq. destruct x as [y|].
    - rewrite String.eqb_eq. split; congruence.
    - split; discriminate. }
  destruct (String.eqb_spec c "all") as [Ec|Nc];
    destruct (String.eqb_spec (categoryOf entry) c) as [Ek|Nk];
    destruct (String.eqb_spec u "all") as [Eu|Nu];
    destruct (Js.strictEq (Entry.user entry) u) eqn:Su;
    destruct (String.eqb_spec s "all") as [Es|Ns];
    destruct (Js.strictEq (Entry.trajectory_id entry) s) eqn:Ss;
    cbn [negb andb];
    try (apply SE in Su); try (apply SE in Ss);
    try (assert (Entry.user entry <> Some u)
           by (intros Q; apply SE in Q; congruence));
    try (assert (Entry.trajectory_id entry <> Some s)
           by (intros Q; apply SE in Q; congruence));
    intuition congruence.
Qed.

(** X16. The three client-side filters are conjunctive and ["all"]
    switches one off: an entry is listed exactly when it is loaded and
    passes each filter that is set, where the category of an entry is its
    [category], else its [type], else ["unknown"]. With no filter set
    every entry is listed, the order of the entries is kept, and applying
    the filters one after the other gives the same list. *)
Theorem filteredLogs_conjunctive (c u s : string) (logs : list Entry.t) :
  (forall entry,
      In entry (AppV0.filteredLogs c u s logs)
      <-> In entry logs
          /\ (c = "all" \/ categoryOf entry = c)
          /\ (u = "all" \/ Entry.user entry = Some u)
          /\ (s = "all" \/ Entry.trajectory_id entry = Some s))
  /\ AppV0.filteredLogs "all" "all" "all" logs = logs
  /\ AppV0.filteredLogs c u s logs
     = AppV0.filteredLogs c "all" "all"
         (AppV0.filteredLogs "all" u "all"
            (AppV0.filteredLogs "all" "all" s logs))
  /\ (forall l1 l2, AppV0.filteredLogs c u s (l1 ++ l2)
                    = AppV0.filteredLogs c u s l1
                      ++ AppV0.filteredLogs c u s l2).
Proof.
  split; [intros entry; apply filteredLogs_In|]. split; [|split].
  - unfold AppV0.filteredLogs. apply filter_all. intros a _. reflexivity.
  - unfold AppV0.filteredLogs. rewrite !filter_compose.
    apply filter_ext. intros a.
    cbn [String.eqb Ascii.eqb Bool.eqb negb andb].
    destruct (negb (c =? "all")%string && negb (_ =? c)%string);
      destruct (negb (u =? "all")%string && negb (Js.strictEq (Entry.user a) u));
      destruct (negb (s =? "all")%string
                && negb (Js.strictEq (Entry.trajectory_id a) s));
      reflexivity.
  - intros l1 l2. apply filter_app.
Qed.

(** X17. No user and no session id that the filters list as an option
    is a dead end: each is the user (the session id) of a loaded entry,
    so the filter on it alone keeps at least one loaded entry. *)
Theorem filter_option_selects_an_entry (logs : list Entry.t) :
  (forall u, In u (AppV0.uniqueUsers logs) ->
             (exists e, In e logs /\ Entry.user e = Some u)
             /\ AppV0.filteredLogs "all" u "all" logs <> [])
  /\ (forall s, In s (AppV0.uniqueSessions logs) ->
                (exists e, In e logs /\ Entry.trajectory_id e = Some s)
                /\ AppV0.filteredLogs "all" "all" s logs <> []).
Proof.
  assert (Ne : forall c u s e, In e (AppV0.filteredLogs c u s logs) ->
                               AppV0.filteredLogs c u s logs <> []).
  { intros c u s e He E. rewrite E in He. destruct He. }
  split.
  - intros u Hu. apply (proj2 (distinctTruthy_spec _ logs)) in Hu.
    destruct Hu as [Hne [e [He Ee]]].
    split; [exists e; split; assumption|]. apply (Ne _ _ _ e).
    apply filteredLogs_In. split; [exact He|].
    split; [left; reflexivity|]. split; [right; exact Ee | left; reflexivity].
  - intros s Hs. apply (proj2 (distinctTruthy_spec _ logs)) in Hs.
    destruct Hs as [Hne [e [He Ee]]].
    split; [exists e; split; assumption|]. apply (Ne _ _ _ e).
    apply filteredLogs_In. split; [exact He|].
    split; [left; reflexivity|]. split; [left; reflexivity | right; exact Ee].
Qed.

(* ================================================================== *)
(** * Further statements: the correlator *)
(* ================================================================== *)

Lemma windows_prompts (getTime : string -> Js.time) (k : nat)
      (ps acts : list Obj) :
  map Group.prompt (windows getTime k ps acts) = map Some ps.
Proof.
  revert k. induction ps as [|p ps IH]; intros k; [reflexivity|].
  cbn [windows map Group.prompt]. rewrite IH. reflexivity.
Qed.

Lemma promptsShown_all (groups : list Group.t) (ps : list Obj) :
  map Group.prompt groups = map Some ps ->
  App.promptsShown groups = length groups.
Proof.
  unfold App.promptsShown. revert ps.
  induction groups as [|g gs IH]; intros ps E; [reflexivity|].
  destruct ps as [|p ps]; [discriminate|]. cbn [map] in E.
  injection E as Eg Egs. cbn [filter]. rewrite Eg. cbn [length].
  rewrite (IH ps Egs). reflexivity.
Qed.

(** X18. With ["no_session"] selected the view has one group per prompt
    of the whole corpus, whatever session the prompt belongs to and
    whether or not any action follows it, and the number under "Prompts"
    is the number of groups; when every timestamp of the corpus is a
    date, the groups come in the chronological order of their prompts. *)
Theorem no_session_one_group_per_prompt (v : variant)
        (getTime : string -> Js.time) (sessions : list Session.t) :
  let groups := workflowGroupsOf v getTime (Some "no_session") sessions in
  length groups = length (filter AppV1.isPrompt (corpus sessions))
  /\ App.promptsShown groups = length groups
  /\ map Group.prompt groups = map Some (AppV1.prompts getTime sessions)
  /\ Permutation (map fields (AppV1.prompts getTime sessions))
                 (filter AppV1.isPrompt (corpus sessions))
  /\ (Forall (parsed getTime) (corpus sessions) ->
      forall i j gi gj p q, (i < j)%nat ->
        nth_error groups i = Some gi -> nth_error groups j = Some gj ->
        Group.prompt gi = Some p -> Group.prompt gj = Some q ->
        Js.le (AppV1.timeOf getTime (fields p))
              (AppV1.timeOf getTime (fields q))).
Proof.
  intros groups. unfold groups. rewrite workflowGroupsOf_first.
  rewrite workflowGroups_no_session.
  pose proof (windows_prompts getTime 0 (AppV1.prompts getTime sessions)
                (AppV1.actions getTime sessions)) as Hp.
  split; [|split; [|split; [|split]]].
  - rewrite windows_length.
    rewrite <- (Permutation_length (prompts_perm getTime sessions)).
    symmetry. apply length_map.
  - apply (promptsShown_all _ _ Hp).
  - exact Hp.
  - apply prompts_perm.
  - intros Hparsed i j gi gj p q Hij Hi Hj Pi Pj.
    assert (N : forall k g r, nth_error (windows getTime 0
                  (AppV1.prompts getTime sessions)
                  (AppV1.actions getTime sessions)) k = Some g ->
                Group.prompt g = Some r ->
                nth_error (AppV1.prompts getTime sessions) k = Some r).
    { intros k g r Hk Hr.
      apply (map_nth_error Group.prompt) in Hk. rewrite Hp in Hk.
      rewrite nth_error_map in Hk.
      destruct (nth_error (AppV1.prompts getTime sessions) k); [|discriminate].
      cbn in Hk. congruence. }
    pose proof (StronglySorted_nth_error _ _ i j p q
                  (prompts_sorted getTime sessions Hparsed) Hij
                  (N _ _ _ Hi Pi) (N _ _ _ Hj Pj)) as H.
    exact H.
Qed.

Lemma no_session_one_group_per_prompt_witness :
  Forall (parsed Date.getTime) (corpus Examples.example1)
  /\ forall i j gi gj p q, (i < j)%nat ->
       nth_error (workflowGroupsOf FirstVariant Date.getTime
                                   (Some "no_session") Examples.example1) i
       = Some gi ->
       nth_error (workflowGroupsOf FirstVariant Date.getTime
                                   (Some "no_session") Examples.example1) j
       = Some gj ->
       Group.prompt gi = Some p -> Group.prompt gj = Some q ->
       Js.le (AppV1.timeOf Date.getTime (fields p))
             (AppV1.timeOf Date.getTime (fields q)).
Proof.
  assert (H : Forall (parsed Date.getTime) (corpus Examples.example1)).
  { repeat constructor; vm_compute; discriminate. }
  split; [exact H|].
  exact (proj2 (proj2 (proj2 (proj2
           (no_session_one_group_per_prompt
              FirstVariant Date.getTime Examples.example1)))) H).
Defined.

(** X19. With ["no_session"] selected, over a corpus whose timestamps
    are all dates, the actions of every group are in chronological
    order, and so are the actions of all the groups read one group after
    the other. On every corpus an action of a group is an event of the
    corpus that is not a prompt and is strictly later than the prompt of
    its group. *)
Theorem no_session_actions_chronological (v : variant)
        (getTime : string -> Js.time) (sessions : list Session.t) :
  let groups := workflowGroupsOf v getTime (Some "no_session") sessions in
  let le := fun a b =>
    Js.le (AppV1.timeOf getTime a) (AppV1.timeOf getTime b) in
  (Forall (parsed getTime) (corpus sessions) ->
   StronglySorted le (concat (map Group.actions groups))
   /\ (forall g, In g groups -> StronglySorted le (Group.actions g)))
  /\ (forall g p a, In g groups -> Group.prompt g = Some p ->
        In a (Group.actions g) ->
        Js.lt (AppV1.timeOf getTime (fields p)) (AppV1.timeOf getTime a)
        /\ AppV1.isPrompt a = false /\ In a (corpus sessions)).
Proof.
  intros groups le. unfold groups. rewrite workflowGroupsOf_first.
  split.
  - intros Hparsed.
    assert (Hs : StronglySorted le (map fields (AppV1.actions getTime sessions))).
    { apply map_sorted. exact (actions_sorted getTime sessions Hparsed). }
    split.
    + rewrite (no_session_concat getTime sessions Hparsed).
      apply filter_sorted, Hs.
    + intros g Hg. apply In_nth_error in Hg. destruct Hg as [i Hi].
      rewrite workflowGroups_no_session, windows_nth_error in Hi.
      destruct (nth_error (AppV1.prompts getTime sessions) i) as [p|];
        [|discriminate].
      injection Hi as <-. cbn [Group.actions].
      apply map_sorted, filter_sorted.
      exact (actions_sorted getTime sessions Hparsed).
  - intros g p a Hg Hp Ha. apply In_nth_error in Hg. destruct Hg as [i Hi].
    destruct (group_action_window getTime sessions i g Hi) as [p' [_ [Hp' W]]].
    rewrite Hp in Hp'. injection Hp' as <-.
    apply W in Ha. destruct Ha as [Hin Hw].
    unfold inWindow in Hw. apply andb_true_iff in Hw. destruct Hw as [Hlt _].
    split; [exact Hlt|].
    apply (Permutation_in _ (actions_perm getTime sessions)) in Hin.
    apply filter_In in Hin. destruct Hin as [Hc Hn].
    apply negb_true_iff in Hn. split; assumption.
Qed.

Lemma no_session_actions_chronological_witness :
  Forall (parsed Date.getTime) (corpus Examples.example1)
  /\ StronglySorted
       (fun a b => Js.le (AppV1.timeOf Date.getTime a)
                         (AppV1.timeOf Date.getTime b))
       (concat (map Group.actions
                    (workflowGroupsOf FirstVariant Date.getTime
                                      (Some "no_session") Examples.example1))).
Proof.
  assert (H : Forall (parsed Date.getTime) (corpus Examples.example1)).
  { repeat constructor; vm_compute; discriminate. }
  split; [exact H|].
  exact (proj1 (proj1 (no_session_actions_chronological
                         FirstVariant Date.getTime Examples.example1) H)).
Defined.

Lemma last_map_Some {A : Type} (l : list A) (p : A) :
  last (map Some l) None = Some p -> exists front, l = front ++ [p].
Proof.
  intros H. destruct (nil_or_not l) as [->|Hne]; [discriminate|].
  destruct (exists_last Hne) as [front [q E]]. exists front.
  rewrite E, map_app in H. cbn [map] in H. rewrite last_last in H.
  congruence.
Qed.

Lemma timeOf_spread (getTime : string -> Js.time) (e : Event) (sid : string) :
  AppV1.timeOf getTime (AppV1.spread e sid) = AppV1.timeOf getTime e.
Proof. reflexivity. Qed.

(** The events of a listed session are events of the corpus. *)
Lemma selectedEvents_parsed (getTime : string -> Js.time)
      (sel : option string) (sessions : list Session.t) :
  Forall (parsed getTime) (corpus sessions) ->
  Forall (parsed getTime) (selectedEvents sel sessions).
Proof.
  intros Hp. unfold selectedEvents.
  destruct (AppV1.findSession sel sessions) as [s|] eqn:F; [|constructor].
  apply find_some in F. destruct F as [Hs _].
  rewrite Forall_forall in Hp |- *. intros e He.
  unfold parsed. rewrite <- (timeOf_spread getTime e (Session.id s)).
  apply Hp. unfold corpus. apply in_flat_map. exists s.
  split; [exact Hs|].
  exact (in_map (fun e' => AppV1.spread e' (Session.id s)) _ e He).
Qed.

(** X20. With a session selected, over a corpus whose timestamps are all
    dates, the view is a single group: it holds every event of the
    session (its prompts included) in chronological order, under the
    latest of the relevant prompts, or under no prompt when none is
    relevant; the earlier relevant prompts are not shown. A session
    without events, or one that is not listed, gives no group. *)
Theorem session_view_is_one_group
        (v : variant) (getTime : string -> Js.time) (sel : option string)
        (sessions : list Session.t) :
  Js.truthy sel = true -> Js.strictEq sel "no_session" = false ->
  Forall (parsed getTime) (corpus sessions) ->
  let events := selectedEvents sel sessions in
  let relevantPrompts :=
    AppV1.relevantPrompts getTime (AppV1.prompts getTime sessions)
      (AppV1.earliestActionTime getTime
         (AppV1.sessionEvents getTime events)) in
  let groups := workflowGroupsOf v getTime sel sessions in
  let le := fun a b =>
    Js.le (AppV1.timeOf getTime a) (AppV1.timeOf getTime b) in
  (events = [] -> groups = [])
  /\ (events <> [] ->
      exists g, groups = [g]
        /\ Permutation (Group.actions g) events
        /\ StronglySorted le (Group.actions g)
        /\ Group.prompt g = last (map Some relevantPrompts) None
        /\ App.promptsShown groups
           = (if (length relevantPrompts =? 0)%nat then 0 else 1)%nat)
  /\ (forall p q, last (map Some relevantPrompts) None = Some p ->
        In q relevantPrompts ->
        Js.le (AppV1.timeOf getTime (fields q))
              (AppV1.timeOf getTime (fields p))).
Proof.
  intros Ht Hn Hparsed events rp groups le.
  pose proof (selectedEvents_parsed getTime sel sessions Hparsed) as Hev.
  fold events in Hev.
  unfold groups. clear groups. rewrite workflowGroupsOf_first.
  set (groups := AppV1.workflowGroups getTime sel sessions).
  split; [|split].
  - intros E. unfold groups, AppV1.workflowGroups. rewrite Ht, Hn. cbn [negb].
    unfold events, selectedEvents, AppV1.eventsOf in E.
    destruct (AppV1.findSession sel sessions) as [s|]; [|reflexivity].
    destruct (Session.events s) as [[|e es]|]; try reflexivity. discriminate.
  - intros Hne. unfold events, selectedEvents, AppV1.eventsOf in Hne.
    destruct (AppV1.findSession sel sessions) as [s|] eqn:F; [|contradiction].
    destruct (Session.events s) as [evs|] eqn:Ev; [|contradiction].
    assert (E : events = evs).
    { unfold events, selectedEvents, AppV1.eventsOf; try rewrite F;
        try rewrite Ev; reflexivity. }
    unfold groups.
    rewrite (workflowGroups_session getTime sel sessions s evs Ht Hn F Ev Hne).
    unfold rp. rewrite E in Hev |- *.
    pose proof (sessionEvents_perm getTime evs) as Pse.
    pose proof (sessionEvents_sorted getTime evs Hev) as Sse.
    destruct (sessionGroups_cases getTime sessions evs Hne) as [[R G]|[R [L G]]].
    + rewrite G. cbv beta in R. rewrite R.
      exists (Group.mk None (AppV1.sessionEvents getTime evs) "session-actions").
      repeat split; assumption.
    + destruct (exists_last R) as [front [p Ep]].
      pose proof (sessionGroups_last getTime sessions evs front p Hev Hne Ep) as S.
      cbv beta in Ep. rewrite Ep.
      destruct (AppV1.sessionGroups getTime (AppV1.prompts getTime sessions) evs)
        as [|g [|g' gs]]; try discriminate.
      cbn [map] in S. injection S as Sp Sa. exists g. split; [reflexivity|].
      rewrite Sa. split; [exact Pse|]. split; [exact Sse|]. split.
      * rewrite map_app. cbn [map]. rewrite last_last. exact Sp.
      * unfold App.promptsShown. cbn [filter]. rewrite Sp.
        rewrite length_app. cbn [length].
        replace (length front + 1)%nat with (S (length front)) by lia.
        reflexivity.
  - intros p q Hl Hq. destruct (last_map_Some _ _ Hl) as [front E].
    assert (Hs : StronglySorted
                   (fun a b => Js.le (AppV1.timeOf getTime (fields a))
                                     (AppV1.timeOf getTime (fields b))) rp).
    { apply filter_sorted. exact (prompts_sorted getTime sessions Hparsed). }
    assert (Hp : In p rp) by (rewrite E; apply in_or_app; right; left; reflexivity).
    rewrite E in Hs, Hq. apply in_app_or in Hq. destruct Hq as [Hq|[<-|[]]].
    + apply (StronglySorted_app_le _ _ _ Hs q p Hq). left. reflexivity.
    + apply relevantPrompts_Time in Hp. destruct Hp as [_ [tp [z0 [E1 _]]]].
      rewrite E1. cbn [Js.le]. lia.
Qed.

Lemma session_view_is_one_group_witness :
  Js.truthy (Some "A") = true
  /\ Js.strictEq (Some "A") "no_session" = false
  /\ Forall (parsed Date.getTime) (corpus Examples.example2)
  /\ exists g,
       workflowGroupsOf SecondVariant Date.getTime (Some "A") Examples.example2
       = [g]
       /\ Permutation (Group.actions g)
                      (selectedEvents (Some "A") Examples.example2).
Proof.
  assert (H : Forall (parsed Date.getTime) (corpus Examples.example2)).
  { repeat constructor; vm_compute; discriminate. }
  split; [reflexivity|]. split; [reflexivity|]. split; [exact H|].
  destruct (proj1 (proj2 (session_view_is_one_group
                            SecondVariant Date.getTime (Some "A")
                            Examples.example2 eq_refl eq_refl H))
                  ltac:(discriminate)) as [g [G [P _]]].
  exists g. split; [exact G | exact P].
Defined.

(* ================================================================== *)
(** * Further statements: the metrics *)
(* ================================================================== *)

Lemma total_app (a b : list Z) : total (a ++ b) = total a + total b.
Proof. induction a as [|x a IH]; simpl; [reflexivity | rewrite IH; lia]. Qed.

Lemma total_perm (a b : list Z) : Permutation a b -> total a = total b.
Proof. induction 1; simpl; lia. Qed.

Lemma total_nonneg (a : list Z) : (forall x, In x a -> 0 <= x) -> 0 <= total a.
Proof.
  induction a as [|x a IH]; intros H; simpl; [lia|].
  pose proof (H x (or_introl eq_refl)).
  assert (0 <= total a) by (apply IH; intros y Hy; apply H; right; exact Hy).
  lia.
Qed.

Lemma total_bump (k : string) (obj : Js.Counter) :
  total (map snd (Js.bump k obj)) = total (map snd obj) + 1.
Proof.
  induction obj as [|[k' n] rest IH]; [reflexivity|]. cbn [Js.bump].
  destruct (k' =? k)%string; cbn [map snd total fold_right] in *;
    [lia | fold (total (map snd (Js.bump k rest))); rewrite IH;
           fold (total (map snd rest)); lia].
Qed.

Lemma total_countAll_from (names : list string) (acc : Js.Counter) :
  total (map snd (fold_left (fun obj k => Js.bump k obj) names acc))
  = total (map snd acc) + Z.of_nat (length names).
Proof.
  revert acc. induction names as [|k names IH]; intros acc.
  - simpl. lia.
  - cbn [fold_left length]. rewrite IH, total_bump. lia.
Qed.

Lemma total_countAll (names : list string) :
  total (map snd (Js.countAll names)) = Z.of_nat (length names).
Proof. unfold Js.countAll. rewrite total_countAll_from. reflexivity. Qed.

Lemma count_occ_map_filter {A : Type} (g : A -> string) (l : list A)
      (c : string) :
  count_occ string_dec (map g l) c
  = length (filter (fun x => (g x =? c)%string) l).
Proof.
  induction l as [|x l IH]; [reflexivity|]. cbn [map count_occ filter].
  destruct (string_dec (g x) c) as [E|N].
  - rewrite (proj2 (String.eqb_eq _ _) E). cbn [length]. rewrite IH. reflexivity.
  - rewrite (proj2 (String.eqb_neq _ _) N). exact IH.
Qed.

Lemma countAll_entry (names : list string) (c : string) (n : Z) :
  In (c, n) (Js.countAll names) -> In c names /\ n = occurrences names c.
Proof.
  rewrite countAll_counted. intros H. apply in_map_iff in H.
  destruct H as [k [E Hk]]. injection E as <- <-.
  split; [apply firstSeen_In, Hk | reflexivity].
Qed.

Lemma occurrences_pos (names : list string) (c : string) :
  In c names -> 1 <= occurrences names c.
Proof.
  intros H. unfold occurrences.
  apply (count_occ_In string_dec) in H. lia.
Qed.

(** X21. The category breakdown adds up: over the categories, each named
    once, the counts sum to the number of events; the count of a category
    is the number of events filed under it, at least one, and every event
    is filed under a category of the breakdown. (The categories are
    ordinary keys of the counting object.) *)
Theorem category_breakdown_adds_up (getTime : string -> Z)
        (LocalTZA : Z -> Z) (now : Z) (logs : list Event) :
  let m := AppV1.metrics getTime LocalTZA now logs in
  ordinaryKeys (map categoryKey logs) ->
  total (map snd (AppV1.Metrics.categoryBreakdown m))
    = AppV1.Metrics.totalEvents m
  /\ NoDup (map fst (AppV1.Metrics.categoryBreakdown m))
  /\ (forall c n, In (c, n) (AppV1.Metrics.categoryBreakdown m) ->
        1 <= n
        /\ n = Z.of_nat
                 (length (filter (fun l => (categoryKey l =? c)%string) logs)))
  /\ (forall l, In l logs ->
        exists n, In (categoryKey l, n) (AppV1.Metrics.categoryBreakdown m)).
Proof.
  intros m _. unfold m, AppV1.metrics. cbn zeta.
  cbn [AppV1.Metrics.categoryBreakdown AppV1.Metrics.totalEvents].
  fold categoryKey.
  change (fun log : Event =>
            Js.orDefault (Js.or (category log) (type log)) "unknown")
    with categoryKey.
  split; [|split; [|split]].
  - rewrite total_countAll, length_map. reflexivity.
  - rewrite countAll_counted, map_map. cbn [fst]. rewrite map_id.
    apply firstSeen_NoDup.
  - intros c n H. apply countAll_entry in H. destruct H as [Hc ->].
    split; [apply occurrences_pos, Hc|].
    unfold occurrences. rewrite count_occ_map_filter. reflexivity.
  - intros l Hl. exists (occurrences (map categoryKey logs) (categoryKey l)).
    rewrite countAll_counted.
    apply (in_map (fun k => (k, occurrences (map categoryKey logs) k))).
    apply firstSeen_In, in_map, Hl.
Qed.

Lemma category_breakdown_adds_up_witness :
  ordinaryKeys (map categoryKey MetricsExamples.example4)
  /\ total (map snd (AppV1.Metrics.categoryBreakdown
                       (AppV1.metrics Date.utcTime Date.utcZone 0
                                      MetricsExamples.example4)))
     = AppV1.Metrics.totalEvents
         (AppV1.metrics Date.utcTime Date.utcZone 0 MetricsExamples.example4).
Proof.
  assert (H : ordinaryKeys (map categoryKey MetricsExamples.example4)).
  { unfold ordinaryKeys. repeat constructor. }
  split; [exact H|].
  exact (proj1 (category_breakdown_adds_up
                  Date.utcTime Date.utcZone 0 MetricsExamples.example4 H)).
Defined.

(** ** The histograms *)

Lemma total_incrAt (i : nat) (a : list Z) :
  (i < length a)%nat -> total (AppV1.incrAt i a) = total a + 1.
Proof.
  revert i. induction a as [|x a IH]; intros i H; [simpl in H; lia|].
  destruct i as [|i]; cbn [AppV1.incrAt total fold_right].
  - fold (total a). lia.
  - fold (total (AppV1.incrAt i a)) (total a). rewrite IH by (simpl in H; lia).
    lia.
Qed.

Lemma total_repeat0 (n : nat) : total (repeat 0 n) = 0.
Proof. induction n as [|n IH]; simpl; [reflexivity | exact IH]. Qed.

Lemma histogram_total (n : nat) (f : string -> nat) (logs : list Event) :
  (forall s, (f s < n)%nat) ->
  total (AppV1.histogram n f logs) = dated logs.
Proof.
  intros Hf. unfold AppV1.histogram, dated.
  assert (G : forall a, length a = n ->
            total (fold_left
                     (fun a log =>
                        if Js.truthy (timestamp log)
                        then AppV1.incrAt (f (Js.orDefault (timestamp log) "")) a
                        else a) logs a)
            = total a
              + Z.of_nat (length (filter (fun l => Js.truthy (timestamp l)) logs))).
  { induction logs as [|l logs IH]; intros a Ha; [simpl; lia|].
    cbn [fold_left filter].
    destruct (Js.truthy (timestamp l)).
    - rewrite IH by (rewrite incrAt_length; exact Ha).
      rewrite total_incrAt by (rewrite Ha; apply Hf).
      cbn [length]. lia.
    - rewrite IH by exact Ha. reflexivity. }
  rewrite G by apply repeat_length. rewrite total_repeat0. reflexivity.
Qed.

Lemma maxWith1_pos (l : list Z) : 1 <= Js.maxWith1 l.
Proof. unfold Js.maxWith1. induction l as [|y l IH]; simpl; lia. Qed.

Lemma maxWith1_le (l : list Z) (x : Z) : In x l -> x <= Js.maxWith1 l.
Proof.
  unfold Js.maxWith1. induction l as [|y l IH]; simpl; [intros []|].
  intros [<-|H]; [lia|]. specialize (IH H). lia.
Qed.

(** X22. The two activity histograms conserve the events: the 24 hourly
    buckets and the 7 daily buckets each add up to the number of events
    that carry a timestamp, which is at most the number of events, and no
    bucket is negative. (Timestamps are dates that parse.) *)
Theorem histograms_count_dated_events (getTime : string -> Z)
        (LocalTZA : Z -> Z) (now : Z) (logs : list Event) :
  let m := AppV1.metrics getTime LocalTZA now logs in
  length (AppV1.Metrics.hourlyActivity m) = 24%nat
  /\ length (AppV1.Metrics.dailyActivity m) = 7%nat
  /\ total (AppV1.Metrics.hourlyActivity m) = dated logs
  /\ total (AppV1.Metrics.dailyActivity m) = dated logs
  /\ dated logs <= AppV1.Metrics.totalEvents m
  /\ (forall b, In b (AppV1.Metrics.hourlyActivity m)
                \/ In b (AppV1.Metrics.dailyActivity m) -> 0 <= b).
Proof.
  intros m. unfold m, AppV1.metrics. cbn zeta.
  cbn [AppV1.Metrics.hourlyActivity AppV1.Metrics.dailyActivity
       AppV1.Metrics.totalEvents].
  split; [rewrite histogram_buckets, length_map, length_seq; reflexivity|].
  split; [rewrite histogram_buckets, length_map, length_seq; reflexivity|].
  split; [apply histogram_total, getHours_lt|].
  split; [apply histogram_total, getDay_lt|].
  split.
  - unfold dated. pose proof (filter_length_le
      (fun l => Js.truthy (timestamp l)) logs). lia.
  - intros b [H|H]; rewrite histogram_buckets in H; apply in_map_iff in H;
      destruct H as [d [<- _]]; unfold inBucket; lia.
Qed.

(** X23. No bar is drawn higher than full height and no height divides
    by zero: every hourly, daily and recent-day count lies between 0 and
    the maximum it is scaled by, and each maximum is at least 1. *)
Theorem bars_bounded_by_maximum (getTime : string -> Z)
        (LocalTZA : Z -> Z) (now : Z) (logs : list Event) :
  let m := AppV1.metrics getTime LocalTZA now logs in
  1 <= AppV1.Metrics.maxHourly m
  /\ 1 <= AppV1.Metrics.maxDaily m
  /\ 1 <= AppV1.Metrics.maxRecentDaily m
  /\ (forall b, In b (AppV1.Metrics.hourlyActivity m) ->
                0 <= b <= AppV1.Metrics.maxHourly m)
  /\ (forall b, In b (AppV1.Metrics.dailyActivity m) ->
                0 <= b <= AppV1.Metrics.maxDaily m)
  /\ (forall d, In d (AppV1.Metrics.recentDays m) ->
                0 <= AppV1.Recent.count d <= AppV1.Metrics.maxRecentDaily m)
  /\ length (AppV1.Metrics.recentDays m) = 7%nat.
Proof.
  intros m. unfold m, AppV1.metrics. cbn zeta.
  cbn [AppV1.Metrics.hourlyActivity AppV1.Metrics.dailyActivity
       AppV1.Metrics.maxHourly AppV1.Metrics.maxDaily
       AppV1.Metrics.maxRecentDaily AppV1.Metrics.recentDays].
  split; [apply maxWith1_pos|]. split; [apply maxWith1_pos|].
  split; [apply maxWith1_pos|]. split; [|split; [|split]].
  - intros b H. split; [|apply maxWith1_le, H].
    rewrite histogram_buckets in H. apply in_map_iff in H.
    destruct H as [d [<- _]]. unfold inBucket. lia.
  - intros b H. split; [|apply maxWith1_le, H].
    rewrite histogram_buckets in H. apply in_map_iff in H.
    destruct H as [d [<- _]]. unfold inBucket. lia.
  - intros d H. split; [|apply maxWith1_le, in_map, H].
    unfold AppV1.recentDaysOf in H. apply in_map_iff in H.
    destruct H as [i [<- _]]. cbn [AppV1.Recent.count]. lia.
  - reflexivity.
Qed.

(** ** Sessions and the average *)

Lemma uniqueSessionIds_fold (logs : list Event) (acc : list string) :
  let step := fun (ids : list string) (log : Event) =>
    match trajectory_id log with
    | Some tid => if (tid =? "")%string then ids else Js.setAdd tid ids
    | None => ids
    end in
  (NoDup acc -> NoDup (fold_left step logs acc))
  /\ (forall x, In x (fold_left step logs acc) <->
        In x acc
        \/ (x <> "" /\ exists l, In l logs /\ trajectory_id l = Some x)).
Proof.
  intros step. revert acc. induction logs as [|l logs IH]; intros acc.
  - simpl. split; [trivial|]. intros x. split; [tauto|].
    intros [H|[_ [l [[] _]]]]. exact H.
  - simpl. destruct (IH (step acc l)) as [IH1 IH2]. split.
    + intros H. apply IH1. unfold step.
      destruct (trajectory_id l) as [tid|]; [|exact H].
      destruct (tid =? "")%string; [exact H | apply setAdd_NoDup, H].
    + intros x. rewrite IH2.
      assert (Hex : (exists t, In t (l :: logs) /\ trajectory_id t = Some x)
                    <-> trajectory_id l = Some x
                        \/ exists t, In t logs /\ trajectory_id t = Some x).
      { split.
        - intros [t [[<-|Ht] Et]]; [left; exact Et | right; exists t; tauto].
        - intros [E|[t [Ht Et]]]; [exists l | exists t]; simpl; tauto. }
      rewrite Hex. clear Hex.
      set (P := exists t, In t logs /\ trajectory_id t = Some x).
      unfold step at 1. destruct (trajectory_id l) as [tid|].
      * destruct (String.eqb_spec tid "") as [->|Hne];
          [|rewrite setAdd_In]; intuition congruence.
      * intuition congruence.
Qed.

Lemma roundDiv_nearest (a b : Z) :
  0 <= a -> 0 < b ->
  2 * b * Js.roundDiv a b <= 2 * a + b < 2 * b * (Js.roundDiv a b + 1)
  /\ 0 <= Js.roundDiv a b <= a.
Proof.
  intros Ha Hb. unfold Js.roundDiv.
  pose proof (Z.div_mod (2 * a + b) (2 * b) ltac:(lia)) as D.
  pose proof (Z.mod_pos_bound (2 * a + b) (2 * b) ltac:(lia)) as M.
  split; [lia|]. split.
  - apply Z.div_pos; lia.
  - assert ((2 * a + b) / (2 * b) < a + 1); [|lia].
    apply Z.div_lt_upper_bound; nia.
Qed.

(** X24. The session count the dashboard divides by is the number of
    distinct non-empty session ids of the events, or 1 when there is
    none; the average shown is the total divided by it, rounded to the
    nearest integer (halves up), and lies between 0 and the total. *)
Theorem average_events_per_session (getTime : string -> Z)
        (LocalTZA : Z -> Z) (now : Z) (logs : list Event) :
  let m := AppV1.metrics getTime LocalTZA now logs in
  let ids := AppV1.uniqueSessionIds logs in
  let count := AppV1.Metrics.filteredSessionCount m in
  let avg := AppV1.Metrics.avgEventsPerSession m in
  NoDup ids
  /\ (forall x, In x ids <->
        x <> "" /\ exists l, In l logs /\ trajectory_id l = Some x)
  /\ count = Z.max 1 (Z.of_nat (length ids))
  /\ 2 * count * avg <= 2 * AppV1.Metrics.totalEvents m + count
     < 2 * count * (avg + 1)
  /\ 0 <= avg <= AppV1.Metrics.totalEvents m.
Proof.
  intros m ids count avg.
  destruct (uniqueSessionIds_fold logs []) as [U1 U2].
  fold (AppV1.uniqueSessionIds logs) in U1, U2. fold ids in U1, U2.
  split; [apply U1; constructor|]. split.
  { intros x. rewrite U2. simpl. tauto. }
  unfold count, avg, m, AppV1.metrics. cbn zeta.
  cbn [AppV1.Metrics.filteredSessionCount AppV1.Metrics.avgEventsPerSession
       AppV1.Metrics.totalEvents].
  fold ids.
  set (c := if Z.of_nat (length ids) =? 0 then 1 else Z.of_nat (length ids)).
  assert (Hc : c = Z.max 1 (Z.of_nat (length ids))).
  { unfold c. destruct (Z.eqb_spec (Z.of_nat (length ids)) 0); lia. }
  split; [exact Hc|].
  assert (Hpos : 0 < c) by lia.
  rewrite (proj2 (Z.ltb_lt 0 c) Hpos).
  apply roundDiv_nearest; lia.
Qed.

(** ** The rankings *)

Lemma total_firstn_le (n : nat) (a : list Z) :
  (forall x, In x a -> 0 <= x) -> total (firstn n a) <= total a.
Proof.
  intros H. rewrite <- (firstn_skipn n a) at 2. rewrite total_app.
  assert (0 <= total (skipn n a)); [|lia].
  apply total_nonneg. intros x Hx. apply H.
  rewrite <- (firstn_skipn n a). apply in_or_app. right. exact Hx.
Qed.

Lemma ranking_total (k : nat) (names : list string) :
  let top := firstn k (Js.sort AppV1.byCountDesc (Js.entries (Js.countAll names))) in
  (length top <= k)%nat
  /\ total (map snd top) <= Z.of_nat (length names)
  /\ ((Js.size (Js.countAll names) <= k)%nat ->
      total (map snd top) = Z.of_nat (length names))
  /\ Z.of_nat (Js.size (Js.countAll names))
     = Z.of_nat (length (firstSeen names)).
Proof.
  intros top.
  set (sorted := Js.sort AppV1.byCountDesc (Js.entries (Js.countAll names))).
  assert (P : Permutation sorted (Js.countAll names)).
  { eapply perm_trans; [apply sort_perm | apply entries_perm]. }
  assert (T : total (map snd sorted) = Z.of_nat (length names)).
  { rewrite (total_perm _ _ (Permutation_map snd P)). apply total_countAll. }
  assert (Pos : forall x, In x (map snd sorted) -> 0 <= x).
  { intros x Hx. apply in_map_iff in Hx. destruct Hx as [[c n] [<- He]].
    apply (Permutation_in _ P) in He. apply countAll_entry in He.
    destruct He as [Hc ->]. pose proof (occurrences_pos names c Hc).
    cbn [snd]. lia. }
  split; [apply firstn_le_length|]. split; [|split].
  - unfold top. fold sorted. rewrite <- T, <- firstn_map.
    apply total_firstn_le, Pos.
  - intros Hk. unfold top. fold sorted. rewrite firstn_all2; [exact T|].
    rewrite (Permutation_length P). exact Hk.
  - unfold Js.size. rewrite countAll_counted, length_map. reflexivity.
Qed.

(** X25. The three rankings never list more rows than their limit (8
    files, 6 commands, 6 tools), and the counts they show add up to at
    most the number of events of their category, and to exactly that
    number when the distinct names fit within the limit. The number of
    files modified is the number of distinct base names written. (The
    names are ordinary keys of the counting objects.) *)
Theorem rankings_count_their_category (getTime : string -> Z)
        (LocalTZA : Z -> Z) (now : Z) (logs : list Event) :
  let m := AppV1.metrics getTime LocalTZA now logs in
  ordinaryKeys (writtenFiles logs ++ commandNames logs ++ toolNames logs) ->
  ((length (AppV1.Metrics.topFiles m) <= 8)%nat
   /\ (length (AppV1.Metrics.topCommands m) <= 6)%nat
   /\ (length (AppV1.Metrics.topMcpTools m) <= 6)%nat)
  /\ (total (map snd (AppV1.Metrics.topFiles m))
        <= Z.of_nat (length (filter (AppV1.hasCategory "file_write") logs))
      /\ total (map snd (AppV1.Metrics.topCommands m))
        <= Z.of_nat (length (filter (AppV1.hasCategory "command") logs))
      /\ total (map snd (AppV1.Metrics.topMcpTools m))
        <= Z.of_nat (length (filter (AppV1.hasCategory "mcp") logs)))
  /\ AppV1.Metrics.uniqueFilesCount m
     = Z.of_nat (length (firstSeen (writtenFiles logs)))
  /\ (AppV1.Metrics.uniqueFilesCount m <= 8 ->
      total (map snd (AppV1.Metrics.topFiles m))
      = Z.of_nat (length (filter (AppV1.hasCategory "file_write") logs)))
  /\ ((length (firstSeen (commandNames logs)) <= 6)%nat ->
      total (map snd (AppV1.Metrics.topCommands m))
      = Z.of_nat (length (filter (AppV1.hasCategory "command") logs)))
  /\ ((length (firstSeen (toolNames logs)) <= 6)%nat ->
      total (map snd (AppV1.Metrics.topMcpTools m))
      = Z.of_nat (length (filter (AppV1.hasCategory "mcp") logs))).
Proof.
  intros m _. unfold m, AppV1.metrics. cbn zeta.
  cbn [AppV1.Metrics.topFiles AppV1.Metrics.topCommands
       AppV1.Metrics.topMcpTools AppV1.Metrics.uniqueFilesCount].
  unfold AppV1.topFilesOf, AppV1.fileChanges.
  fold (writtenFiles logs) (commandNames logs) (toolNames logs).
  destruct (ranking_total 8 (writtenFiles logs)) as [F1 [F2 [F3 F4]]].
  destruct (ranking_total 6 (commandNames logs)) as [C1 [C2 [C3 C4]]].
  destruct (ranking_total 6 (toolNames logs)) as [T1 [T2 [T3 T4]]].
  cbv zeta in F1, F2, F3, C1, C2, C3, T1, T2, T3.
  unfold writtenFiles, commandNames, toolNames in F2, F3, C2, C3, T2, T3.
  rewrite length_map in F2, F3, C2, C3, T2, T3.
  fold (writtenFiles logs) in F2, F3. fold (commandNames logs) in C2, C3.
  fold (toolNames logs) in T2, T3.
  split; [split; [exact F1 | split; [exact C1 | exact T1]]|].
  split; [split; [exact F2 | split; [exact C2 | exact T2]]|].
  split; [exact F4|]. split; [|split].
  - intros H. apply F3. lia.
  - intros H. apply C3. apply Nat2Z.inj_le. rewrite C4. lia.
  - intros H. apply T3. apply Nat2Z.inj_le. rewrite T4. lia.
Qed.

Lemma rankings_count_their_category_witness :
  ordinaryKeys (writtenFiles MetricsExamples.example4
                ++ commandNames MetricsExamples.example4
                ++ toolNames MetricsExamples.example4)
  /\ AppV1.Metrics.uniqueFilesCount
       (AppV1.metrics Date.utcTime Date.utcZone 0 MetricsExamples.example4)
     = Z.of_nat (length (firstSeen (writtenFiles MetricsExamples.example4))).
Proof.
  assert (H : ordinaryKeys (writtenFiles MetricsExamples.example4
                            ++ commandNames MetricsExamples.example4
                            ++ toolNames MetricsExamples.example4)).
  { unfold ordinaryKeys. repeat constructor. }
  split; [exact H|].
  exact (proj1 (proj2 (proj2 (rankings_count_their_category
                  Date.utcTime Date.utcZone 0 MetricsExamples.example4 H)))).
Defined.

(** ** The metrics of the server *)

Lemma maxWith1Opt_Some (l : list Z) :
  AppV2.maxWith1Opt (map Some l) = Some (Js.maxWith1 l).
Proof.
  unfold AppV2.maxWith1Opt, Js.maxWith1.
  induction l as [|x l IH]; [reflexivity|]. cbn [map fold_right] in *.
  rewrite IH. reflexivity.
Qed.

Lemma maxWith1_perm (a b : list Z) :
  Permutation a b -> Js.maxWith1 a = Js.maxWith1 b.
Proof.
  unfold Js.maxWith1. induction 1; cbn [fold_right]; lia.
Qed.

(** X26. The rotation of the server's day-of-week histogram needs its 7
    buckets: with 7 it only reorders them (bucket [k] of the result is
    bucket [(k + 6) mod 7] of the server, so the total and the maximum are
    kept); with fewer the Sunday bar is undefined and the maximum is
    [NaN]; buckets beyond the seventh are dropped. A payload without the
    histogram gives seven zeros and the maximum 1. *)
Theorem rotate_needs_seven_buckets (payload : AppV2.Server.t) :
  let m := AppV2.metrics (Some payload) in
  let serverDaily :=
    AppV2.orElse (AppV2.Server.daily_activity payload) (repeat 0 7) in
  ((7 <= length serverDaily)%nat
   <-> ~ In None (AppV2.Metrics.dailyActivity m))
  /\ ((7 <= length serverDaily)%nat <-> AppV2.Metrics.maxDaily m <> None)
  /\ (length (AppV2.Metrics.dailyActivity m) <= 7)%nat
  /\ (length serverDaily = 7%nat ->
      Permutation (AppV2.Metrics.dailyActivity m) (map Some serverDaily)
      /\ AppV2.Metrics.maxDaily m = Some (Js.maxWith1 serverDaily)
      /\ forall k, (k < 7)%nat ->
           nth_error (AppV2.Metrics.dailyActivity m) k
           = Some (nth_error serverDaily ((k + 6) mod 7)))
  /\ (AppV2.Server.daily_activity payload = None ->
      AppV2.Metrics.dailyActivity m = repeat (Some 0) 7
      /\ AppV2.Metrics.maxDaily m = Some 1).
Proof.
  intros m serverDaily. unfold m, AppV2.metrics.
  cbn [AppV2.Metrics.dailyActivity AppV2.Metrics.maxDaily]. fold serverDaily.
  unfold AppV2.rotate.
  assert (N : (7 <= length serverDaily)%nat <-> nth_error serverDaily 6 <> None).
  { rewrite nth_error_Some. lia. }
  split; [|split; [|split; [|split]]].
  - rewrite N. cbn [In]. split.
    + intros H [E|E]; [congruence|].
      apply in_map_iff in E. destruct E as [x [E _]]. discriminate.
    + intros H E. apply H. left. exact E.
  - rewrite N. cbn [AppV2.maxWith1Opt fold_right].
    fold (AppV2.maxWith1Opt (map Some (firstn 6 serverDaily))).
    rewrite maxWith1Opt_Some.
    destruct (nth_error serverDaily 6); split; congruence.
  - cbn [length]. rewrite length_map, length_firstn. lia.
  - intros H.
    destruct serverDaily as [|a [|b [|c [|d [|e [|f [|g [|h r]]]]]]]];
      try discriminate.
    cbn [nth_error firstn map]. split; [|split].
    + apply (Permutation_cons_append
               [Some a; Some b; Some c; Some d; Some e; Some f] (Some g)).
    + change (AppV2.maxWith1Opt (map Some [g; a; b; c; d; e; f])
              = Some (Js.maxWith1 [a; b; c; d; e; f; g])).
      rewrite maxWith1Opt_Some. f_equal. apply maxWith1_perm.
      apply (Permutation_cons_append [a; b; c; d; e; f] g).
    + intros k Hk.
      do 7 (destruct k as [|k]; [reflexivity|]). lia.
  - intros E. unfold serverDaily. rewrite E. split; reflexivity.
Qed.

(** X27. The average of the server's metrics never divides by zero: it is
    0 when the number of sessions is missing, zero or negative, and
    otherwise the total divided by the number of sessions, rounded to the
    nearest integer. *)
Theorem server_average_never_divides_by_zero (payload : AppV2.Server.t) :
  let m := AppV2.metrics (Some payload) in
  exists avg,
    AppV2.Metrics.avgEventsPerSession m = Some avg
    /\ (AppV2.Metrics.uniqueSessions m <= 0 -> avg = 0)
    /\ (0 < AppV2.Metrics.uniqueSessions m ->
        0 <= AppV2.Metrics.totalEvents m ->
        2 * AppV2.Metrics.uniqueSessions m * avg
          <= 2 * AppV2.Metrics.totalEvents m + AppV2.Metrics.uniqueSessions m
          < 2 * AppV2.Metrics.uniqueSessions m * (avg + 1)
        /\ 0 <= avg <= AppV2.Metrics.totalEvents m).
Proof.
  intros m. unfold m, AppV2.metrics.
  cbn [AppV2.Metrics.avgEventsPerSession AppV2.Metrics.uniqueSessions
       AppV2.Metrics.totalEvents].
  set (n := Js.orZero (AppV2.Server.unique_sessions payload)).
  set (t := Js.orZero (AppV2.Server.total_events payload)).
  destruct (Z.ltb_spec 0 n) as [H|H].
  - exists (Js.roundDiv t n). split; [reflexivity|]. split; [lia|].
    intros _ Ht. apply roundDiv_nearest; assumption.
  - exists 0. split; [reflexivity|]. split; [reflexivity | lia].
Qed.

(* ================================================================== *)
(** * Further statements: the card of a workflow group *)
(* ================================================================== *)

Lemma trimStart_length (s : string) :
  (String.length (JsString.trimStart s) <= String.length s)%nat.
Proof.
  induction s as [|a s IH]; [simpl; lia|]. cbn [JsString.trimStart].
  destruct (JsString.isWhiteSpace a); simpl; lia.
Qed.

Lemma trimEnd_length (s : string) :
  (String.length (JsString.trimEnd s) <= String.length s)%nat.
Proof.
  induction s as [|a s IH]; [simpl; lia|]. cbn [JsString.trimEnd].
  destruct (JsString.trimEnd s) as [|b r].
  - destruct (JsString.isWhiteSpace a); simpl; lia.
  - simpl in *. lia.
Qed.

Lemma trim_length (s : string) :
  (String.length (JsString.trim s) <= String.length s)%nat.
Proof.
  unfold JsString.trim. pose proof (trimEnd_length (JsString.trimStart s)).
  pose proof (trimStart_length s). lia.
Qed.

(** X28. The title of a group's card shows the whole prompt, trimmed,
    whenever the card offers nothing to expand (the prompt is one line of
    at most 60 code units); a missing prompt text is titled "User prompt",
    and the title is empty exactly when the text is not empty but its
    first line is blank. *)
Theorem title_is_whole_prompt_unless_expandable (p : Entry.t) :
  let text := WorkflowGroup.promptText (Some p) in
  let title := WorkflowGroup.promptTitle (Some p) in
  (text = EmptyString -> title = "User prompt")
  /\ (WorkflowGroup.isMultiLine (Some p) = false -> text <> EmptyString ->
      title = JsString.trim text)
  /\ (title = EmptyString
      <-> text <> EmptyString
          /\ JsString.trim (Js.splitHead JsString.LF text) = EmptyString).
Proof.
  intros text title. unfold title, WorkflowGroup.promptTitle,
    WorkflowGroup.isMultiLine. fold text.
  unfold App.getPromptTitle.
  destruct (String.eqb_spec text "") as [E|Hne].
  { split; [reflexivity|]. split; [intros _ H; contradiction|].
    split; [discriminate | intros [H _]; contradiction]. }
  split; [intros E; contradiction|].
  set (firstLine := JsString.trim (Js.splitHead JsString.LF text)).
  cbn zeta. split.
  - intros H _. apply orb_false_iff in H. destruct H as [Hlf Hlen].
    apply Nat.ltb_ge in Hlen.
    assert (Ef : firstLine = JsString.trim text).
    { unfold firstLine, Js.splitHead. rewrite (split_no_sep _ _ Hlf).
      reflexivity. }
    pose proof (trim_length text) as Ht. rewrite <- Ef in Ht.
    rewrite (proj2 (Nat.leb_le _ _)) by lia. exact Ef.
  - destruct (Nat.leb_spec (String.length firstLine) 60) as [Hle|Hgt].
    + split; [intros E; split; assumption | intros [_ E]; exact E].
    + split.
      * intros E. exfalso.
        destruct (20 <? JsString.lastIndexOf " " (substring 0 60 firstLine));
          apply (f_equal String.length) in E; rewrite length_append in E;
          simpl in E; lia.
      * intros [_ E]. rewrite E in Hgt. simpl in Hgt. lia.
Qed.

Lemma filter_disjoint_length {A : Type} (f g : A -> bool) (l : list A) :
  (forall a, f a = true -> g a = false) ->
  (length (filter f l) + length (filter g l))%nat
  = length (filter (fun a => f a || g a) l).
Proof.
  intros H. induction l as [|a l IH]; [reflexivity|]. cbn [filter].
  destruct (f a) eqn:Ef; cbn [orb].
  - rewrite (H a Ef). cbn [length]. lia.
  - destruct (g a); cbn [length]; lia.
Qed.

Lemma badge_In (c : string) (actions : list Entry.t) (a : Entry.t) :
  In a (WorkflowGroup.badge c actions)
  <-> In a actions /\ Js.or (Entry.category a) (Entry.type a) = Some c.
Proof.
  unfold WorkflowGroup.badge. rewrite filter_In. unfold Js.strictEq.
  destruct (Js.or (Entry.category a) (Entry.type a)) as [k|].
  - rewrite String.eqb_eq. split; intros [H1 H2]; split; congruence.
  - split; intros [H1 H2]; discriminate.
Qed.

(** X29. The four counters of a group's card (files written, commands,
    files read, tool calls) never count an action twice, so together they
    count at most the actions of the group; an action a counter counts is
    one the metrics count under the same category. *)
Theorem workflow_badges_disjoint (actions : list Entry.t) :
  (length (WorkflowGroup.fileWrites actions)
   + length (WorkflowGroup.commands actions)
   + length (WorkflowGroup.fileReads actions)
   + length (WorkflowGroup.mcpCalls actions)
   <= length actions)%nat
  /\ (forall c d a, In a (WorkflowGroup.badge c actions) ->
        In a (WorkflowGroup.badge d actions) -> c = d)
  /\ (forall c a, In a (WorkflowGroup.badge c actions) ->
        In a actions
        /\ AppV1.hasCategory c (Entry.event a) = true
        /\ (c <> EmptyString -> categoryOf a = c)).
Proof.
  split; [|split].
  - unfold WorkflowGroup.fileWrites, WorkflowGroup.commands,
      WorkflowGroup.fileReads, WorkflowGroup.mcpCalls, WorkflowGroup.badge.
    set (key := fun a => Js.or (Entry.category a) (Entry.type a)).
    assert (D : forall c d x, c <> d -> Js.strictEq x c = true ->
                              Js.strictEq x d = false).
    { intros c d x Hcd H. unfold Js.strictEq in *. destruct x as [k|];
        [|reflexivity].
      apply String.eqb_eq in H. subst k. apply String.eqb_neq, Hcd. }
    rewrite (filter_disjoint_length
               (fun a => Js.strictEq (key a) "file_write")
               (fun a => Js.strictEq (key a) "command"))
      by (intros a; apply D; discriminate).
    rewrite (filter_disjoint_length
               (fun a => Js.strictEq (key a) "file_write"
                         || Js.strictEq (key a) "command")
               (fun a => Js.strictEq (key a) "file_read")).
    2:{ intros a H. apply orb_true_iff in H.
        destruct H as [H|H]; revert H; apply D; discriminate. }
    rewrite (filter_disjoint_length
               (fun a => Js.strictEq (key a) "file_write"
                         || Js.strictEq (key a) "command"
                         || Js.strictEq (key a) "file_read")
               (fun a => Js.strictEq (key a) "mcp")).
    2:{ intros a H. apply orb_true_iff in H. destruct H as [H|H];
          [apply orb_true_iff in H; destruct H as [H|H]|];
          revert H; apply D; discriminate. }
    apply filter_length_le.
  - intros c d a Hc Hd. apply badge_In in Hc, Hd.
    destruct Hc as [_ Hc], Hd as [_ Hd]. congruence.
  - intros c a H. apply badge_In in H. destruct H as [Hin Hk].
    split; [exact Hin|]. split.
    + unfold AppV1.hasCategory, Entry.event. cbn [category type].
      unfold Js.or in Hk. destruct (Js.truthy (Entry.category a));
        rewrite Hk; unfold Js.strictEq; rewrite String.eqb_refl;
        [reflexivity | apply orb_true_r].
    + intros Hne. unfold categoryOf. rewrite Hk. unfold Js.orDefault.
      destruct (String.eqb_spec c ""); [contradiction | reflexivity].
Qed.
